(** * KiCad: combined text pattern matcher and legacy command-id translation

    A shallow embedding of the pattern matchers declared in
    eda_pattern_match.h (the substring, regular-expression and wildcard
    matchers and the combined matcher built from them) and of
    [PCB_ACTIONS::TranslateLegacyId], followed by the properties proved about
    them.

    The matchers sit on top of wxWidgets ([wxString], [wxRegEx], [wxLog]).
    wxWidgets is not part of the sources.  Its string search and its log are
    modelled here the way wxWidgets implements them; the regular-expression
    engine itself is kept abstract (class [wxRegExEngine]) and every result
    below holds for any engine; where a result needs the engine to do its
    part, it says what it asks of it ([honours_wildcards]). *)

From Stdlib Require Import String Ascii.
From Stdlib Require Import ZArith NArith List Bool Lia Permutation.
Import ListNotations.
Local Open Scope Z_scope.

(** ** C++ integers *)

(** [INT_MAX] of <climits>, for the 32-bit [int] of the supported platforms. *)
Definition INT_MAX : Z := 2147483647.

(** The conversion [(int) idx] of a [size_t]: the value modulo 2^32, read as a
    two's-complement number. *)
Definition int_of_size_t (idx : N) : Z :=
  let r := Z.of_N idx mod 4294967296 in
  if r <=? INT_MAX then r else r - 4294967296.

(** ** wxString *)

(** A [wxUniChar] is a Unicode code point; a [wxString] a sequence of them. *)
Definition wxUniChar : Type := N.
Definition wxString : Type := list wxUniChar.

(** The [wxT( ... )] literals of the sources. *)
Definition wxT (s : string) : wxString :=
  map N_of_ascii (list_ascii_of_string s).
Arguments wxT s%_string.

(** [wxNOT_FOUND] of wx/defs.h. *)
Definition wxNOT_FOUND : Z := -1.

(** [starts_with s sub]: [sub] is a prefix of [s]. *)
Fixpoint starts_with (s sub : wxString) {struct sub} : bool :=
  match sub with
  | [] => true
  | c :: sub' =>
      match s with
      | [] => false
      | d :: s' => (c =? d)%N && starts_with s' sub'
      end
  end.

(** [std::basic_string::find( sub )]: the offset of the first occurrence of
    [sub]; [None] stands for [npos]. *)
Fixpoint find (s sub : wxString) : option N :=
  if starts_with s sub then Some 0%N
  else match s with
       | [] => None
       | _ :: s' => option_map N.succ (find s' sub)
       end.

(** [std::basic_string::find( ch )]. *)
Fixpoint find_ch (s : wxString) (ch : wxUniChar) : option N :=
  match s with
  | [] => None
  | c :: s' => if (c =? ch)%N then Some 0%N else option_map N.succ (find_ch s' ch)
  end.

(** [int wxString::Find( const wxString& sub ) const]: wxWidgets returns
    [(idx == npos) ? wxNOT_FOUND : (int) idx] for [idx = find( sub )]. *)
Definition wxString_Find (s sub : wxString) : Z :=
  match find s sub with
  | None => wxNOT_FOUND
  | Some idx => int_of_size_t idx
  end.

(** [int wxString::Find( wxUniChar ch ) const], in the same way. *)
Definition wxString_Find_ch (s : wxString) (ch : wxUniChar) : Z :=
  match find_ch s ch with
  | None => wxNOT_FOUND
  | Some idx => int_of_size_t idx
  end.

(** [occurs_at sub s n]: [sub] occurs in [s] at offset [n]. *)
Definition occurs_at (sub s : wxString) (n : nat) : Prop :=
  exists pre post, s = pre ++ sub ++ post /\ length pre = n.

(** [contains s sub]: [s] literally contains [sub]. *)
Definition contains (s sub : wxString) : Prop :=
  exists pre post, s = pre ++ sub ++ post.

(** ** wxLog *)

Definition wxLogLevel : Type := Z.
Definition wxLOG_FatalError : wxLogLevel := 0.
Definition wxLOG_Error : wxLogLevel := 1.
Definition wxLOG_Max : wxLogLevel := 10000.

(** The process-wide log: the current level and the records emitted so far
    (newest last).  A record is kept when its level is at most the current
    level. *)
Record wxLog : Type := mkLog {
  ms_logLevel : wxLogLevel;
  records : list (wxLogLevel * wxString)
}.

(** Code that reads or writes the log. *)
Definition LogM (A : Type) : Type := wxLog -> A * wxLog.

Definition ret {A : Type} (a : A) : LogM A := fun w => (a, w).

Definition bind {A B : Type} (c : LogM A) (k : A -> LogM B) : LogM B :=
  fun w => let (a, w') := c w in k a w'.

Declare Scope log_scope.
Delimit Scope log_scope with log.
Notation "x <- c ;; k" := (bind c (fun x => k))
  (at level 61, c at next level, right associativity) : log_scope.
Notation "c ;;; k" := (bind c (fun _ => k))
  (at level 61, right associativity) : log_scope.

Definition wxLog_GetLogLevel : LogM wxLogLevel :=
  fun w => (ms_logLevel w, w).

Definition wxLog_SetLogLevel (level : wxLogLevel) : LogM unit :=
  fun w => (tt, {| ms_logLevel := level; records := records w |}).

Definition wxLogError (msg : wxString) : LogM unit :=
  fun w =>
    if wxLOG_Error <=? ms_logLevel w
    then (tt, {| ms_logLevel := ms_logLevel w;
                 records := records w ++ [(wxLOG_Error, msg)] |})
    else (tt, w).

(** ** wxRegEx *)

(** The regular-expression engine behind [wxRegEx]: [regcomp] compiles an
    expression under the given flags, or fails; [regexec] runs a compiled
    expression on a text and yields the span (start, length) of the whole
    match, both [size_t]. *)
Class wxRegExEngine : Type := {
  regex_t : Type;
  regcomp : wxString -> Z -> option regex_t;
  regexec : regex_t -> wxString -> option (N * N)
}.

(** [wxRE_ADVANCED] of wx/regex.h. *)
Definition wxRE_ADVANCED : Z := 1.

(** A [wxRegEx] object: the compiled expression, when there is one, and the
    span stored by the last successful [Matches]. *)
Record wxRegEx `{wxRegExEngine} : Type := mkRegEx {
  m_impl : option regex_t;
  m_Matches : option (N * N)
}.

Definition wxRegEx_new `{wxRegExEngine} : wxRegEx :=
  {| m_impl := None; m_Matches := None |}.

Definition wxRegEx_IsValid `{wxRegExEngine} (rx : wxRegEx) : bool :=
  match m_impl rx with Some _ => true | None => false end.

(** [wxRegEx::Compile]: drops what was compiled before; on an error it
    reports through [wxLogError] and leaves the object invalid. *)
Definition wxRegEx_Compile `{wxRegExEngine} (rx : wxRegEx) (expr : wxString) (flags : Z)
  : LogM (bool * wxRegEx) :=
  match regcomp expr flags with
  | Some re => ret (true, {| m_impl := Some re; m_Matches := None |})
  | None => (wxLogError expr ;;; ret (false, wxRegEx_new))%log
  end.

(** [wxRegEx::Matches]: [const] in C++, yet it stores the spans of a
    successful match inside the object for [GetMatch] to read.  The engine
    answers with a match or with none; a failure of the engine itself, which
    wxWidgets reports through [wxLogError], is outside this model, so
    [Matches] and the [Find]s built on it say nothing of the log. *)
Definition wxRegEx_Matches `{wxRegExEngine} (rx : wxRegEx) (text : wxString)
  : bool * wxRegEx :=
  match m_impl rx with
  | None => (false, rx)
  | Some re =>
      match regexec re text with
      | Some span => (true, {| m_impl := m_impl rx; m_Matches := Some span |})
      | None => (false, rx)
      end
  end.

(** [wxRegEx::GetMatch( &start, &len, 0 )]: the stored span of the whole
    match; nothing is written when there is none. *)
Definition wxRegEx_GetMatch `{wxRegExEngine} (rx : wxRegEx) : option (N * N) :=
  match m_impl rx with
  | None => None
  | Some _ => m_Matches rx
  end.

(** ** The pattern matchers *)

(** Modelled from the spec: the not-found sentinel.  The header that
    declares it, eda_pattern_match.h, is not among the sources; it gives it
    the value of [wxNOT_FOUND]. *)
Definition EDA_PATTERN_NOT_FOUND : Z := wxNOT_FOUND.

(** *** EDA_PATTERN_MATCH_SUBSTR *)
Module EDA_PATTERN_MATCH_SUBSTR.

Record t : Type := mk { m_pattern : wxString }.

(** The object a default construction gives. *)
Definition new : t := {| m_pattern := [] |}.

Definition SetPattern (aPattern : wxString) (self : t) : LogM (bool * t) :=
  ret (true, {| m_pattern := aPattern |}).

Definition GetPattern (self : t) : wxString := m_pattern self.

Definition Find (self : t) (aCandidate : wxString) : Z :=
  let loc := wxString_Find aCandidate (m_pattern self) in
  if loc =? wxNOT_FOUND then EDA_PATTERN_NOT_FOUND else loc.

End EDA_PATTERN_MATCH_SUBSTR.

(** *** WX_LOGLEVEL_CONTEXT *)
Module WX_LOGLEVEL_CONTEXT.

Record t : Type := mk { m_old_level : wxLogLevel }.

(** The constructor: remember the current level, then set [level]. *)
Definition enter (level : wxLogLevel) : LogM t :=
  (old <- wxLog_GetLogLevel ;;
   wxLog_SetLogLevel level ;;;
   ret {| m_old_level := old |})%log.

(** The destructor: put the remembered level back. *)
Definition leave (ctx : t) : LogM unit :=
  wxLog_SetLogLevel (m_old_level ctx).

End WX_LOGLEVEL_CONTEXT.

(** *** EDA_PATTERN_MATCH_REGEX *)
Module EDA_PATTERN_MATCH_REGEX.
Section Engine.
Context `{wxRegExEngine}.

Record t : Type := mk { m_pattern : wxString; m_regex : wxRegEx }.

Definition new : t := {| m_pattern := []; m_regex := wxRegEx_new |}.

Definition SetPattern (aPattern : wxString) (self : t) : LogM (bool * t) :=
  (ctx <- WX_LOGLEVEL_CONTEXT.enter wxLOG_FatalError ;;
   r <- wxRegEx_Compile (m_regex self) aPattern wxRE_ADVANCED ;;
   WX_LOGLEVEL_CONTEXT.leave ctx ;;;
   ret (fst r, {| m_pattern := aPattern; m_regex := snd r |}))%log.

Definition GetPattern (self : t) : wxString := m_pattern self.

(** [( start > INT_MAX ) ? INT_MAX : start]: the comparison and the result
    are [size_t]; returning it converts to [int]. *)
Definition clamp_start (start : N) : Z :=
  int_of_size_t (if (Z.to_N INT_MAX <? start)%N then Z.to_N INT_MAX else start).

(** [Find] is [const]; the object it returns differs from [self] at most in
    the span [wxRegEx::Matches] stored.  [start] is not initialised in the
    source: when [GetMatch] writes nothing, 0 stands for its value (the
    case does not arise, [Matches] having just succeeded). *)
Definition Find (self : t) (aCandidate : wxString) : Z * t :=
  if wxRegEx_IsValid (m_regex self) then
    let (matched, rx) := wxRegEx_Matches (m_regex self) aCandidate in
    let self' := {| m_pattern := m_pattern self; m_regex := rx |} in
    if matched then
      let start := match wxRegEx_GetMatch rx with
                   | Some (start, _) => start
                   | None => 0%N
                   end in
      (clamp_start start, self')
    else (EDA_PATTERN_NOT_FOUND, self')
  else
    let loc := wxString_Find aCandidate (m_pattern self) in
    (if loc =? wxNOT_FOUND then EDA_PATTERN_NOT_FOUND else loc, self).

End Engine.
End EDA_PATTERN_MATCH_REGEX.

(** *** EDA_PATTERN_MATCH_WILDCARD *)
Module EDA_PATTERN_MATCH_WILDCARD.
Section Engine.
Context `{wxRegExEngine}.

(** The class derives from [EDA_PATTERN_MATCH_REGEX]: [base] is the
    inherited part. *)
Record t : Type := mk {
  base : EDA_PATTERN_MATCH_REGEX.t;
  m_wildcard_pattern : wxString
}.

Definition new : t :=
  {| base := EDA_PATTERN_MATCH_REGEX.new; m_wildcard_pattern := [] |}.

Definition to_replace : wxString := wxT ".*+?^${}()|[]/\".

(** One turn of the loop over [aPattern]: what it appends to [regex] for the
    character [c]. *)
Definition translate_step (regex : wxString) (c : wxUniChar) : wxString :=
  if (c =? 63)%N                                         (* '?' *)
  then regex ++ wxT "."
  else if (c =? 42)%N                                    (* '*' *)
  then regex ++ wxT ".*"
  else if negb (wxString_Find_ch to_replace c =? wxNOT_FOUND)
  then (regex ++ wxT "\") ++ [c]
  else regex ++ [c].

(** The loop, from an empty [regex]. *)
Definition translate (aPattern : wxString) : wxString :=
  fold_left translate_step aPattern [].

Definition SetPattern (aPattern : wxString) (self : t) : LogM (bool * t) :=
  (let regex := translate aPattern in
   r <- EDA_PATTERN_MATCH_REGEX.SetPattern regex (base self) ;;
   ret (fst r, {| base := snd r; m_wildcard_pattern := aPattern |}))%log.

Definition GetPattern (self : t) : wxString := m_wildcard_pattern self.

Definition Find (self : t) (aCandidate : wxString) : Z * t :=
  let (r, b) := EDA_PATTERN_MATCH_REGEX.Find (base self) aCandidate in
  (r, {| base := b; m_wildcard_pattern := m_wildcard_pattern self |}).

End Engine.
End EDA_PATTERN_MATCH_WILDCARD.

(** *** EDA_PATTERN_MATCH: the interface and its three implementations *)
Module EDA_PATTERN_MATCH.
Section Engine.
Context `{wxRegExEngine}.

Inductive t : Type :=
| Substr (o : EDA_PATTERN_MATCH_SUBSTR.t)
| Regex (o : EDA_PATTERN_MATCH_REGEX.t)
| Wildcard (o : EDA_PATTERN_MATCH_WILDCARD.t).

(** The three virtual functions, dispatched on the dynamic type. *)
Definition SetPattern (aPattern : wxString) (self : t) : LogM (bool * t) :=
  match self with
  | Substr o =>
      (r <- EDA_PATTERN_MATCH_SUBSTR.SetPattern aPattern o ;; ret (fst r, Substr (snd r)))%log
  | Regex o =>
      (r <- EDA_PATTERN_MATCH_REGEX.SetPattern aPattern o ;; ret (fst r, Regex (snd r)))%log
  | Wildcard o =>
      (r <- EDA_PATTERN_MATCH_WILDCARD.SetPattern aPattern o ;; ret (fst r, Wildcard (snd r)))%log
  end.

Definition GetPattern (self : t) : wxString :=
  match self with
  | Substr o => EDA_PATTERN_MATCH_SUBSTR.GetPattern o
  | Regex o => EDA_PATTERN_MATCH_REGEX.GetPattern o
  | Wildcard o => EDA_PATTERN_MATCH_WILDCARD.GetPattern o
  end.

Definition Find (self : t) (aCandidate : wxString) : Z * t :=
  match self with
  | Substr o => (EDA_PATTERN_MATCH_SUBSTR.Find o aCandidate, self)
  | Regex o =>
      let (r, o') := EDA_PATTERN_MATCH_REGEX.Find o aCandidate in (r, Regex o')
  | Wildcard o =>
      let (r, o') := EDA_PATTERN_MATCH_WILDCARD.Find o aCandidate in (r, Wildcard o')
  end.

End Engine.
End EDA_PATTERN_MATCH.

(** *** EDA_COMBINED_MATCHER *)
Module EDA_COMBINED_MATCHER.
Section Engine.
Context `{wxRegExEngine}.

Record t : Type := mk {
  m_pattern : wxString;
  m_matchers : list EDA_PATTERN_MATCH.t
}.

(** What [Find] hands back: its return value and its two output
    parameters. *)
Record found : Type := mkFound {
  returned : bool;
  aMatchersTriggered : Z;
  aPosition : Z
}.

(** [AddMatcher] returns [void]: all it can do is extend [m_matchers]. *)
Definition AddMatcher (aPattern : wxString) (aMatcher : EDA_PATTERN_MATCH.t) (self : t)
  : LogM t :=
  (r <- EDA_PATTERN_MATCH.SetPattern aPattern aMatcher ;;
   ret (if fst r
        then {| m_pattern := m_pattern self; m_matchers := m_matchers self ++ [snd r] |}
        else self))%log.

(** The three matcher objects the constructor makes, in its order. *)
Definition variants : list EDA_PATTERN_MATCH.t :=
  [ EDA_PATTERN_MATCH.Regex EDA_PATTERN_MATCH_REGEX.new;
    EDA_PATTERN_MATCH.Wildcard EDA_PATTERN_MATCH_WILDCARD.new;
    EDA_PATTERN_MATCH.Substr EDA_PATTERN_MATCH_SUBSTR.new ].

(** The constructor. *)
Definition new (aPattern : wxString) : LogM t :=
  (self <- ret {| m_pattern := aPattern; m_matchers := [] |} ;;
   self <- AddMatcher aPattern (EDA_PATTERN_MATCH.Regex EDA_PATTERN_MATCH_REGEX.new) self ;;
   self <- AddMatcher aPattern (EDA_PATTERN_MATCH.Wildcard EDA_PATTERN_MATCH_WILDCARD.new) self ;;
   AddMatcher aPattern (EDA_PATTERN_MATCH.Substr EDA_PATTERN_MATCH_SUBSTR.new) self)%log.

(** The body of the [for] loop of [Find], for one matcher. *)
Definition Find_step (local_find : Z) (acc : Z * Z) : Z * Z :=
  let (aMatchersTriggered, aPosition) := acc in
  if negb (local_find =? EDA_PATTERN_NOT_FOUND)
  then (aMatchersTriggered + 1,
        if (local_find <? aPosition) || (aPosition =? EDA_PATTERN_NOT_FOUND)
        then local_find
        else aPosition)
  else (aMatchersTriggered, aPosition).

(** The loop over [m_matchers]; the matchers come back in the same order,
    each as its own [Find] left it. *)
Fixpoint Find_loop (aTerm : wxString) (matchers : list EDA_PATTERN_MATCH.t) (acc : Z * Z)
  : Z * Z * list EDA_PATTERN_MATCH.t :=
  match matchers with
  | [] => (acc, [])
  | matcher :: rest =>
      let (local_find, matcher') := EDA_PATTERN_MATCH.Find matcher aTerm in
      let (acc', rest') := Find_loop aTerm rest (Find_step local_find acc) in
      (acc', matcher' :: rest')
  end.

Definition Find (self : t) (aTerm : wxString) : found * t :=
  let '(aMatchersTriggered, aPosition, matchers) :=
    Find_loop aTerm (m_matchers self) (0, EDA_PATTERN_NOT_FOUND) in
  ({| returned := negb (aPosition =? EDA_PATTERN_NOT_FOUND);
      aMatchersTriggered := aMatchersTriggered;
      aPosition := aPosition |},
   {| m_pattern := m_pattern self; m_matchers := matchers |}).

Definition GetPattern (self : t) : wxString := m_pattern self.

(** The operations a client can apply to a constructed matcher, and
    [AddMatcher], which only the constructor calls. *)
Inductive op : Type :=
| OpFind (aTerm : wxString)
| OpGetPattern
| OpAddMatcher (aPattern : wxString) (aMatcher : EDA_PATTERN_MATCH.t).

Definition run (o : op) (self : t) : LogM t :=
  match o with
  | OpFind aTerm => ret (snd (Find self aTerm))
  | OpGetPattern => ret self
  | OpAddMatcher aPattern aMatcher => AddMatcher aPattern aMatcher self
  end.

Fixpoint run_all (ops : list op) (self : t) : LogM t :=
  match ops with
  | [] => ret self
  | o :: ops' => (self' <- run o self ;; run_all ops' self')%log
  end.

End Engine.
End EDA_COMBINED_MATCHER.

(** ** PCB_ACTIONS *)

(** The class [TOOL_ACTION] is declared in tool/tool_action.h, which is not
    among the sources.  Of an action the model keeps what its declaration with
    [PCB_ACTIONS] fixes and an event made from it can carry: the name, the
    scope and the flags (hot key, menu texts and icon are left out). *)
Inductive TOOL_ACTION_SCOPE : Type := AS_CONTEXT | AS_ACTIVE | AS_GLOBAL.

Inductive TOOL_ACTION_FLAGS : Type := AF_NONE | AF_ACTIVATE | AF_NOTIFY.

Record TOOL_ACTION : Type := mkAction {
  m_name : string;
  m_scope : TOOL_ACTION_SCOPE;
  m_flags : TOOL_ACTION_FLAGS
}.

(** The legacy command identifiers [TranslateLegacyId] names in its [case]
    labels, in the order of the source.  Their numeric values come from id.h
    and pcbnew_id.h, which are not among the sources: they are a parameter
    of the translation below. *)
Inductive LEGACY_ID : Type :=
| ID_PCB_MODULE_BUTT
| ID_TRACK_BUTT
| ID_DIFF_PAIR_BUTT
| ID_TUNE_SINGLE_TRACK_LEN_BUTT
| ID_TUNE_DIFF_PAIR_LEN_BUTT
| ID_TUNE_DIFF_PAIR_SKEW_BUTT
| ID_MENU_INTERACTIVE_ROUTER_SETTINGS
| ID_MENU_DIFF_PAIR_DIMENSIONS
| ID_PCB_ZONES_BUTT
| ID_PCB_KEEPOUT_AREA_BUTT
| ID_PCB_ADD_LINE_BUTT
| ID_MODEDIT_LINE_TOOL
| ID_PCB_CIRCLE_BUTT
| ID_MODEDIT_CIRCLE_TOOL
| ID_PCB_ARC_BUTT
| ID_MODEDIT_ARC_TOOL
| ID_PCB_ADD_TEXT_BUTT
| ID_MODEDIT_TEXT_TOOL
| ID_PCB_DIMENSION_BUTT
| ID_PCB_MIRE_BUTT
| ID_MODEDIT_PAD_TOOL
| ID_GEN_IMPORT_DXF_FILE
| ID_MODEDIT_ANCHOR_TOOL
| ID_PCB_PLACE_GRID_COORD_BUTT
| ID_MODEDIT_PLACE_GRID_COORD
| ID_ZOOM_IN
| ID_ZOOM_OUT
| ID_ZOOM_PAGE
| ID_TB_OPTIONS_SHOW_TRACKS_SKETCH
| ID_TB_OPTIONS_SHOW_PADS_SKETCH
| ID_TB_OPTIONS_SHOW_VIAS_SKETCH
| ID_TB_OPTIONS_SHOW_ZONES
| ID_TB_OPTIONS_SHOW_ZONES_DISABLE
| ID_TB_OPTIONS_SHOW_ZONES_OUTLINES_ONLY
| ID_TB_OPTIONS_SHOW_MODULE_EDGE_SKETCH
| ID_TB_OPTIONS_SHOW_MODULE_TEXT_SKETCH
| ID_TB_OPTIONS_SHOW_HIGH_CONTRAST_MODE
| ID_FIND_ITEMS
| ID_POPUP_PCB_GET_AND_MOVE_MODULE_REQUEST
| ID_NO_TOOL_SELECTED
| ID_ZOOM_SELECTION
| ID_PCB_DELETE_ITEM_BUTT
| ID_MODEDIT_DELETE_TOOL
| ID_PCB_PLACE_OFFSET_COORD_BUTT
| ID_PCB_HIGHLIGHT_BUTT
| ID_APPEND_FILE
| ID_PCB_SHOW_1_RATSNEST_BUTT.

Module PCB_ACTIONS.

(** The static [TOOL_ACTION] members the translation refers to. *)
Definition placeModule : TOOL_ACTION :=
  {| m_name := "pcbnew.EditorControl.placeModule"; m_scope := AS_GLOBAL; m_flags := AF_ACTIVATE |}.

Definition routerActivateSingle : TOOL_ACTION :=
  {| m_name := "pcbnew.InteractiveRouter.SingleTrack"; m_scope := AS_GLOBAL; m_flags := AF_ACTIVATE |}.

Definition routerActivateDiffPair : TOOL_ACTION :=
  {| m_name := "pcbnew.InteractiveRouter.DiffPair"; m_scope := AS_GLOBAL; m_flags := AF_ACTIVATE |}.

Definition routerActivateTuneSingleTrace : TOOL_ACTION :=
  {| m_name := "pcbnew.LengthTuner.TuneSingleTrack"; m_scope := AS_GLOBAL; m_flags := AF_ACTIVATE |}.

Definition routerActivateTuneDiffPair : TOOL_ACTION :=
  {| m_name := "pcbnew.LengthTuner.TuneDiffPair"; m_scope := AS_GLOBAL; m_flags := AF_ACTIVATE |}.

Definition routerActivateTuneDiffPairSkew : TOOL_ACTION :=
  {| m_name := "pcbnew.LengthTuner.TuneDiffPairSkew"; m_scope := AS_GLOBAL; m_flags := AF_ACTIVATE |}.

Definition routerActivateSettingsDialog : TOOL_ACTION :=
  {| m_name := "pcbnew.InteractiveRouter.SettingsDialog"; m_scope := AS_GLOBAL; m_flags := AF_ACTIVATE |}.

Definition routerActivateDpDimensionsDialog : TOOL_ACTION :=
  {| m_name := "pcbnew.InteractiveRouter.DpDimensionsDialog"; m_scope := AS_GLOBAL; m_flags := AF_ACTIVATE |}.

Definition drawZone : TOOL_ACTION :=
  {| m_name := "pcbnew.InteractiveDrawing.zone"; m_scope := AS_GLOBAL; m_flags := AF_ACTIVATE |}.

Definition drawKeepout : TOOL_ACTION :=
  {| m_name := "pcbnew.InteractiveDrawing.keepout"; m_scope := AS_GLOBAL; m_flags := AF_ACTIVATE |}.

Definition drawLine : TOOL_ACTION :=
  {| m_name := "pcbnew.InteractiveDrawing.line"; m_scope := AS_GLOBAL; m_flags := AF_ACTIVATE |}.

Definition drawCircle : TOOL_ACTION :=
  {| m_name := "pcbnew.InteractiveDrawing.circle"; m_scope := AS_GLOBAL; m_flags := AF_ACTIVATE |}.

Definition drawArc : TOOL_ACTION :=
  {| m_name := "pcbnew.InteractiveDrawing.arc"; m_scope := AS_GLOBAL; m_flags := AF_ACTIVATE |}.

Definition placeText : TOOL_ACTION :=
  {| m_name := "pcbnew.InteractiveDrawing.text"; m_scope := AS_GLOBAL; m_flags := AF_ACTIVATE |}.

Definition drawDimension : TOOL_ACTION :=
  {| m_name := "pcbnew.InteractiveDrawing.dimension"; m_scope := AS_GLOBAL; m_flags := AF_ACTIVATE |}.

Definition placeTarget : TOOL_ACTION :=
  {| m_name := "pcbnew.EditorControl.placeTarget"; m_scope := AS_GLOBAL; m_flags := AF_ACTIVATE |}.

Definition placePad : TOOL_ACTION :=
  {| m_name := "pcbnew.ModuleEditor.placePad"; m_scope := AS_GLOBAL; m_flags := AF_ACTIVATE |}.

Definition placeDXF : TOOL_ACTION :=
  {| m_name := "pcbnew.InteractiveDrawing.placeDXF"; m_scope := AS_GLOBAL; m_flags := AF_ACTIVATE |}.

Definition setAnchor : TOOL_ACTION :=
  {| m_name := "pcbnew.InteractiveDrawing.setAnchor"; m_scope := AS_GLOBAL; m_flags := AF_ACTIVATE |}.

Definition gridSetOrigin : TOOL_ACTION :=
  {| m_name := "common.Control.gridSetOrigin"; m_scope := AS_GLOBAL; m_flags := AF_NONE |}.

Definition zoomInCenter : TOOL_ACTION :=
  {| m_name := "common.Control.zoomInCenter"; m_scope := AS_GLOBAL; m_flags := AF_NONE |}.

Definition zoomOutCenter : TOOL_ACTION :=
  {| m_name := "common.Control.zoomOutCenter"; m_scope := AS_GLOBAL; m_flags := AF_NONE |}.

Definition zoomFitScreen : TOOL_ACTION :=
  {| m_name := "common.Control.zoomFitScreen"; m_scope := AS_GLOBAL; m_flags := AF_NONE |}.

Definition trackDisplayMode : TOOL_ACTION :=
  {| m_name := "pcbnew.Control.trackDisplayMode"; m_scope := AS_GLOBAL; m_flags := AF_NONE |}.

Definition padDisplayMode : TOOL_ACTION :=
  {| m_name := "pcbnew.Control.padDisplayMode"; m_scope := AS_GLOBAL; m_flags := AF_NONE |}.

Definition viaDisplayMode : TOOL_ACTION :=
  {| m_name := "pcbnew.Control.viaDisplayMode"; m_scope := AS_GLOBAL; m_flags := AF_NONE |}.

Definition zoneDisplayEnable : TOOL_ACTION :=
  {| m_name := "pcbnew.Control.zoneDisplayEnable"; m_scope := AS_GLOBAL; m_flags := AF_NONE |}.

Definition zoneDisplayDisable : TOOL_ACTION :=
  {| m_name := "pcbnew.Control.zoneDisplayDisable"; m_scope := AS_GLOBAL; m_flags := AF_NONE |}.

Definition zoneDisplayOutlines : TOOL_ACTION :=
  {| m_name := "pcbnew.Control.zoneDisplayOutlines"; m_scope := AS_GLOBAL; m_flags := AF_NONE |}.

Definition moduleEdgeOutlines : TOOL_ACTION :=
  {| m_name := "pcbnew.ModuleEditor.graphicOutlines"; m_scope := AS_GLOBAL; m_flags := AF_NONE |}.

Definition moduleTextOutlines : TOOL_ACTION :=
  {| m_name := "pcbnew.ModuleEditor.textOutlines"; m_scope := AS_GLOBAL; m_flags := AF_NONE |}.

Definition highContrastMode : TOOL_ACTION :=
  {| m_name := "pcbnew.Control.highContrastMode"; m_scope := AS_GLOBAL; m_flags := AF_NONE |}.

Definition find : TOOL_ACTION :=
  {| m_name := "pcbnew.InteractiveSelection.Find"; m_scope := AS_GLOBAL; m_flags := AF_NONE |}.

Definition findMove : TOOL_ACTION :=
  {| m_name := "pcbnew.InteractiveSelection.FindMove"; m_scope := AS_GLOBAL; m_flags := AF_NONE |}.

Definition selectionTool : TOOL_ACTION :=
  {| m_name := "pcbnew.Control.selectionTool"; m_scope := AS_GLOBAL; m_flags := AF_ACTIVATE |}.

Definition zoomTool : TOOL_ACTION :=
  {| m_name := "pcbnew.Control.zoomTool"; m_scope := AS_GLOBAL; m_flags := AF_ACTIVATE |}.

Definition deleteItemCursor : TOOL_ACTION :=
  {| m_name := "pcbnew.Control.deleteItemCursor"; m_scope := AS_GLOBAL; m_flags := AF_NONE |}.

Definition drillOrigin : TOOL_ACTION :=
  {| m_name := "pcbnew.EditorControl.drillOrigin"; m_scope := AS_GLOBAL; m_flags := AF_NONE |}.

Definition highlightNetCursor : TOOL_ACTION :=
  {| m_name := "pcbnew.EditorControl.highlightNetCursor"; m_scope := AS_GLOBAL; m_flags := AF_NONE |}.

Definition appendBoard : TOOL_ACTION :=
  {| m_name := "pcbnew.EditorControl.appendBoard"; m_scope := AS_GLOBAL; m_flags := AF_NONE |}.

Definition toBeDone : TOOL_ACTION :=
  {| m_name := "pcbnew.Control.toBeDone"; m_scope := AS_GLOBAL; m_flags := AF_NONE |}.

(** The [switch] of [TranslateLegacyId]: each group of [case] labels with
    the action whose event the group returns, in the order of the source. *)
Definition cases : list (list LEGACY_ID * TOOL_ACTION) :=
  [
    ([ID_PCB_MODULE_BUTT], placeModule);
    ([ID_TRACK_BUTT], routerActivateSingle);
    ([ID_DIFF_PAIR_BUTT], routerActivateDiffPair);
    ([ID_TUNE_SINGLE_TRACK_LEN_BUTT], routerActivateTuneSingleTrace);
    ([ID_TUNE_DIFF_PAIR_LEN_BUTT], routerActivateTuneDiffPair);
    ([ID_TUNE_DIFF_PAIR_SKEW_BUTT], routerActivateTuneDiffPairSkew);
    ([ID_MENU_INTERACTIVE_ROUTER_SETTINGS], routerActivateSettingsDialog);
    ([ID_MENU_DIFF_PAIR_DIMENSIONS], routerActivateDpDimensionsDialog);
    ([ID_PCB_ZONES_BUTT], drawZone);
    ([ID_PCB_KEEPOUT_AREA_BUTT], drawKeepout);
    ([ID_PCB_ADD_LINE_BUTT; ID_MODEDIT_LINE_TOOL], drawLine);
    ([ID_PCB_CIRCLE_BUTT; ID_MODEDIT_CIRCLE_TOOL], drawCircle);
    ([ID_PCB_ARC_BUTT; ID_MODEDIT_ARC_TOOL], drawArc);
    ([ID_PCB_ADD_TEXT_BUTT; ID_MODEDIT_TEXT_TOOL], placeText);
    ([ID_PCB_DIMENSION_BUTT], drawDimension);
    ([ID_PCB_MIRE_BUTT], placeTarget);
    ([ID_MODEDIT_PAD_TOOL], placePad);
    ([ID_GEN_IMPORT_DXF_FILE], placeDXF);
    ([ID_MODEDIT_ANCHOR_TOOL], setAnchor);
    ([ID_PCB_PLACE_GRID_COORD_BUTT; ID_MODEDIT_PLACE_GRID_COORD], gridSetOrigin);
    ([ID_ZOOM_IN], zoomInCenter);
    ([ID_ZOOM_OUT], zoomOutCenter);
    ([ID_ZOOM_PAGE], zoomFitScreen);
    ([ID_TB_OPTIONS_SHOW_TRACKS_SKETCH], trackDisplayMode);
    ([ID_TB_OPTIONS_SHOW_PADS_SKETCH], padDisplayMode);
    ([ID_TB_OPTIONS_SHOW_VIAS_SKETCH], viaDisplayMode);
    ([ID_TB_OPTIONS_SHOW_ZONES], zoneDisplayEnable);
    ([ID_TB_OPTIONS_SHOW_ZONES_DISABLE], zoneDisplayDisable);
    ([ID_TB_OPTIONS_SHOW_ZONES_OUTLINES_ONLY], zoneDisplayOutlines);
    ([ID_TB_OPTIONS_SHOW_MODULE_EDGE_SKETCH], moduleEdgeOutlines);
    ([ID_TB_OPTIONS_SHOW_MODULE_TEXT_SKETCH], moduleTextOutlines);
    ([ID_TB_OPTIONS_SHOW_HIGH_CONTRAST_MODE], highContrastMode);
    ([ID_FIND_ITEMS], find);
    ([ID_POPUP_PCB_GET_AND_MOVE_MODULE_REQUEST], findMove);
    ([ID_NO_TOOL_SELECTED], selectionTool);
    ([ID_ZOOM_SELECTION], zoomTool);
    ([ID_PCB_DELETE_ITEM_BUTT; ID_MODEDIT_DELETE_TOOL], deleteItemCursor);
    ([ID_PCB_PLACE_OFFSET_COORD_BUTT], drillOrigin);
    ([ID_PCB_HIGHLIGHT_BUTT], highlightNetCursor);
    ([ID_APPEND_FILE], appendBoard);
    ([ID_PCB_SHOW_1_RATSNEST_BUTT], toBeDone)
  ].

Section Translate.

(** [TOOL_EVENT] and [TOOL_ACTION::MakeEvent] belong to the tool framework;
    [id] gives each legacy identifier its numeric value. *)
Variable TOOL_EVENT : Type.
Variable MakeEvent : TOOL_ACTION -> TOOL_EVENT.
Variable id : LEGACY_ID -> Z.

(** A [switch] whose groups all [return]: the first group with a label equal
    to [aId] decides; without one, control leaves the [switch]. *)
Fixpoint switch (aId : Z) (cs : list (list LEGACY_ID * TOOL_ACTION)) : option TOOL_ACTION :=
  match cs with
  | [] => None
  | (labels, action) :: cs' =>
      if existsb (fun l => aId =? id l) labels then Some action else switch aId cs'
  end.

(** [boost::optional<TOOL_EVENT> PCB_ACTIONS::TranslateLegacyId( int aId )];
    [None] is the empty optional returned after the [switch]. *)
Definition TranslateLegacyId (aId : Z) : option TOOL_EVENT :=
  match switch aId cases with
  | Some action => Some (MakeEvent action)
  | None => None
  end.

End Translate.

End PCB_ACTIONS.

(** ** A small engine, to run the model on concrete inputs

    It understands literal characters, [.], an escaped non-alphanumeric
    character and a [*] after any of these, and refuses every other use of a
    special character.  Matching is leftmost, each [*] taking as much as it
    can. *)
Module TinyRegex.

Inductive atom : Type := Lit (c : wxUniChar) | Any.

Inductive token : Type := Atom (a : atom) | Star | Bad.

Definition is_alnum (c : wxUniChar) : bool :=
  ((48 <=? c) && (c <=? 57) || (65 <=? c) && (c <=? 90) || (97 <=? c) && (c <=? 122))%N.

Definition special : wxString := wxT "+?^${}()|[]".

Fixpoint tokens (p : wxString) : list token :=
  match p with
  | [] => []
  | c :: p' =>
      if (c =? 92)%N then
        match p' with
        | [] => [Bad]
        | d :: p'' => (if is_alnum d then Bad else Atom (Lit d)) :: tokens p''
        end
      else if (c =? 46)%N then Atom Any :: tokens p'
      else if (c =? 42)%N then Star :: tokens p'
      else if existsb (N.eqb c) special then Bad :: tokens p'
      else Atom (Lit c) :: tokens p'
  end.

Fixpoint items (ts : list token) : option (list (atom * bool)) :=
  match ts with
  | [] => Some []
  | Atom a :: ts' =>
      match ts' with
      | Star :: ts'' => option_map (cons (a, true)) (items ts'')
      | _ => option_map (cons (a, false)) (items ts')
      end
  | _ => None
  end.

Definition accepts (a : atom) (c : wxUniChar) : bool :=
  match a with
  | Lit d => (c =? d)%N
  | Any => true
  end.

(** The length of the match of [its] at the head of [s], if there is one. *)
Fixpoint match_here (its : list (atom * bool)) (s : wxString) : option N :=
  match its with
  | [] => Some 0%N
  | (a, false) :: its' =>
      match s with
      | c :: s' => if accepts a c then option_map N.succ (match_here its' s') else None
      | [] => None
      end
  | (a, true) :: its' =>
      (fix more (s : wxString) : option N :=
         match s with
         | c :: s' =>
             if accepts a c
             then match more s' with
                  | Some n => Some (N.succ n)
                  | None => match_here its' s
                  end
             else match_here its' s
         | [] => match_here its' s
         end) s
  end.

Fixpoint search (its : list (atom * bool)) (s : wxString) : option (N * N) :=
  match match_here its s with
  | Some len => Some (0%N, len)
  | None =>
      match s with
      | [] => None
      | _ :: s' => option_map (fun span => (N.succ (fst span), snd span)) (search its s')
      end
  end.

#[export] Instance engine : wxRegExEngine := {|
  regex_t := list (atom * bool);
  regcomp := fun expr _ => items (tokens expr);
  regexec := search
|}.

End TinyRegex.

(** A numbering of the legacy identifiers, to run [TranslateLegacyId]: the
    place of the label in the source, from 1000 on. *)
Definition sample_id (l : LEGACY_ID) : Z :=
  match l with
  | ID_PCB_MODULE_BUTT => 1000 | ID_TRACK_BUTT => 1001 | ID_DIFF_PAIR_BUTT => 1002
  | ID_TUNE_SINGLE_TRACK_LEN_BUTT => 1003 | ID_TUNE_DIFF_PAIR_LEN_BUTT => 1004
  | ID_TUNE_DIFF_PAIR_SKEW_BUTT => 1005 | ID_MENU_INTERACTIVE_ROUTER_SETTINGS => 1006
  | ID_MENU_DIFF_PAIR_DIMENSIONS => 1007 | ID_PCB_ZONES_BUTT => 1008
  | ID_PCB_KEEPOUT_AREA_BUTT => 1009 | ID_PCB_ADD_LINE_BUTT => 1010
  | ID_MODEDIT_LINE_TOOL => 1011 | ID_PCB_CIRCLE_BUTT => 1012
  | ID_MODEDIT_CIRCLE_TOOL => 1013 | ID_PCB_ARC_BUTT => 1014 | ID_MODEDIT_ARC_TOOL => 1015
  | ID_PCB_ADD_TEXT_BUTT => 1016 | ID_MODEDIT_TEXT_TOOL => 1017
  | ID_PCB_DIMENSION_BUTT => 1018 | ID_PCB_MIRE_BUTT => 1019 | ID_MODEDIT_PAD_TOOL => 1020
  | ID_GEN_IMPORT_DXF_FILE => 1021 | ID_MODEDIT_ANCHOR_TOOL => 1022
  | ID_PCB_PLACE_GRID_COORD_BUTT => 1023 | ID_MODEDIT_PLACE_GRID_COORD => 1024
  | ID_ZOOM_IN => 1025 | ID_ZOOM_OUT => 1026 | ID_ZOOM_PAGE => 1027
  | ID_TB_OPTIONS_SHOW_TRACKS_SKETCH => 1028 | ID_TB_OPTIONS_SHOW_PADS_SKETCH => 1029
  | ID_TB_OPTIONS_SHOW_VIAS_SKETCH => 1030 | ID_TB_OPTIONS_SHOW_ZONES => 1031
  | ID_TB_OPTIONS_SHOW_ZONES_DISABLE => 1032
  | ID_TB_OPTIONS_SHOW_ZONES_OUTLINES_ONLY => 1033
  | ID_TB_OPTIONS_SHOW_MODULE_EDGE_SKETCH => 1034
  | ID_TB_OPTIONS_SHOW_MODULE_TEXT_SKETCH => 1035
  | ID_TB_OPTIONS_SHOW_HIGH_CONTRAST_MODE => 1036 | ID_FIND_ITEMS => 1037
  | ID_POPUP_PCB_GET_AND_MOVE_MODULE_REQUEST => 1038 | ID_NO_TOOL_SELECTED => 1039
  | ID_ZOOM_SELECTION => 1040 | ID_PCB_DELETE_ITEM_BUTT => 1041
  | ID_MODEDIT_DELETE_TOOL => 1042 | ID_PCB_PLACE_OFFSET_COORD_BUTT => 1043
  | ID_PCB_HIGHLIGHT_BUTT => 1044 | ID_APPEND_FILE => 1045
  | ID_PCB_SHOW_1_RATSNEST_BUTT => 1046
  end.

(** The lookup table read off the [case] labels: the action each legacy
    identifier stands for. *)
Definition legacy_action (l : LEGACY_ID) : TOOL_ACTION :=
  match l with
  | ID_PCB_MODULE_BUTT => PCB_ACTIONS.placeModule
  | ID_TRACK_BUTT => PCB_ACTIONS.routerActivateSingle
  | ID_DIFF_PAIR_BUTT => PCB_ACTIONS.routerActivateDiffPair
  | ID_TUNE_SINGLE_TRACK_LEN_BUTT => PCB_ACTIONS.routerActivateTuneSingleTrace
  | ID_TUNE_DIFF_PAIR_LEN_BUTT => PCB_ACTIONS.routerActivateTuneDiffPair
  | ID_TUNE_DIFF_PAIR_SKEW_BUTT => PCB_ACTIONS.routerActivateTuneDiffPairSkew
  | ID_MENU_INTERACTIVE_ROUTER_SETTINGS => PCB_ACTIONS.routerActivateSettingsDialog
  | ID_MENU_DIFF_PAIR_DIMENSIONS => PCB_ACTIONS.routerActivateDpDimensionsDialog
  | ID_PCB_ZONES_BUTT => PCB_ACTIONS.drawZone
  | ID_PCB_KEEPOUT_AREA_BUTT => PCB_ACTIONS.drawKeepout
  | ID_PCB_ADD_LINE_BUTT => PCB_ACTIONS.drawLine
  | ID_MODEDIT_LINE_TOOL => PCB_ACTIONS.drawLine
  | ID_PCB_CIRCLE_BUTT => PCB_ACTIONS.drawCircle
  | ID_MODEDIT_CIRCLE_TOOL => PCB_ACTIONS.drawCircle
  | ID_PCB_ARC_BUTT => PCB_ACTIONS.drawArc
  | ID_MODEDIT_ARC_TOOL => PCB_ACTIONS.drawArc
  | ID_PCB_ADD_TEXT_BUTT => PCB_ACTIONS.placeText
  | ID_MODEDIT_TEXT_TOOL => PCB_ACTIONS.placeText
  | ID_PCB_DIMENSION_BUTT => PCB_ACTIONS.drawDimension
  | ID_PCB_MIRE_BUTT => PCB_ACTIONS.placeTarget
  | ID_MODEDIT_PAD_TOOL => PCB_ACTIONS.placePad
  | ID_GEN_IMPORT_DXF_FILE => PCB_ACTIONS.placeDXF
  | ID_MODEDIT_ANCHOR_TOOL => PCB_ACTIONS.setAnchor
  | ID_PCB_PLACE_GRID_COORD_BUTT => PCB_ACTIONS.gridSetOrigin
  | ID_MODEDIT_PLACE_GRID_COORD => PCB_ACTIONS.gridSetOrigin
  | ID_ZOOM_IN => PCB_ACTIONS.zoomInCenter
  | ID_ZOOM_OUT => PCB_ACTIONS.zoomOutCenter
  | ID_ZOOM_PAGE => PCB_ACTIONS.zoomFitScreen
  | ID_TB_OPTIONS_SHOW_TRACKS_SKETCH => PCB_ACTIONS.trackDisplayMode
  | ID_TB_OPTIONS_SHOW_PADS_SKETCH => PCB_ACTIONS.padDisplayMode
  | ID_TB_OPTIONS_SHOW_VIAS_SKETCH => PCB_ACTIONS.viaDisplayMode
  | ID_TB_OPTIONS_SHOW_ZONES => PCB_ACTIONS.zoneDisplayEnable
  | ID_TB_OPTIONS_SHOW_ZONES_DISABLE => PCB_ACTIONS.zoneDisplayDisable
  | ID_TB_OPTIONS_SHOW_ZONES_OUTLINES_ONLY => PCB_ACTIONS.zoneDisplayOutlines
  | ID_TB_OPTIONS_SHOW_MODULE_EDGE_SKETCH => PCB_ACTIONS.moduleEdgeOutlines
  | ID_TB_OPTIONS_SHOW_MODULE_TEXT_SKETCH => PCB_ACTIONS.moduleTextOutlines
  | ID_TB_OPTIONS_SHOW_HIGH_CONTRAST_MODE => PCB_ACTIONS.highContrastMode
  | ID_FIND_ITEMS => PCB_ACTIONS.find
  | ID_POPUP_PCB_GET_AND_MOVE_MODULE_REQUEST => PCB_ACTIONS.findMove
  | ID_NO_TOOL_SELECTED => PCB_ACTIONS.selectionTool
  | ID_ZOOM_SELECTION => PCB_ACTIONS.zoomTool
  | ID_PCB_DELETE_ITEM_BUTT => PCB_ACTIONS.deleteItemCursor
  | ID_MODEDIT_DELETE_TOOL => PCB_ACTIONS.deleteItemCursor
  | ID_PCB_PLACE_OFFSET_COORD_BUTT => PCB_ACTIONS.drillOrigin
  | ID_PCB_HIGHLIGHT_BUTT => PCB_ACTIONS.highlightNetCursor
  | ID_APPEND_FILE => PCB_ACTIONS.appendBoard
  | ID_PCB_SHOW_1_RATSNEST_BUTT => PCB_ACTIONS.toBeDone
  end.

(** The log a program starts with: level [wxLOG_Max], nothing recorded. *)
Definition log0 : wxLog := {| ms_logLevel := wxLOG_Max; records := [] |}.

(** ** Notions the statements use *)

Section Notions.
Context `{wxRegExEngine}.

(** A matcher matched when its [Find] returned something else than
    [EDA_PATTERN_NOT_FOUND]. *)
Definition matched (local_find : Z) : bool :=
  negb (local_find =? EDA_PATTERN_NOT_FOUND).

(** What the [Find] of each of [matchers] returns on [aTerm], in order. *)
Definition local_finds (matchers : list EDA_PATTERN_MATCH.t) (aTerm : wxString) : list Z :=
  map (fun matcher => fst (EDA_PATTERN_MATCH.Find matcher aTerm)) matchers.

(** The positions reported by the matchers that matched. *)
Definition positions (matchers : list EDA_PATTERN_MATCH.t) (aTerm : wxString) : list Z :=
  filter matched (local_finds matchers aTerm).

(** The matchers whose [SetPattern( aPattern )] returns [true], among the
    three the constructor makes and in its order, each as [SetPattern]
    leaves it. *)
Definition registered (aPattern : wxString) (w : wxLog) : list EDA_PATTERN_MATCH.t :=
  flat_map
    (fun variant =>
       let r := fst (EDA_PATTERN_MATCH.SetPattern aPattern variant w) in
       if fst r then [snd r] else [])
    EDA_COMBINED_MATCHER.variants.

(** The object without the span the last [Matches] stored. *)
Definition forget_regex (o : EDA_PATTERN_MATCH_REGEX.t) : EDA_PATTERN_MATCH_REGEX.t :=
  {| EDA_PATTERN_MATCH_REGEX.m_pattern := EDA_PATTERN_MATCH_REGEX.m_pattern o;
     EDA_PATTERN_MATCH_REGEX.m_regex :=
       {| m_impl := m_impl (EDA_PATTERN_MATCH_REGEX.m_regex o); m_Matches := None |} |}.

Definition forget (matcher : EDA_PATTERN_MATCH.t) : EDA_PATTERN_MATCH.t :=
  match matcher with
  | EDA_PATTERN_MATCH.Substr o => EDA_PATTERN_MATCH.Substr o
  | EDA_PATTERN_MATCH.Regex o => EDA_PATTERN_MATCH.Regex (forget_regex o)
  | EDA_PATTERN_MATCH.Wildcard o =>
      EDA_PATTERN_MATCH.Wildcard
        {| EDA_PATTERN_MATCH_WILDCARD.base := forget_regex (EDA_PATTERN_MATCH_WILDCARD.base o);
           EDA_PATTERN_MATCH_WILDCARD.m_wildcard_pattern :=
             EDA_PATTERN_MATCH_WILDCARD.m_wildcard_pattern o |}
  end.

(** The matcher after a run of [Find] on each of [terms], in turn. *)
Definition after_finds (terms : list wxString) (self : EDA_COMBINED_MATCHER.t)
  : EDA_COMBINED_MATCHER.t :=
  fold_left (fun s aTerm => snd (EDA_COMBINED_MATCHER.Find s aTerm)) terms self.

End Notions.

(** The wildcard translation as a rule per character: [?] gives [.], [*]
    gives [.*], a character of [escaped] comes with a backslash before it,
    any other character stays as it is. *)
Definition escaped : list wxUniChar :=
  [46; 42; 43; 63; 94; 36; 123; 125; 40; 41; 124; 91; 93; 47; 92]%N.

Definition wildcard_rule (c : wxUniChar) : wxString :=
  if (c =? 63)%N then [46%N]
  else if (c =? 42)%N then [46%N; 42%N]
  else if existsb (N.eqb c) escaped then [92%N; c]
  else [c].

(** [is_position r]: a value an [int] position can take. *)
Definition is_position (r : Z) : Prop := 0 <= r <= INT_MAX.

(** ** Further notions *)

(** A pattern without any of the characters the wildcard translation
    treats specially. *)
Definition plain (aPattern : wxString) : bool :=
  forallb (fun c => negb (existsb (N.eqb c) escaped)) aPattern.

(** Reading a translated wildcard back: a backslash gives the character
    after it, [.*] gives [*], a [.] alone gives [?]. *)
Fixpoint untranslate (regex : wxString) : wxString :=
  match regex with
  | [] => []
  | c :: rest =>
      if (c =? 92)%N then
        match rest with
        | d :: rest' => d :: untranslate rest'
        | [] => []
        end
      else if (c =? 46)%N then
        match rest with
        | d :: rest' => if (d =? 42)%N then 42%N :: untranslate rest'
                        else 63%N :: untranslate rest
        | [] => [63%N]
        end
      else c :: untranslate rest
  end.

(** What an engine of advanced regular expressions gives the wildcard
    matcher: the translation of a wildcard that is not empty compiles, and
    the compiled expression matches somewhere in every text that contains
    the wildcard itself, [.] standing for any character, [.*] for any run of
    characters and an escaped character for itself. *)
Definition honours_wildcards `{wxRegExEngine} : Prop :=
  forall wildcard text : wxString,
    wildcard <> [] ->
    contains text wildcard ->
    exists re span,
      regcomp (EDA_PATTERN_MATCH_WILDCARD.translate wildcard) wxRE_ADVANCED = Some re /\
      regexec re text = Some span.

(** The dynamic type of a matcher object. *)
Inductive variant : Type := IsSubstr | IsRegex | IsWildcard.

Definition variant_of `{wxRegExEngine} (matcher : EDA_PATTERN_MATCH.t) : variant :=
  match matcher with
  | EDA_PATTERN_MATCH.Substr _ => IsSubstr
  | EDA_PATTERN_MATCH.Regex _ => IsRegex
  | EDA_PATTERN_MATCH.Wildcard _ => IsWildcard
  end.

(** A block that opens with [WX_LOGLEVEL_CONTEXT ctx( level );]: the
    constructor runs first, the destructor when the block is left. *)
Definition scoped {A : Type} (level : wxLogLevel) (body : LogM A) : LogM A :=
  (ctx <- WX_LOGLEVEL_CONTEXT.enter level ;;
   a <- body ;;
   WX_LOGLEVEL_CONTEXT.leave ctx ;;;
   ret a)%log.

(** Equality of actions is decidable. *)
Definition TOOL_ACTION_eq_dec (a b : TOOL_ACTION) : {a = b} + {a <> b}.
Proof.
  decide equality.
  - decide equality.
  - decide equality.
  - apply string_dec.
Defined.

(** [distinct_names names]: no name occurs twice. *)
Fixpoint distinct_names (names : list string) : bool :=
  match names with
  | [] => true
  | n :: rest => negb (existsb (String.eqb n) rest) && distinct_names rest
  end.

(** Every [TOOL_ACTION] the file declares as a static member of
    [PCB_ACTIONS], in the order of the source: the member and the action. *)
Definition declared : list (string * TOOL_ACTION) :=
  [
    ("selectionActivate"%string,
     {| m_name := "pcbnew.InteractiveSelection"; m_scope := AS_GLOBAL; m_flags := AF_ACTIVATE |});
    ("selectionCursor"%string,
     {| m_name := "pcbnew.InteractiveSelection.Cursor"; m_scope := AS_GLOBAL; m_flags := AF_NONE |});
    ("selectItem"%string,
     {| m_name := "pcbnew.InteractiveSelection.SelectItem"; m_scope := AS_GLOBAL; m_flags := AF_NONE |});
    ("unselectItem"%string,
     {| m_name := "pcbnew.InteractiveSelection.UnselectItem"; m_scope := AS_GLOBAL; m_flags := AF_NONE |});
    ("selectionClear"%string,
     {| m_name := "pcbnew.InteractiveSelection.Clear"; m_scope := AS_GLOBAL; m_flags := AF_NONE |});
    ("selectConnection"%string,
     {| m_name := "pcbnew.InteractiveSelection.SelectConnection"; m_scope := AS_GLOBAL; m_flags := AF_NONE |});
    ("selectCopper"%string,
     {| m_name := "pcbnew.InteractiveSelection.SelectCopper"; m_scope := AS_GLOBAL; m_flags := AF_NONE |});
    ("selectNet"%string,
     {| m_name := "pcbnew.InteractiveSelection.SelectNet"; m_scope := AS_GLOBAL; m_flags := AF_NONE |});
    ("selectSameSheet"%string,
     {| m_name := "pcbnew.InteractiveSelection.SelectSameSheet"; m_scope := AS_GLOBAL; m_flags := AF_NONE |});
    ("find"%string, PCB_ACTIONS.find);
    ("findMove"%string, PCB_ACTIONS.findMove);
    ("editFootprintInFpEditor"%string,
     {| m_name := "pcbnew.InteractiveEdit.editFootprintInFpEditor"; m_scope := AS_GLOBAL; m_flags := AF_NONE |});
    ("copyPadToSettings"%string,
     {| m_name := "pcbnew.InteractiveEdit.copyPadToSettings"; m_scope := AS_GLOBAL; m_flags := AF_NONE |});
    ("copySettingsToPads"%string,
     {| m_name := "pcbnew.InteractiveEdit.copySettingsToPads"; m_scope := AS_GLOBAL; m_flags := AF_NONE |});
    ("globalEditPads"%string,
     {| m_name := "pcbnew.InteractiveEdit.globalPadEdit"; m_scope := AS_GLOBAL; m_flags := AF_NONE |});
    ("editActivate"%string,
     {| m_name := "pcbnew.InteractiveEdit"; m_scope := AS_GLOBAL; m_flags := AF_ACTIVATE |});
    ("duplicate"%string,
     {| m_name := "pcbnew.InteractiveEdit.duplicate"; m_scope := AS_GLOBAL; m_flags := AF_NONE |});
    ("duplicateIncrement"%string,
     {| m_name := "pcbnew.InteractiveEdit.duplicateIncrementPads"; m_scope := AS_GLOBAL; m_flags := AF_NONE |});
    ("moveExact"%string,
     {| m_name := "pcbnew.InteractiveEdit.moveExact"; m_scope := AS_GLOBAL; m_flags := AF_NONE |});
    ("createArray"%string,
     {| m_name := "pcbnew.InteractiveEdit.createArray"; m_scope := AS_GLOBAL; m_flags := AF_ACTIVATE |});
    ("rotateCw"%string,
     {| m_name := "pcbnew.InteractiveEdit.rotateCw"; m_scope := AS_GLOBAL; m_flags := AF_NONE |});
    ("rotateCcw"%string,
     {| m_name := "pcbnew.InteractiveEdit.rotateCcw"; m_scope := AS_GLOBAL; m_flags := AF_NONE |});
    ("flip"%string,
     {| m_name := "pcbnew.InteractiveEdit.flip"; m_scope := AS_GLOBAL; m_flags := AF_NONE |});
    ("mirror"%string,
     {| m_name := "pcbnew.InteractiveEdit.mirror"; m_scope := AS_GLOBAL; m_flags := AF_NONE |});
    ("remove"%string,
     {| m_name := "pcbnew.InteractiveEdit.remove"; m_scope := AS_GLOBAL; m_flags := AF_NONE |});
    ("removeAlt"%string,
     {| m_name := "pcbnew.InteractiveEdit.removeAlt"; m_scope := AS_GLOBAL; m_flags := AF_NONE |});
    ("exchangeFootprints"%string,
     {| m_name := "pcbnew.InteractiveEdit.ExchangeFootprints"; m_scope := AS_GLOBAL; m_flags := AF_NONE |});
    ("properties"%string,
     {| m_name := "pcbnew.InteractiveEdit.properties"; m_scope := AS_GLOBAL; m_flags := AF_NONE |});
    ("editModifiedSelection"%string,
     {| m_name := "pcbnew.InteractiveEdit.ModifiedSelection"; m_scope := AS_GLOBAL; m_flags := AF_NONE |});
    ("drawLine"%string, PCB_ACTIONS.drawLine);
    ("drawCircle"%string, PCB_ACTIONS.drawCircle);
    ("drawArc"%string, PCB_ACTIONS.drawArc);
    ("placeText"%string, PCB_ACTIONS.placeText);
    ("drawDimension"%string, PCB_ACTIONS.drawDimension);
    ("drawZone"%string, PCB_ACTIONS.drawZone);
    ("drawKeepout"%string, PCB_ACTIONS.drawKeepout);
    ("drawZoneCutout"%string,
     {| m_name := "pcbnew.InteractiveDrawing.zoneCutout"; m_scope := AS_GLOBAL; m_flags := AF_ACTIVATE |});
    ("drawSimilarZone"%string,
     {| m_name := "pcbnew.InteractiveDrawing.similarZone"; m_scope := AS_GLOBAL; m_flags := AF_ACTIVATE |});
    ("placeDXF"%string, PCB_ACTIONS.placeDXF);
    ("setAnchor"%string, PCB_ACTIONS.setAnchor);
    ("incWidth"%string,
     {| m_name := "pcbnew.InteractiveDrawing.incWidth"; m_scope := AS_CONTEXT; m_flags := AF_NONE |});
    ("decWidth"%string,
     {| m_name := "pcbnew.InteractiveDrawing.decWidth"; m_scope := AS_CONTEXT; m_flags := AF_NONE |});
    ("arcPosture"%string,
     {| m_name := "pcbnew.InteractiveDrawing.arcPosture"; m_scope := AS_CONTEXT; m_flags := AF_NONE |});
    ("zoomIn"%string,
     {| m_name := "common.Control.zoomIn"; m_scope := AS_GLOBAL; m_flags := AF_NONE |});
    ("zoomOut"%string,
     {| m_name := "common.Control.zoomOut"; m_scope := AS_GLOBAL; m_flags := AF_NONE |});
    ("zoomInCenter"%string, PCB_ACTIONS.zoomInCenter);
    ("zoomOutCenter"%string, PCB_ACTIONS.zoomOutCenter);
    ("zoomCenter"%string,
     {| m_name := "common.Control.zoomCenter"; m_scope := AS_GLOBAL; m_flags := AF_NONE |});
    ("zoomFitScreen"%string, PCB_ACTIONS.zoomFitScreen);
    ("zoomPreset"%string,
     {| m_name := "common.Control.zoomPreset"; m_scope := AS_GLOBAL; m_flags := AF_NONE |});
    ("trackDisplayMode"%string, PCB_ACTIONS.trackDisplayMode);
    ("padDisplayMode"%string, PCB_ACTIONS.padDisplayMode);
    ("viaDisplayMode"%string, PCB_ACTIONS.viaDisplayMode);
    ("zoneDisplayEnable"%string, PCB_ACTIONS.zoneDisplayEnable);
    ("zoneDisplayDisable"%string, PCB_ACTIONS.zoneDisplayDisable);
    ("zoneDisplayOutlines"%string, PCB_ACTIONS.zoneDisplayOutlines);
    ("highContrastMode"%string, PCB_ACTIONS.highContrastMode);
    ("highContrastInc"%string,
     {| m_name := "pcbnew.Control.highContrastInc"; m_scope := AS_GLOBAL; m_flags := AF_NONE |});
    ("highContrastDec"%string,
     {| m_name := "pcbnew.Control.highContrastDec"; m_scope := AS_GLOBAL; m_flags := AF_NONE |});
    ("layerTop"%string,
     {| m_name := "pcbnew.Control.layerTop"; m_scope := AS_GLOBAL; m_flags := AF_NONE |});
    ("layerInner1"%string,
     {| m_name := "pcbnew.Control.layerInner1"; m_scope := AS_GLOBAL; m_flags := AF_NONE |});
    ("layerInner2"%string,
     {| m_name := "pcbnew.Control.layerInner2"; m_scope := AS_GLOBAL; m_flags := AF_NONE |});
    ("layerInner3"%string,
     {| m_name := "pcbnew.Control.layerInner3"; m_scope := AS_GLOBAL; m_flags := AF_NONE |});
    ("layerInner4"%string,
     {| m_name := "pcbnew.Control.layerInner4"; m_scope := AS_GLOBAL; m_flags := AF_NONE |});
    ("layerInner5"%string,
     {| m_name := "pcbnew.Control.layerInner5"; m_scope := AS_GLOBAL; m_flags := AF_NONE |});
    ("layerInner6"%string,
     {| m_name := "pcbnew.Control.layerInner6"; m_scope := AS_GLOBAL; m_flags := AF_NONE |});
    ("layerBottom"%string,
     {| m_name := "pcbnew.Control.layerBottom"; m_scope := AS_GLOBAL; m_flags := AF_NONE |});
    ("layerNext"%string,
     {| m_name := "pcbnew.Control.layerNext"; m_scope := AS_GLOBAL; m_flags := AF_NONE |});
    ("layerPrev"%string,
     {| m_name := "pcbnew.Control.layerPrev"; m_scope := AS_GLOBAL; m_flags := AF_NONE |});
    ("layerToggle"%string,
     {| m_name := "pcbnew.Control.layerToggle"; m_scope := AS_GLOBAL; m_flags := AF_NONE |});
    ("layerAlphaInc"%string,
     {| m_name := "pcbnew.Control.layerAlphaInc"; m_scope := AS_GLOBAL; m_flags := AF_NONE |});
    ("layerAlphaDec"%string,
     {| m_name := "pcbnew.Control.layerAlphaDec"; m_scope := AS_GLOBAL; m_flags := AF_NONE |});
    ("layerChanged"%string,
     {| m_name := "pcbnew.Control.layerChanged"; m_scope := AS_GLOBAL; m_flags := AF_NOTIFY |});
    ("gridFast1"%string,
     {| m_name := "common.Control.gridFast1"; m_scope := AS_GLOBAL; m_flags := AF_NONE |});
    ("gridFast2"%string,
     {| m_name := "common.Control.gridFast2"; m_scope := AS_GLOBAL; m_flags := AF_NONE |});
    ("gridNext"%string,
     {| m_name := "common.Control.gridNext"; m_scope := AS_GLOBAL; m_flags := AF_NONE |});
    ("gridPrev"%string,
     {| m_name := "common.Control.gridPrev"; m_scope := AS_GLOBAL; m_flags := AF_NONE |});
    ("gridSetOrigin"%string, PCB_ACTIONS.gridSetOrigin);
    ("gridResetOrigin"%string,
     {| m_name := "common.Control.gridResetOrigin"; m_scope := AS_GLOBAL; m_flags := AF_NONE |});
    ("gridPreset"%string,
     {| m_name := "common.Control.gridPreset"; m_scope := AS_GLOBAL; m_flags := AF_NONE |});
    ("trackWidthInc"%string,
     {| m_name := "pcbnew.EditorControl.trackWidthInc"; m_scope := AS_GLOBAL; m_flags := AF_NONE |});
    ("trackWidthDec"%string,
     {| m_name := "pcbnew.EditorControl.trackWidthDec"; m_scope := AS_GLOBAL; m_flags := AF_NONE |});
    ("viaSizeInc"%string,
     {| m_name := "pcbnew.EditorControl.viaSizeInc"; m_scope := AS_GLOBAL; m_flags := AF_NONE |});
    ("viaSizeDec"%string,
     {| m_name := "pcbnew.EditorControl.viaSizeDec"; m_scope := AS_GLOBAL; m_flags := AF_NONE |});
    ("trackViaSizeChanged"%string,
     {| m_name := "pcbnew.EditorControl.trackViaSizeChanged"; m_scope := AS_GLOBAL; m_flags := AF_NOTIFY |});
    ("zoneFill"%string,
     {| m_name := "pcbnew.EditorControl.zoneFill"; m_scope := AS_GLOBAL; m_flags := AF_NONE |});
    ("zoneFillAll"%string,
     {| m_name := "pcbnew.EditorControl.zoneFillAll"; m_scope := AS_GLOBAL; m_flags := AF_NONE |});
    ("zoneUnfill"%string,
     {| m_name := "pcbnew.EditorControl.zoneUnfill"; m_scope := AS_GLOBAL; m_flags := AF_NONE |});
    ("zoneUnfillAll"%string,
     {| m_name := "pcbnew.EditorControl.zoneUnfillAll"; m_scope := AS_GLOBAL; m_flags := AF_NONE |});
    ("zoneMerge"%string,
     {| m_name := "pcbnew.EditorControl.zoneMerge"; m_scope := AS_GLOBAL; m_flags := AF_NONE |});
    ("zoneDuplicate"%string,
     {| m_name := "pcbnew.EditorControl.zoneDuplicate"; m_scope := AS_GLOBAL; m_flags := AF_NONE |});
    ("placeTarget"%string, PCB_ACTIONS.placeTarget);
    ("placeModule"%string, PCB_ACTIONS.placeModule);
    ("drillOrigin"%string, PCB_ACTIONS.drillOrigin);
    ("crossProbeSchToPcb"%string,
     {| m_name := "pcbnew.EditorControl.crossProbSchToPcb"; m_scope := AS_GLOBAL; m_flags := AF_NONE |});
    ("toggleLock"%string,
     {| m_name := "pcbnew.EditorControl.toggleLock"; m_scope := AS_GLOBAL; m_flags := AF_NONE |});
    ("lock"%string,
     {| m_name := "pcbnew.EditorControl.lock"; m_scope := AS_GLOBAL; m_flags := AF_NONE |});
    ("unlock"%string,
     {| m_name := "pcbnew.EditorControl.unlock"; m_scope := AS_GLOBAL; m_flags := AF_NONE |});
    ("appendBoard"%string, PCB_ACTIONS.appendBoard);
    ("highlightNet"%string,
     {| m_name := "pcbnew.EditorControl.highlightNet"; m_scope := AS_GLOBAL; m_flags := AF_NONE |});
    ("highlightNetCursor"%string, PCB_ACTIONS.highlightNetCursor);
    ("placePad"%string, PCB_ACTIONS.placePad);
    ("enumeratePads"%string,
     {| m_name := "pcbnew.ModuleEditor.enumeratePads"; m_scope := AS_GLOBAL; m_flags := AF_ACTIVATE |});
    ("copyItems"%string,
     {| m_name := "pcbnew.ModuleEditor.copyItems"; m_scope := AS_GLOBAL; m_flags := AF_ACTIVATE |});
    ("pasteItems"%string,
     {| m_name := "pcbnew.ModuleEditor.pasteItems"; m_scope := AS_GLOBAL; m_flags := AF_ACTIVATE |});
    ("moduleEdgeOutlines"%string, PCB_ACTIONS.moduleEdgeOutlines);
    ("moduleTextOutlines"%string, PCB_ACTIONS.moduleTextOutlines);
    ("copyPadSettings"%string,
     {| m_name := "pcbnew.PadTool.CopyPadSettings"; m_scope := AS_GLOBAL; m_flags := AF_NONE |});
    ("applyPadSettings"%string,
     {| m_name := "pcbnew.PadTool.ApplyPadSettings"; m_scope := AS_GLOBAL; m_flags := AF_NONE |});
    ("pushPadSettings"%string,
     {| m_name := "pcbnew.PadTool.PushPadSettings"; m_scope := AS_GLOBAL; m_flags := AF_NONE |});
    ("cursorUp"%string,
     {| m_name := "pcbnew.Control.cursorUp"; m_scope := AS_GLOBAL; m_flags := AF_NONE |});
    ("cursorDown"%string,
     {| m_name := "pcbnew.Control.cursorDown"; m_scope := AS_GLOBAL; m_flags := AF_NONE |});
    ("cursorLeft"%string,
     {| m_name := "pcbnew.Control.cursorLeft"; m_scope := AS_GLOBAL; m_flags := AF_NONE |});
    ("cursorRight"%string,
     {| m_name := "pcbnew.Control.cursorRight"; m_scope := AS_GLOBAL; m_flags := AF_NONE |});
    ("cursorUpFast"%string,
     {| m_name := "pcbnew.Control.cursorUpFast"; m_scope := AS_GLOBAL; m_flags := AF_NONE |});
    ("cursorDownFast"%string,
     {| m_name := "pcbnew.Control.cursorDownFast"; m_scope := AS_GLOBAL; m_flags := AF_NONE |});
    ("cursorLeftFast"%string,
     {| m_name := "pcbnew.Control.cursorLeftFast"; m_scope := AS_GLOBAL; m_flags := AF_NONE |});
    ("cursorRightFast"%string,
     {| m_name := "pcbnew.Control.cursorRightFast"; m_scope := AS_GLOBAL; m_flags := AF_NONE |});
    ("cursorClick"%string,
     {| m_name := "pcbnew.Control.cursorClick"; m_scope := AS_GLOBAL; m_flags := AF_NONE |});
    ("cursorDblClick"%string,
     {| m_name := "pcbnew.Control.cursorDblClick"; m_scope := AS_GLOBAL; m_flags := AF_NONE |});
    ("panUp"%string,
     {| m_name := "pcbnew.Control.panUp"; m_scope := AS_GLOBAL; m_flags := AF_NONE |});
    ("panDown"%string,
     {| m_name := "pcbnew.Control.panDown"; m_scope := AS_GLOBAL; m_flags := AF_NONE |});
    ("panLeft"%string,
     {| m_name := "pcbnew.Control.panLeft"; m_scope := AS_GLOBAL; m_flags := AF_NONE |});
    ("panRight"%string,
     {| m_name := "pcbnew.Control.panRight"; m_scope := AS_GLOBAL; m_flags := AF_NONE |});
    ("selectionTool"%string, PCB_ACTIONS.selectionTool);
    ("zoomTool"%string, PCB_ACTIONS.zoomTool);
    ("pickerTool"%string,
     {| m_name := "pcbnew.Picker"; m_scope := AS_GLOBAL; m_flags := AF_ACTIVATE |});
    ("resetCoords"%string,
     {| m_name := "pcbnew.Control.resetCoords"; m_scope := AS_GLOBAL; m_flags := AF_NONE |});
    ("switchCursor"%string,
     {| m_name := "pcbnew.Control.switchCursor"; m_scope := AS_GLOBAL; m_flags := AF_NONE |});
    ("switchUnits"%string,
     {| m_name := "pcbnew.Control.switchUnits"; m_scope := AS_GLOBAL; m_flags := AF_NONE |});
    ("deleteItemCursor"%string, PCB_ACTIONS.deleteItemCursor);
    ("showHelp"%string,
     {| m_name := "pcbnew.Control.showHelp"; m_scope := AS_GLOBAL; m_flags := AF_NONE |});
    ("toBeDone"%string, PCB_ACTIONS.toBeDone);
    ("routerActivateSingle"%string, PCB_ACTIONS.routerActivateSingle);
    ("routerActivateDiffPair"%string, PCB_ACTIONS.routerActivateDiffPair);
    ("routerActivateSettingsDialog"%string, PCB_ACTIONS.routerActivateSettingsDialog);
    ("routerActivateDpDimensionsDialog"%string, PCB_ACTIONS.routerActivateDpDimensionsDialog);
    ("routerActivateTuneSingleTrace"%string, PCB_ACTIONS.routerActivateTuneSingleTrace);
    ("routerActivateTuneDiffPair"%string, PCB_ACTIONS.routerActivateTuneDiffPair);
    ("routerActivateTuneDiffPairSkew"%string, PCB_ACTIONS.routerActivateTuneDiffPairSkew);
    ("routerInlineDrag"%string,
     {| m_name := "pcbnew.InteractiveRouter.InlineDrag"; m_scope := AS_GLOBAL; m_flags := AF_NONE |});
    ("pointEditorAddCorner"%string,
     {| m_name := "pcbnew.PointEditor.addCorner"; m_scope := AS_GLOBAL; m_flags := AF_NONE |});
    ("pointEditorRemoveCorner"%string,
     {| m_name := "pcbnew.PointEditor.removeCorner"; m_scope := AS_GLOBAL; m_flags := AF_NONE |});
    ("alignTop"%string,
     {| m_name := "pcbnew.Place.alignTop"; m_scope := AS_GLOBAL; m_flags := AF_NONE |});
    ("alignBottom"%string,
     {| m_name := "pcbnew.Place.alignBottom"; m_scope := AS_GLOBAL; m_flags := AF_NONE |});
    ("alignLeft"%string,
     {| m_name := "pcbnew.Place.alignLeft"; m_scope := AS_GLOBAL; m_flags := AF_NONE |});
    ("alignRight"%string,
     {| m_name := "pcbnew.Place.alignRight"; m_scope := AS_GLOBAL; m_flags := AF_NONE |});
    ("distributeHorizontally"%string,
     {| m_name := "pcbnew.Place.distributeHorizontally"; m_scope := AS_GLOBAL; m_flags := AF_NONE |});
    ("distributeVertically"%string,
     {| m_name := "pcbnew.Place.distributeVertically"; m_scope := AS_GLOBAL; m_flags := AF_NONE |})
  ].

(** * Properties *)

(** ** The conversion to [int] and the string search *)

Lemma int_of_size_t_small (idx : N) :
  Z.of_N idx <= INT_MAX -> int_of_size_t idx = Z.of_N idx.
Proof.
  intros Hle. unfold int_of_size_t.
  assert (Hmod : Z.of_N idx mod 4294967296 = Z.of_N idx).
  { apply Z.mod_small. unfold INT_MAX in Hle. lia. }
  cbv zeta. rewrite Hmod.
  destruct (Z.leb_spec (Z.of_N idx) INT_MAX); [reflexivity | lia].
Qed.

Lemma starts_with_app (sub post : wxString) : starts_with (sub ++ post) sub = true.
Proof.
  induction sub as [|c sub IH]; simpl.
  - reflexivity.
  - rewrite N.eqb_refl. exact IH.
Qed.

Lemma starts_with_inv (s sub : wxString) :
  starts_with s sub = true -> exists post, s = sub ++ post.
Proof.
  revert s. induction sub as [|c sub IH]; intros s Hs.
  - exists s. reflexivity.
  - destruct s as [|d s]; simpl in Hs; [discriminate|].
    apply andb_true_iff in Hs. destruct Hs as [Hcd Hrest].
    apply N.eqb_eq in Hcd. subst d.
    destruct (IH s Hrest) as [post ->].
    exists post. reflexivity.
Qed.

(** [find] returns an offset at which [sub] occurs. *)
Lemma find_occurs (s sub : wxString) (idx : N) :
  find s sub = Some idx -> occurs_at sub s (N.to_nat idx).
Proof.
  revert idx. induction s as [|d s IH]; intros idx Hf; simpl in Hf.
  - destruct (starts_with [] sub) eqn:Hsw; [|discriminate].
    injection Hf as <-. apply starts_with_inv in Hsw. destruct Hsw as [post Hpost].
    exists [], post. split; [exact Hpost | reflexivity].
  - destruct (starts_with (d :: s) sub) eqn:Hsw.
    + injection Hf as <-. apply starts_with_inv in Hsw. destruct Hsw as [post Hpost].
      exists [], post. split; [exact Hpost | reflexivity].
    + destruct (find s sub) as [j|] eqn:Hj; simpl in Hf; [|discriminate].
      injection Hf as <-.
      destruct (IH j eq_refl) as (pre & post & Heq & Hlen).
      exists (d :: pre), post. split.
      * simpl. rewrite Heq. reflexivity.
      * simpl. rewrite Hlen. lia.
Qed.

(** [find] finds every occurrence, and none lies before the offset it
    returns. *)
Lemma find_first (pre sub post : wxString) :
  exists idx, find (pre ++ sub ++ post) sub = Some idx /\ (N.to_nat idx <= length pre)%nat.
Proof.
  induction pre as [|d pre IH].
  - exists 0%N. split; [|simpl; lia].
    simpl app. destruct (sub ++ post) as [|e rest] eqn:Heq; simpl.
    + destruct sub; [reflexivity | discriminate].
    + rewrite <- Heq. rewrite starts_with_app. reflexivity.
  - destruct IH as (idx & Hidx & Hle).
    simpl app. simpl find.
    destruct (starts_with (d :: pre ++ sub ++ post) sub).
    + exists 0%N. split; [reflexivity | simpl; lia].
    + rewrite Hidx. exists (N.succ idx). split; [reflexivity | simpl; lia].
Qed.

(** [wxString::Find] on a text that has [sub] at an offset of at most
    [INT_MAX]: the offset of the first occurrence, itself at most that. *)
Lemma wxString_Find_found (pre sub post : wxString) :
  Z.of_nat (length pre) <= INT_MAX ->
  exists idx, find (pre ++ sub ++ post) sub = Some idx /\
              wxString_Find (pre ++ sub ++ post) sub = Z.of_N idx /\
              0 <= Z.of_N idx <= Z.of_nat (length pre).
Proof.
  intros Hle. destruct (find_first pre sub post) as (idx & Hidx & Hpos).
  exists idx. unfold wxString_Find. rewrite Hidx.
  assert (Hb : Z.of_N idx <= Z.of_nat (length pre)) by lia.
  rewrite int_of_size_t_small by lia.
  repeat split; [lia | exact Hb].
Qed.

(** On a text of at most [INT_MAX] characters [wxString::Find] yields
    [wxNOT_FOUND] or a position. *)
Lemma wxString_Find_short (s sub : wxString) :
  Z.of_nat (length s) <= INT_MAX ->
  wxString_Find s sub = wxNOT_FOUND \/ is_position (wxString_Find s sub).
Proof.
  intros Hle. unfold wxString_Find.
  destruct (find s sub) as [idx|] eqn:Hf; [right | left; reflexivity].
  destruct (find_occurs _ _ _ Hf) as (pre & post & Heq & Hlen).
  assert (Hpre : (length pre <= length s)%nat).
  { rewrite Heq, length_app. lia. }
  rewrite int_of_size_t_small by lia.
  unfold is_position. lia.
Qed.

Lemma find_ch_spec (s : wxString) (ch : wxUniChar) :
  match find_ch s ch with
  | Some idx => existsb (N.eqb ch) s = true /\ (N.to_nat idx < length s)%nat
  | None => existsb (N.eqb ch) s = false
  end.
Proof.
  induction s as [|c s IH]; simpl.
  - reflexivity.
  - rewrite (N.eqb_sym ch c). destruct (c =? ch)%N; simpl.
    + split; [reflexivity | lia].
    + destruct (find_ch s ch) as [idx|]; simpl.
      * destruct IH as [Hex Hlt]. split; [exact Hex | lia].
      * exact IH.
Qed.

(** The test [to_replace.Find( c ) != wxNOT_FOUND] of the wildcard
    translation holds exactly for the characters of [escaped]. *)
Lemma to_replace_test (c : wxUniChar) :
  negb (wxString_Find_ch EDA_PATTERN_MATCH_WILDCARD.to_replace c =? wxNOT_FOUND)
  = existsb (N.eqb c) escaped.
Proof.
  change EDA_PATTERN_MATCH_WILDCARD.to_replace with escaped.
  unfold wxString_Find_ch.
  pose proof (find_ch_spec escaped c) as Hspec.
  destruct (find_ch escaped c) as [idx|].
  - destruct Hspec as [Hex Hlt]. rewrite Hex.
    change (length escaped) with 15%nat in Hlt.
    rewrite int_of_size_t_small by (unfold INT_MAX; lia).
    unfold wxNOT_FOUND.
    destruct (Z.eqb_spec (Z.of_N idx) (-1)); [lia | reflexivity].
  - rewrite Hspec. reflexivity.
Qed.

(** ** The log is left as it was *)

Lemma wxLog_eta (w : wxLog) : {| ms_logLevel := ms_logLevel w; records := records w |} = w.
Proof. destruct w as [level recs]. reflexivity. Qed.

Section SetPattern.
Context `{wxRegExEngine}.

(** [EDA_PATTERN_MATCH_REGEX::SetPattern] in one equation: the pattern is
    stored, the result is that of the compilation, and the log is the one
    the call started with, whatever its level was. *)
Lemma regex_SetPattern_eq (aPattern : wxString) (self : EDA_PATTERN_MATCH_REGEX.t) (w : wxLog) :
  EDA_PATTERN_MATCH_REGEX.SetPattern aPattern self w =
  (match regcomp aPattern wxRE_ADVANCED with
   | Some re =>
       (true, {| EDA_PATTERN_MATCH_REGEX.m_pattern := aPattern;
                 EDA_PATTERN_MATCH_REGEX.m_regex := {| m_impl := Some re; m_Matches := None |} |})
   | None =>
       (false, {| EDA_PATTERN_MATCH_REGEX.m_pattern := aPattern;
                  EDA_PATTERN_MATCH_REGEX.m_regex := wxRegEx_new |})
   end, w).
Proof.
  unfold EDA_PATTERN_MATCH_REGEX.SetPattern, WX_LOGLEVEL_CONTEXT.enter,
    WX_LOGLEVEL_CONTEXT.leave, wxRegEx_Compile, bind, ret,
    wxLog_GetLogLevel, wxLog_SetLogLevel, wxLogError.
  destruct (regcomp aPattern wxRE_ADVANCED) as [re|]; simpl; rewrite wxLog_eta; reflexivity.
Qed.

Lemma wildcard_SetPattern_eq (aPattern : wxString) (self : EDA_PATTERN_MATCH_WILDCARD.t) (w : wxLog) :
  EDA_PATTERN_MATCH_WILDCARD.SetPattern aPattern self w =
  (let r := fst (EDA_PATTERN_MATCH_REGEX.SetPattern
                   (EDA_PATTERN_MATCH_WILDCARD.translate aPattern)
                   (EDA_PATTERN_MATCH_WILDCARD.base self) w) in
   (fst r, {| EDA_PATTERN_MATCH_WILDCARD.base := snd r;
              EDA_PATTERN_MATCH_WILDCARD.m_wildcard_pattern := aPattern |}), w).
Proof.
  unfold EDA_PATTERN_MATCH_WILDCARD.SetPattern, bind, ret.
  rewrite regex_SetPattern_eq. reflexivity.
Qed.

(** No [SetPattern] changes the log. *)
Lemma SetPattern_log (aPattern : wxString) (matcher : EDA_PATTERN_MATCH.t) (w : wxLog) :
  snd (EDA_PATTERN_MATCH.SetPattern aPattern matcher w) = w.
Proof.
  destruct matcher as [o|o|o]; unfold EDA_PATTERN_MATCH.SetPattern, bind, ret.
  - reflexivity.
  - rewrite regex_SetPattern_eq. reflexivity.
  - rewrite wildcard_SetPattern_eq. reflexivity.
Qed.

Lemma AddMatcher_eq (aPattern : wxString) (aMatcher : EDA_PATTERN_MATCH.t)
    (self : EDA_COMBINED_MATCHER.t) (w : wxLog) :
  EDA_COMBINED_MATCHER.AddMatcher aPattern aMatcher self w =
  (let r := fst (EDA_PATTERN_MATCH.SetPattern aPattern aMatcher w) in
   if fst r
   then {| EDA_COMBINED_MATCHER.m_pattern := EDA_COMBINED_MATCHER.m_pattern self;
           EDA_COMBINED_MATCHER.m_matchers := EDA_COMBINED_MATCHER.m_matchers self ++ [snd r] |}
   else self, w).
Proof.
  unfold EDA_COMBINED_MATCHER.AddMatcher, bind, ret.
  pose proof (SetPattern_log aPattern aMatcher w) as Hlog.
  destruct (EDA_PATTERN_MATCH.SetPattern aPattern aMatcher w) as [r w'].
  simpl in Hlog. subst w'. reflexivity.
Qed.

(** The constructor registers, in order, the variants whose [SetPattern]
    succeeds, and leaves the log alone. *)
Lemma new_eq (aPattern : wxString) (w : wxLog) :
  EDA_COMBINED_MATCHER.new aPattern w =
  ({| EDA_COMBINED_MATCHER.m_pattern := aPattern;
      EDA_COMBINED_MATCHER.m_matchers := registered aPattern w |}, w).
Proof.
  unfold EDA_COMBINED_MATCHER.new, registered, EDA_COMBINED_MATCHER.variants.
  unfold bind at 1. unfold ret at 1.
  unfold bind at 1. rewrite AddMatcher_eq.
  unfold bind at 1. rewrite AddMatcher_eq.
  rewrite AddMatcher_eq.
  cbn [flat_map].
  set (r1 := fst (EDA_PATTERN_MATCH.SetPattern aPattern
                    (EDA_PATTERN_MATCH.Regex EDA_PATTERN_MATCH_REGEX.new) w)).
  set (r2 := fst (EDA_PATTERN_MATCH.SetPattern aPattern
                    (EDA_PATTERN_MATCH.Wildcard EDA_PATTERN_MATCH_WILDCARD.new) w)).
  set (r3 := fst (EDA_PATTERN_MATCH.SetPattern aPattern
                    (EDA_PATTERN_MATCH.Substr EDA_PATTERN_MATCH_SUBSTR.new) w)).
  cbv zeta.
  destruct r1 as [b1 m1], r2 as [b2 m2], r3 as [b3 m3].
  destruct b1, b2, b3; reflexivity.
Qed.

End SetPattern.

(** ** The loop of [EDA_COMBINED_MATCHER::Find] *)

Section FindLoop.
Context `{wxRegExEngine}.

(** The loop folds [Find_step] over the values the matchers return. *)
Lemma Find_loop_fold (aTerm : wxString) (matchers : list EDA_PATTERN_MATCH.t) (acc : Z * Z) :
  EDA_COMBINED_MATCHER.Find_loop aTerm matchers acc =
  (fold_left (fun a r => EDA_COMBINED_MATCHER.Find_step r a) (local_finds matchers aTerm) acc,
   map (fun matcher => snd (EDA_PATTERN_MATCH.Find matcher aTerm)) matchers).
Proof.
  revert acc. induction matchers as [|matcher rest IH]; intros acc; simpl.
  - reflexivity.
  - destruct (EDA_PATTERN_MATCH.Find matcher aTerm) as [local_find matcher'] eqn:Hm.
    rewrite IH. reflexivity.
Qed.

(** The counter grows by one for each value that is a match. *)
Lemma fold_step_count (finds : list Z) (k pos : Z) :
  fst (fold_left (fun a r => EDA_COMBINED_MATCHER.Find_step r a) finds (k, pos))
  = k + Z.of_nat (length (filter matched finds)).
Proof.
  revert k pos. induction finds as [|r finds IH]; intros k pos; simpl.
  - lia.
  - change (negb (r =? EDA_PATTERN_NOT_FOUND)) with (matched r).
    destruct (matched r); simpl; rewrite IH; lia.
Qed.

(** Once a position is held, the loop keeps the least of it and of the
    matches that follow. *)
Lemma fold_step_min (finds : list Z) (k pos : Z) :
  pos <> EDA_PATTERN_NOT_FOUND ->
  let pos' := snd (fold_left (fun a r => EDA_COMBINED_MATCHER.Find_step r a) finds (k, pos)) in
  pos' <> EDA_PATTERN_NOT_FOUND /\
  (pos' = pos \/ In pos' (filter matched finds)) /\
  pos' <= pos /\
  (forall x, In x (filter matched finds) -> pos' <= x).
Proof.
  revert k pos. induction finds as [|r finds IH]; intros k pos Hpos; simpl.
  - repeat split; [exact Hpos | left; reflexivity | lia | intros x []].
  - change (negb (r =? EDA_PATTERN_NOT_FOUND)) with (matched r).
    destruct (matched r) eqn:Hr.
    + destruct (Z.eqb_spec pos EDA_PATTERN_NOT_FOUND) as [Heq|_]; [contradiction|].
      rewrite orb_false_r.
      assert (Hrn : r <> EDA_PATTERN_NOT_FOUND).
      { unfold matched in Hr. apply negb_true_iff in Hr. apply Z.eqb_neq in Hr. exact Hr. }
      destruct (Z.ltb_spec r pos) as [Hlt|Hge].
      * destruct (IH (k + 1) r Hrn) as (Hn & Hin & Hle & Hall).
        repeat split.
        -- exact Hn.
        -- right. destruct Hin as [-> | Hin]; [left; reflexivity | right; exact Hin].
        -- lia.
        -- intros x [<- | Hx]; [exact Hle | exact (Hall x Hx)].
      * destruct (IH (k + 1) pos Hpos) as (Hn & Hin & Hle & Hall).
        repeat split.
        -- exact Hn.
        -- destruct Hin as [-> | Hin]; [left; reflexivity | right; right; exact Hin].
        -- exact Hle.
        -- intros x [<- | Hx]; [lia | exact (Hall x Hx)].
    + exact (IH k pos Hpos).
Qed.

(** From [EDA_PATTERN_NOT_FOUND], the loop ends with the least match, or
    with [EDA_PATTERN_NOT_FOUND] when nothing matched. *)
Lemma fold_step_position (finds : list Z) (k : Z) :
  let pos' := snd (fold_left (fun a r => EDA_COMBINED_MATCHER.Find_step r a) finds
                     (k, EDA_PATTERN_NOT_FOUND)) in
  (filter matched finds = [] -> pos' = EDA_PATTERN_NOT_FOUND) /\
  (filter matched finds <> [] ->
   pos' <> EDA_PATTERN_NOT_FOUND /\
   In pos' (filter matched finds) /\
   forall x, In x (filter matched finds) -> pos' <= x).
Proof.
  revert k. induction finds as [|r finds IH]; intros k; simpl.
  - split; [reflexivity | intros Hne; contradiction Hne; reflexivity].
  - change (negb (r =? EDA_PATTERN_NOT_FOUND)) with (matched r).
    destruct (matched r) eqn:Hr.
    + rewrite orb_true_r.
      assert (Hrn : r <> EDA_PATTERN_NOT_FOUND).
      { unfold matched in Hr. apply negb_true_iff in Hr. apply Z.eqb_neq in Hr. exact Hr. }
      destruct (fold_step_min finds (k + 1) r Hrn) as (Hn & Hin & Hle & Hall).
      split; [discriminate | intros _].
      repeat split.
      * exact Hn.
      * destruct Hin as [-> | Hin]; [left; reflexivity | right; exact Hin].
      * intros x [<- | Hx]; [exact Hle | exact (Hall x Hx)].
    + exact (IH k).
Qed.

(** [Find] in terms of the values its matchers return. *)
Lemma Find_eq (self : EDA_COMBINED_MATCHER.t) (aTerm : wxString) :
  let finds := local_finds (EDA_COMBINED_MATCHER.m_matchers self) aTerm in
  let acc := fold_left (fun a r => EDA_COMBINED_MATCHER.Find_step r a) finds
               (0, EDA_PATTERN_NOT_FOUND) in
  EDA_COMBINED_MATCHER.Find self aTerm =
  ({| EDA_COMBINED_MATCHER.returned := negb (snd acc =? EDA_PATTERN_NOT_FOUND);
      EDA_COMBINED_MATCHER.aMatchersTriggered := fst acc;
      EDA_COMBINED_MATCHER.aPosition := snd acc |},
   {| EDA_COMBINED_MATCHER.m_pattern := EDA_COMBINED_MATCHER.m_pattern self;
      EDA_COMBINED_MATCHER.m_matchers :=
        map (fun matcher => snd (EDA_PATTERN_MATCH.Find matcher aTerm))
            (EDA_COMBINED_MATCHER.m_matchers self) |}).
Proof.
  cbv zeta. unfold EDA_COMBINED_MATCHER.Find. rewrite Find_loop_fold.
  destruct (fold_left _ _ _) as [k pos]. reflexivity.
Qed.

End FindLoop.

(** ** The combined matcher *)

Section Combined.
Context `{wxRegExEngine}.

Lemma matched_true (r : Z) : matched r = true <-> r <> EDA_PATTERN_NOT_FOUND.
Proof.
  unfold matched. rewrite negb_true_iff. apply Z.eqb_neq.
Qed.

(** The three variants, spelled out: the regular expression is registered
    when [aPattern] compiles, the wildcard when its translation compiles,
    the substring always. *)
Lemma registered_eq (aPattern : wxString) (w : wxLog) :
  registered aPattern w =
  match regcomp aPattern wxRE_ADVANCED with
  | Some re =>
      [EDA_PATTERN_MATCH.Regex
         {| EDA_PATTERN_MATCH_REGEX.m_pattern := aPattern;
            EDA_PATTERN_MATCH_REGEX.m_regex := {| m_impl := Some re; m_Matches := None |} |}]
  | None => []
  end ++
  match regcomp (EDA_PATTERN_MATCH_WILDCARD.translate aPattern) wxRE_ADVANCED with
  | Some re =>
      [EDA_PATTERN_MATCH.Wildcard
         {| EDA_PATTERN_MATCH_WILDCARD.base :=
              {| EDA_PATTERN_MATCH_REGEX.m_pattern := EDA_PATTERN_MATCH_WILDCARD.translate aPattern;
                 EDA_PATTERN_MATCH_REGEX.m_regex := {| m_impl := Some re; m_Matches := None |} |};
            EDA_PATTERN_MATCH_WILDCARD.m_wildcard_pattern := aPattern |}]
  | None => []
  end ++
  [EDA_PATTERN_MATCH.Substr {| EDA_PATTERN_MATCH_SUBSTR.m_pattern := aPattern |}].
Proof.
  unfold registered, EDA_COMBINED_MATCHER.variants. cbn [flat_map].
  unfold EDA_PATTERN_MATCH.SetPattern, bind, ret.
  rewrite wildcard_SetPattern_eq, !regex_SetPattern_eq.
  cbn [EDA_PATTERN_MATCH_WILDCARD.base EDA_PATTERN_MATCH_WILDCARD.new].
  destruct (regcomp aPattern wxRE_ADVANCED);
    destruct (regcomp (EDA_PATTERN_MATCH_WILDCARD.translate aPattern) wxRE_ADVANCED);
    reflexivity.
Qed.

(** C1.  For every pattern and every candidate, [Find] of the combined
    matcher works on the matchers whose [SetPattern] returned [true] at
    construction.  It sets the position to the least of the positions their
    [Find]s return, to [EDA_PATTERN_NOT_FOUND] when none of them matches, and
    it returns [true] exactly when one of them matched. *)
Theorem combined_Find_least_position (aPattern aTerm : wxString) (w : wxLog) :
  let self := fst (EDA_COMBINED_MATCHER.new aPattern w) in
  let r := fst (EDA_COMBINED_MATCHER.Find self aTerm) in
  let pos := positions (registered aPattern w) aTerm in
  EDA_COMBINED_MATCHER.m_matchers self = registered aPattern w /\
  (pos = [] -> EDA_COMBINED_MATCHER.aPosition r = EDA_PATTERN_NOT_FOUND) /\
  (pos <> [] ->
   In (EDA_COMBINED_MATCHER.aPosition r) pos /\
   forall x, In x pos -> EDA_COMBINED_MATCHER.aPosition r <= x) /\
  (EDA_COMBINED_MATCHER.returned r = true <->
   exists matcher, In matcher (registered aPattern w) /\
                   fst (EDA_PATTERN_MATCH.Find matcher aTerm) <> EDA_PATTERN_NOT_FOUND).
Proof.
  cbv zeta. rewrite new_eq. cbn [fst EDA_COMBINED_MATCHER.m_matchers].
  pose proof (Find_eq {| EDA_COMBINED_MATCHER.m_pattern := aPattern;
                         EDA_COMBINED_MATCHER.m_matchers := registered aPattern w |} aTerm) as HF.
  cbv zeta in HF. rewrite HF. clear HF.
  cbn [fst EDA_COMBINED_MATCHER.m_matchers EDA_COMBINED_MATCHER.aPosition
       EDA_COMBINED_MATCHER.returned].
  unfold positions.
  set (finds := local_finds (registered aPattern w) aTerm).
  destruct (fold_step_position finds 0) as [Hnone Hsome].
  split; [reflexivity|]. split; [exact Hnone|]. split.
  - intros Hne. destruct (Hsome Hne) as (_ & Hin & Hall). split; assumption.
  - rewrite negb_true_iff, Z.eqb_neq. split.
    + intros Hpos.
      destruct (filter matched finds) as [|x l] eqn:Hf.
      * contradiction Hpos. apply Hnone. reflexivity.
      * assert (Hx : In x (filter matched finds)) by (rewrite Hf; left; reflexivity).
        apply filter_In in Hx. destruct Hx as [Hx Hm].
        unfold finds, local_finds in Hx. apply in_map_iff in Hx.
        destruct Hx as (matcher & Heq & Hmatcher).
        exists matcher. split; [exact Hmatcher|].
        rewrite Heq. apply matched_true. exact Hm.
    + intros (matcher & Hmatcher & Hfound).
      assert (Hx : In (fst (EDA_PATTERN_MATCH.Find matcher aTerm)) (filter matched finds)).
      { apply filter_In. split.
        - unfold finds, local_finds.
          apply (in_map (fun m => fst (EDA_PATTERN_MATCH.Find m aTerm))). exact Hmatcher.
        - apply matched_true. exact Hfound. }
      apply Hsome. intros Hnil. rewrite Hnil in Hx. exact Hx.
Qed.

(** C2.  A matcher whose [SetPattern] returns [false] (a regular expression
    or a wildcard that does not compile) is not added by [AddMatcher]: the
    combined matcher and the log come back as they were, nothing reaches the
    caller.  [EDA_PATTERN_MATCH_SUBSTR::SetPattern] returns [true] for every
    pattern, so the substring matcher is always registered, last in the
    list. *)
Theorem invalid_pattern_excluded (aPattern : wxString) (w : wxLog) :
  (forall (o : EDA_PATTERN_MATCH_REGEX.t) (self : EDA_COMBINED_MATCHER.t),
     fst (fst (EDA_PATTERN_MATCH_REGEX.SetPattern aPattern o w)) = false ->
     EDA_COMBINED_MATCHER.AddMatcher aPattern (EDA_PATTERN_MATCH.Regex o) self w = (self, w)) /\
  (forall (o : EDA_PATTERN_MATCH_WILDCARD.t) (self : EDA_COMBINED_MATCHER.t),
     fst (fst (EDA_PATTERN_MATCH_WILDCARD.SetPattern aPattern o w)) = false ->
     EDA_COMBINED_MATCHER.AddMatcher aPattern (EDA_PATTERN_MATCH.Wildcard o) self w = (self, w)) /\
  (forall o : EDA_PATTERN_MATCH_SUBSTR.t,
     fst (fst (EDA_PATTERN_MATCH_SUBSTR.SetPattern aPattern o w)) = true) /\
  (exists front,
     EDA_COMBINED_MATCHER.m_matchers (fst (EDA_COMBINED_MATCHER.new aPattern w)) =
     front ++ [EDA_PATTERN_MATCH.Substr {| EDA_PATTERN_MATCH_SUBSTR.m_pattern := aPattern |}]) /\
  snd (EDA_COMBINED_MATCHER.new aPattern w) = w.
Proof.
  split; [|split; [|split; [|split]]].
  - intros o self Hfalse. rewrite AddMatcher_eq. cbv zeta.
    unfold EDA_PATTERN_MATCH.SetPattern, bind, ret.
    destruct (EDA_PATTERN_MATCH_REGEX.SetPattern aPattern o w) as [[b o'] w'].
    simpl in Hfalse. subst b. reflexivity.
  - intros o self Hfalse. rewrite AddMatcher_eq. cbv zeta.
    unfold EDA_PATTERN_MATCH.SetPattern, bind, ret.
    destruct (EDA_PATTERN_MATCH_WILDCARD.SetPattern aPattern o w) as [[b o'] w'].
    simpl in Hfalse. subst b. reflexivity.
  - intros o. reflexivity.
  - rewrite new_eq, registered_eq. cbn [fst EDA_COMBINED_MATCHER.m_matchers].
    rewrite app_assoc. eexists. reflexivity.
  - rewrite new_eq. reflexivity.
Qed.

(** C4.  The constructor makes three attempts with [AddMatcher], for a
    regular-expression, a wildcard and a substring matcher in this order, and
    [Find] reports in [aMatchersTriggered] how many of the registered
    matchers returned something else than [EDA_PATTERN_NOT_FOUND]. *)
Theorem three_variants_and_match_count (aPattern aTerm : wxString) (w : wxLog) :
  let self := fst (EDA_COMBINED_MATCHER.new aPattern w) in
  let r := fst (EDA_COMBINED_MATCHER.Find self aTerm) in
  EDA_COMBINED_MATCHER.new aPattern w =
    fold_left
      (fun sw variant => EDA_COMBINED_MATCHER.AddMatcher aPattern variant (fst sw) (snd sw))
      [ EDA_PATTERN_MATCH.Regex EDA_PATTERN_MATCH_REGEX.new;
        EDA_PATTERN_MATCH.Wildcard EDA_PATTERN_MATCH_WILDCARD.new;
        EDA_PATTERN_MATCH.Substr EDA_PATTERN_MATCH_SUBSTR.new ]
      ({| EDA_COMBINED_MATCHER.m_pattern := aPattern;
          EDA_COMBINED_MATCHER.m_matchers := [] |}, w) /\
  EDA_COMBINED_MATCHER.aMatchersTriggered r =
    Z.of_nat (length (filter (fun matcher =>
                                negb (fst (EDA_PATTERN_MATCH.Find matcher aTerm)
                                      =? EDA_PATTERN_NOT_FOUND))
                             (EDA_COMBINED_MATCHER.m_matchers self))) /\
  0 <= EDA_COMBINED_MATCHER.aMatchersTriggered r <= 3.
Proof.
  cbv zeta. split; [|split].
  - cbn [fold_left fst snd]. unfold EDA_COMBINED_MATCHER.new, bind, ret.
    destruct (EDA_COMBINED_MATCHER.AddMatcher aPattern _ _ w) as [s1 w1].
    cbn [fst snd].
    destruct (EDA_COMBINED_MATCHER.AddMatcher aPattern _ s1 w1) as [s2 w2].
    reflexivity.
  - pose proof (Find_eq (fst (EDA_COMBINED_MATCHER.new aPattern w)) aTerm) as HF.
    cbv zeta in HF. rewrite HF. clear HF.
    cbn [fst EDA_COMBINED_MATCHER.aMatchersTriggered].
    rewrite fold_step_count. unfold local_finds.
    induction (EDA_COMBINED_MATCHER.m_matchers (fst (EDA_COMBINED_MATCHER.new aPattern w)))
      as [|m ms IH]; [reflexivity|].
    cbn [map filter]. unfold matched at 1.
    destruct (negb (fst (EDA_PATTERN_MATCH.Find m aTerm) =? EDA_PATTERN_NOT_FOUND));
      cbn [length]; lia.
  - pose proof (Find_eq (fst (EDA_COMBINED_MATCHER.new aPattern w)) aTerm) as HF.
    cbv zeta in HF. rewrite HF. clear HF.
    cbn [fst EDA_COMBINED_MATCHER.aMatchersTriggered].
    rewrite fold_step_count.
    rewrite new_eq. cbn [fst EDA_COMBINED_MATCHER.m_matchers].
    assert (Hlen : (length (local_finds (registered aPattern w) aTerm) <= 3)%nat).
    { unfold local_finds. rewrite length_map, registered_eq, !length_app.
      destruct (regcomp aPattern wxRE_ADVANCED);
        destruct (regcomp (EDA_PATTERN_MATCH_WILDCARD.translate aPattern) wxRE_ADVANCED);
        cbn [length]; lia. }
    pose proof (filter_length_le matched (local_finds (registered aPattern w) aTerm)) as Hle.
    lia.
Qed.

End Combined.

(** ** The wildcard translation *)

Lemma translate_step_rule (regex : wxString) (c : wxUniChar) :
  EDA_PATTERN_MATCH_WILDCARD.translate_step regex c = regex ++ wildcard_rule c.
Proof.
  unfold EDA_PATTERN_MATCH_WILDCARD.translate_step, wildcard_rule.
  rewrite to_replace_test.
  destruct (c =? 63)%N; [reflexivity|].
  destruct (c =? 42)%N; [reflexivity|].
  destruct (existsb (N.eqb c) escaped); [|reflexivity].
  rewrite <- app_assoc. reflexivity.
Qed.

Lemma translate_loop (aPattern regex : wxString) :
  fold_left EDA_PATTERN_MATCH_WILDCARD.translate_step aPattern regex
  = regex ++ flat_map wildcard_rule aPattern.
Proof.
  revert regex. induction aPattern as [|c aPattern IH]; intros regex; simpl.
  - rewrite app_nil_r. reflexivity.
  - rewrite IH, translate_step_rule, app_assoc. reflexivity.
Qed.

Section Variants.
Context `{wxRegExEngine}.

(** C3.  [EDA_PATTERN_MATCH_WILDCARD::SetPattern] turns the wildcard into a
    regular expression one character at a time: [?] becomes [.], [*] becomes
    [.*], a character of [.*+?^${}()|[]/\] other than these two gets a
    backslash before it, any other character is copied.  The result is
    compiled as an advanced regular expression, and [SetPattern] returns
    whether that compilation succeeded. *)
Theorem wildcard_SetPattern_translation
    (aPattern : wxString) (self : EDA_PATTERN_MATCH_WILDCARD.t) (w : wxLog) :
  let regex := flat_map wildcard_rule aPattern in
  let r := fst (EDA_PATTERN_MATCH_WILDCARD.SetPattern aPattern self w) in
  EDA_PATTERN_MATCH_WILDCARD.translate aPattern = regex /\
  (forall c, wildcard_rule c =
             if (c =? 63)%N then wxT "."
             else if (c =? 42)%N then wxT ".*"
             else if existsb (N.eqb c) (wxT ".*+?^${}()|[]/\") then wxT "\" ++ [c]
             else [c]) /\
  fst r = match regcomp regex wxRE_ADVANCED with Some _ => true | None => false end /\
  m_impl (EDA_PATTERN_MATCH_REGEX.m_regex (EDA_PATTERN_MATCH_WILDCARD.base (snd r)))
    = regcomp regex wxRE_ADVANCED /\
  EDA_PATTERN_MATCH_REGEX.m_pattern (EDA_PATTERN_MATCH_WILDCARD.base (snd r)) = regex.
Proof.
  cbv zeta.
  assert (Htr : EDA_PATTERN_MATCH_WILDCARD.translate aPattern = flat_map wildcard_rule aPattern).
  { unfold EDA_PATTERN_MATCH_WILDCARD.translate. rewrite translate_loop. reflexivity. }
  split; [exact Htr|]. split; [intros c; reflexivity|].
  rewrite wildcard_SetPattern_eq, regex_SetPattern_eq, Htr. cbv zeta.
  cbn [fst snd].
  destruct (regcomp (flat_map wildcard_rule aPattern) wxRE_ADVANCED) as [re|];
    repeat split; reflexivity.
Qed.

(** [Find] changes no pattern. *)
Lemma Find_GetPattern (matcher : EDA_PATTERN_MATCH.t) (aCandidate : wxString) :
  EDA_PATTERN_MATCH.GetPattern (snd (EDA_PATTERN_MATCH.Find matcher aCandidate))
  = EDA_PATTERN_MATCH.GetPattern matcher.
Proof.
  destruct matcher as [o|o|o]; unfold EDA_PATTERN_MATCH.Find.
  - reflexivity.
  - unfold EDA_PATTERN_MATCH_REGEX.Find.
    destruct (wxRegEx_IsValid (EDA_PATTERN_MATCH_REGEX.m_regex o)); [|reflexivity].
    destruct (wxRegEx_Matches (EDA_PATTERN_MATCH_REGEX.m_regex o) aCandidate) as [[|] rx];
      reflexivity.
  - unfold EDA_PATTERN_MATCH_WILDCARD.Find, EDA_PATTERN_MATCH_REGEX.Find.
    destruct (wxRegEx_IsValid _); [|reflexivity].
    destruct (wxRegEx_Matches _ aCandidate) as [[|] rx]; reflexivity.
Qed.

(** C6.  Whatever the variant and whatever the object held before,
    [GetPattern] after [SetPattern( aPattern )] returns [aPattern], also
    when searches came in between.  For the wildcard variant this is the
    wildcard as it was given; the regular expression it was translated to
    is what the inherited part holds. *)
Theorem GetPattern_after_SetPattern
    (aPattern : wxString) (matcher : EDA_PATTERN_MATCH.t) (w : wxLog) :
  let matcher' := snd (fst (EDA_PATTERN_MATCH.SetPattern aPattern matcher w)) in
  EDA_PATTERN_MATCH.GetPattern matcher' = aPattern /\
  (forall candidates,
     EDA_PATTERN_MATCH.GetPattern
       (fold_left (fun m aCandidate => snd (EDA_PATTERN_MATCH.Find m aCandidate))
                  candidates matcher') = aPattern) /\
  (forall o : EDA_PATTERN_MATCH_WILDCARD.t,
     let o' := snd (fst (EDA_PATTERN_MATCH_WILDCARD.SetPattern aPattern o w)) in
     EDA_PATTERN_MATCH_WILDCARD.GetPattern o' = aPattern /\
     EDA_PATTERN_MATCH_REGEX.GetPattern (EDA_PATTERN_MATCH_WILDCARD.base o')
       = EDA_PATTERN_MATCH_WILDCARD.translate aPattern).
Proof.
  cbv zeta.
  assert (Hget : EDA_PATTERN_MATCH.GetPattern
                   (snd (fst (EDA_PATTERN_MATCH.SetPattern aPattern matcher w))) = aPattern).
  { destruct matcher as [o|o|o]; unfold EDA_PATTERN_MATCH.SetPattern, bind, ret.
    - reflexivity.
    - rewrite regex_SetPattern_eq.
      destruct (regcomp aPattern wxRE_ADVANCED); reflexivity.
    - rewrite wildcard_SetPattern_eq. reflexivity. }
  split; [exact Hget|]. split.
  - intros candidates. revert Hget.
    generalize (snd (fst (EDA_PATTERN_MATCH.SetPattern aPattern matcher w))).
    induction candidates as [|aCandidate candidates IH]; intros m Hm; simpl.
    + exact Hm.
    + apply IH. rewrite Find_GetPattern. exact Hm.
  - intros o. rewrite wildcard_SetPattern_eq, regex_SetPattern_eq. cbv zeta.
    cbn [fst snd]. split; [reflexivity|].
    destruct (regcomp (EDA_PATTERN_MATCH_WILDCARD.translate aPattern) wxRE_ADVANCED);
      reflexivity.
Qed.

End Variants.

(** ** Searching twice *)

Section Determinism.
Context `{wxRegExEngine}.

(** What a matcher's [Find] returns does not depend on the span a previous
    search stored, and the search changes nothing but that span. *)
Lemma regex_Find_forget (o : EDA_PATTERN_MATCH_REGEX.t) (aCandidate : wxString) :
  fst (EDA_PATTERN_MATCH_REGEX.Find o aCandidate)
    = fst (EDA_PATTERN_MATCH_REGEX.Find (forget_regex o) aCandidate) /\
  forget_regex (snd (EDA_PATTERN_MATCH_REGEX.Find o aCandidate)) = forget_regex o.
Proof.
  destruct o as [pattern [impl spans]].
  unfold EDA_PATTERN_MATCH_REGEX.Find, forget_regex, wxRegEx_IsValid, wxRegEx_Matches,
    wxRegEx_GetMatch.
  cbn [EDA_PATTERN_MATCH_REGEX.m_regex EDA_PATTERN_MATCH_REGEX.m_pattern m_impl m_Matches].
  destruct impl as [re|]; [|split; reflexivity].
  destruct (regexec re aCandidate) as [[start len]|]; split; reflexivity.
Qed.

Lemma Find_forget (matcher : EDA_PATTERN_MATCH.t) (aCandidate : wxString) :
  fst (EDA_PATTERN_MATCH.Find matcher aCandidate)
    = fst (EDA_PATTERN_MATCH.Find (forget matcher) aCandidate) /\
  forget (snd (EDA_PATTERN_MATCH.Find matcher aCandidate)) = forget matcher.
Proof.
  destruct matcher as [o|o|o]; unfold EDA_PATTERN_MATCH.Find, forget.
  - split; reflexivity.
  - destruct (regex_Find_forget o aCandidate) as [Hfst Hsnd].
    destruct (EDA_PATTERN_MATCH_REGEX.Find o aCandidate) as [r o'].
    destruct (EDA_PATTERN_MATCH_REGEX.Find (forget_regex o) aCandidate) as [r2 o2].
    simpl in *. split; [exact Hfst | rewrite Hsnd; reflexivity].
  - unfold EDA_PATTERN_MATCH_WILDCARD.Find.
    cbn [EDA_PATTERN_MATCH_WILDCARD.base EDA_PATTERN_MATCH_WILDCARD.m_wildcard_pattern].
    destruct (regex_Find_forget (EDA_PATTERN_MATCH_WILDCARD.base o) aCandidate) as [Hfst Hsnd].
    destruct (EDA_PATTERN_MATCH_REGEX.Find (EDA_PATTERN_MATCH_WILDCARD.base o) aCandidate)
      as [r o'].
    destruct (EDA_PATTERN_MATCH_REGEX.Find
                (forget_regex (EDA_PATTERN_MATCH_WILDCARD.base o)) aCandidate) as [r2 o2].
    simpl in *. split; [exact Hfst | rewrite Hsnd; reflexivity].
Qed.

(** Matcher lists that agree up to stored spans return the same values. *)
Lemma local_finds_forget (ms ms' : list EDA_PATTERN_MATCH.t) (aTerm : wxString) :
  map forget ms = map forget ms' -> local_finds ms aTerm = local_finds ms' aTerm.
Proof.
  revert ms'. induction ms as [|m ms IH]; intros [|m' ms'] Heq; simpl in Heq;
    try discriminate; [reflexivity|].
  injection Heq as Hm Hms. unfold local_finds. cbn [map].
  rewrite (proj1 (Find_forget m aTerm)), (proj1 (Find_forget m' aTerm)), Hm.
  f_equal. exact (IH ms' Hms).
Qed.

Lemma Find_matchers_forget (self : EDA_COMBINED_MATCHER.t) (aTerm : wxString) :
  map forget (EDA_COMBINED_MATCHER.m_matchers (snd (EDA_COMBINED_MATCHER.Find self aTerm)))
  = map forget (EDA_COMBINED_MATCHER.m_matchers self).
Proof.
  pose proof (Find_eq self aTerm) as HF. cbv zeta in HF. rewrite HF. clear HF.
  cbn [snd EDA_COMBINED_MATCHER.m_matchers].
  induction (EDA_COMBINED_MATCHER.m_matchers self) as [|m ms IH]; [reflexivity|].
  cbn [map]. rewrite (proj2 (Find_forget m aTerm)), IH. reflexivity.
Qed.

Lemma after_finds_forget (terms : list wxString) (self : EDA_COMBINED_MATCHER.t) :
  map forget (EDA_COMBINED_MATCHER.m_matchers (after_finds terms self))
  = map forget (EDA_COMBINED_MATCHER.m_matchers self).
Proof.
  revert self. induction terms as [|t terms IH]; intros self; [reflexivity|].
  change (after_finds (t :: terms) self)
    with (after_finds terms (snd (EDA_COMBINED_MATCHER.Find self t))).
  rewrite IH. apply Find_matchers_forget.
Qed.

Lemma Find_result_forget (self self' : EDA_COMBINED_MATCHER.t) (aTerm : wxString) :
  map forget (EDA_COMBINED_MATCHER.m_matchers self)
    = map forget (EDA_COMBINED_MATCHER.m_matchers self') ->
  fst (EDA_COMBINED_MATCHER.Find self aTerm) = fst (EDA_COMBINED_MATCHER.Find self' aTerm).
Proof.
  intros Heq.
  pose proof (Find_eq self aTerm) as HF. cbv zeta in HF. rewrite HF. clear HF.
  pose proof (Find_eq self' aTerm) as HF. cbv zeta in HF. rewrite HF. clear HF.
  cbn [fst]. rewrite (local_finds_forget _ _ aTerm Heq). reflexivity.
Qed.

(** C7.  [Find] is deterministic.  A second run on the same candidate,
    started from the matcher as the first run left it, gives the same return
    value, the same position and the same count; so does a run after any
    number of searches for other candidates.  The only thing a search changes
    in the matcher is the span its regular expressions remember. *)
Theorem combined_Find_deterministic (self : EDA_COMBINED_MATCHER.t) (aTerm : wxString) :
  let first := EDA_COMBINED_MATCHER.Find self aTerm in
  let second := EDA_COMBINED_MATCHER.Find (snd first) aTerm in
  EDA_COMBINED_MATCHER.returned (fst second) = EDA_COMBINED_MATCHER.returned (fst first) /\
  EDA_COMBINED_MATCHER.aPosition (fst second) = EDA_COMBINED_MATCHER.aPosition (fst first) /\
  EDA_COMBINED_MATCHER.aMatchersTriggered (fst second)
    = EDA_COMBINED_MATCHER.aMatchersTriggered (fst first) /\
  (forall between,
     fst (EDA_COMBINED_MATCHER.Find (after_finds between self) aTerm) = fst first).
Proof.
  cbv zeta.
  assert (Hsame : fst (EDA_COMBINED_MATCHER.Find
                         (snd (EDA_COMBINED_MATCHER.Find self aTerm)) aTerm)
                  = fst (EDA_COMBINED_MATCHER.Find self aTerm)).
  { apply Find_result_forget. apply Find_matchers_forget. }
  rewrite Hsame. repeat split; try reflexivity.
  intros between. apply Find_result_forget. apply after_finds_forget.
Qed.

End Determinism.

(** ** Invalid expressions, the substring fallback and the range of [Find] *)

(** The substring search: [EDA_PATTERN_NOT_FOUND] when the pattern does not
    occur, the offset of its first occurrence when that is at most
    [INT_MAX]. *)
Lemma substr_Find_absent (pattern aCandidate : wxString) :
  ~ contains aCandidate pattern ->
  EDA_PATTERN_MATCH_SUBSTR.Find {| EDA_PATTERN_MATCH_SUBSTR.m_pattern := pattern |} aCandidate
  = EDA_PATTERN_NOT_FOUND.
Proof.
  intros Habsent. unfold EDA_PATTERN_MATCH_SUBSTR.Find, wxString_Find.
  cbn [EDA_PATTERN_MATCH_SUBSTR.m_pattern].
  destruct (find aCandidate pattern) as [idx|] eqn:Hf; [|reflexivity].
  exfalso. apply Habsent.
  destruct (find_occurs _ _ _ Hf) as (pre & post & Heq & _).
  exists pre, post. exact Heq.
Qed.

Lemma substr_Find_present (pattern pre post : wxString) :
  Z.of_nat (length pre) <= INT_MAX ->
  let r := EDA_PATTERN_MATCH_SUBSTR.Find
             {| EDA_PATTERN_MATCH_SUBSTR.m_pattern := pattern |} (pre ++ pattern ++ post) in
  0 <= r <= Z.of_nat (length pre) /\
  occurs_at pattern (pre ++ pattern ++ post) (Z.to_nat r).
Proof.
  intros Hle. cbv zeta. unfold EDA_PATTERN_MATCH_SUBSTR.Find.
  cbn [EDA_PATTERN_MATCH_SUBSTR.m_pattern].
  destruct (wxString_Find_found pre pattern post Hle) as (idx & Hidx & Hfind & Hrange).
  rewrite Hfind. unfold wxNOT_FOUND.
  destruct (Z.eqb_spec (Z.of_N idx) (-1)) as [Hneg|_]; [lia|].
  split; [exact Hrange|].
  replace (Z.to_nat (Z.of_N idx)) with (N.to_nat idx) by lia.
  exact (find_occurs _ _ _ Hidx).
Qed.

(** A text of [n] characters [b] followed by the character [a]. *)
Lemma find_after_repeat (a b : N) (n : nat) :
  a <> b -> find (repeat b n ++ [a]) [a] = Some (N.of_nat n).
Proof.
  intros Hab. induction n as [|n IH].
  - simpl. rewrite N.eqb_refl. reflexivity.
  - cbn [repeat app find starts_with].
    destruct (N.eqb_spec a b) as [Heq|_]; [contradiction|].
    cbn [andb]. rewrite IH. cbn [option_map]. rewrite Nat2N.inj_succ. reflexivity.
Qed.

(** The clamp of [EDA_PATTERN_MATCH_REGEX::Find]. *)
Lemma clamp_start_min (start : N) :
  EDA_PATTERN_MATCH_REGEX.clamp_start start = Z.min (Z.of_N start) INT_MAX.
Proof.
  unfold EDA_PATTERN_MATCH_REGEX.clamp_start.
  destruct (N.ltb_spec (Z.to_N INT_MAX) start) as [Hlt|Hge].
  - rewrite int_of_size_t_small by (unfold INT_MAX; simpl; lia).
    unfold INT_MAX in *. lia.
  - rewrite int_of_size_t_small by (unfold INT_MAX in *; lia).
    unfold INT_MAX in *. lia.
Qed.

Section Fallback.
Context `{wxRegExEngine}.

(** A [SetPattern] that returns [false] leaves the regular expression
    invalid and the pattern stored. *)
Lemma failed_SetPattern_invalid (aPattern : wxString) (o : EDA_PATTERN_MATCH_REGEX.t) (w : wxLog) :
  fst (fst (EDA_PATTERN_MATCH_REGEX.SetPattern aPattern o w)) = false ->
  let o' := snd (fst (EDA_PATTERN_MATCH_REGEX.SetPattern aPattern o w)) in
  wxRegEx_IsValid (EDA_PATTERN_MATCH_REGEX.m_regex o') = false /\
  EDA_PATTERN_MATCH_REGEX.m_pattern o' = aPattern.
Proof.
  rewrite regex_SetPattern_eq. cbv zeta.
  destruct (regcomp aPattern wxRE_ADVANCED); cbn [fst snd]; intros Hf;
    [discriminate | split; reflexivity].
Qed.

(** C8.  When the regular expression of an [EDA_PATTERN_MATCH_REGEX] object
    is not valid, [Find] still answers: it searches the candidate for the
    stored pattern [m_pattern] as a literal substring, exactly as the
    substring matcher would, and leaves the object as it is.  The same holds
    for a wildcard matcher, whose stored [m_pattern] is the regular
    expression the wildcard was translated to.  The answer is
    [EDA_PATTERN_NOT_FOUND] when the pattern does not occur and the offset
    of its first occurrence when that is at most [INT_MAX]. *)
Theorem invalid_regex_Find_falls_back (o : EDA_PATTERN_MATCH_REGEX.t) (aCandidate : wxString) :
  wxRegEx_IsValid (EDA_PATTERN_MATCH_REGEX.m_regex o) = false ->
  let pattern := EDA_PATTERN_MATCH_REGEX.m_pattern o in
  let loc := wxString_Find aCandidate pattern in
  let r := fst (EDA_PATTERN_MATCH_REGEX.Find o aCandidate) in
  EDA_PATTERN_MATCH_REGEX.Find o aCandidate =
    (EDA_PATTERN_MATCH_SUBSTR.Find {| EDA_PATTERN_MATCH_SUBSTR.m_pattern := pattern |} aCandidate,
     o) /\
  r = (if loc =? wxNOT_FOUND then EDA_PATTERN_NOT_FOUND else loc) /\
  (forall wildcard,
     EDA_PATTERN_MATCH_WILDCARD.Find
       {| EDA_PATTERN_MATCH_WILDCARD.base := o;
          EDA_PATTERN_MATCH_WILDCARD.m_wildcard_pattern := wildcard |} aCandidate
     = (r, {| EDA_PATTERN_MATCH_WILDCARD.base := o;
              EDA_PATTERN_MATCH_WILDCARD.m_wildcard_pattern := wildcard |})) /\
  (~ contains aCandidate pattern -> r = EDA_PATTERN_NOT_FOUND) /\
  (forall pre post,
     aCandidate = pre ++ pattern ++ post -> Z.of_nat (length pre) <= INT_MAX ->
     0 <= r <= Z.of_nat (length pre) /\ occurs_at pattern aCandidate (Z.to_nat r)).
Proof.
  intros Hinvalid. cbv zeta.
  assert (HF : EDA_PATTERN_MATCH_REGEX.Find o aCandidate =
               (EDA_PATTERN_MATCH_SUBSTR.Find
                  {| EDA_PATTERN_MATCH_SUBSTR.m_pattern := EDA_PATTERN_MATCH_REGEX.m_pattern o |}
                  aCandidate, o)).
  { unfold EDA_PATTERN_MATCH_REGEX.Find. rewrite Hinvalid. reflexivity. }
  split; [exact HF|]. split; [rewrite HF; reflexivity|]. split; [|split].
  - intros wildcard. unfold EDA_PATTERN_MATCH_WILDCARD.Find.
    cbn [EDA_PATTERN_MATCH_WILDCARD.base EDA_PATTERN_MATCH_WILDCARD.m_wildcard_pattern].
    rewrite HF. reflexivity.
  - intros Habsent. rewrite HF. cbn [fst]. apply substr_Find_absent. exact Habsent.
  - intros pre post Heq Hle. rewrite HF. cbn [fst]. rewrite Heq.
    exact (substr_Find_present _ pre post Hle).
Qed.

(** After a [SetPattern] that failed, a direct [Find] searches for the
    text [SetPattern] stored: the pattern itself for the regular-expression
    matcher, the translated pattern for the wildcard matcher. *)
Lemma failed_regex_Find (aPattern aCandidate : wxString)
    (o : EDA_PATTERN_MATCH_REGEX.t) (w : wxLog) :
  fst (fst (EDA_PATTERN_MATCH_REGEX.SetPattern aPattern o w)) = false ->
  fst (EDA_PATTERN_MATCH_REGEX.Find
         (snd (fst (EDA_PATTERN_MATCH_REGEX.SetPattern aPattern o w))) aCandidate)
  = EDA_PATTERN_MATCH_SUBSTR.Find
      {| EDA_PATTERN_MATCH_SUBSTR.m_pattern := aPattern |} aCandidate.
Proof.
  intros Hfailed.
  destruct (failed_SetPattern_invalid aPattern o w Hfailed) as [Hinvalid Hpattern].
  unfold EDA_PATTERN_MATCH_REGEX.Find. rewrite Hinvalid. cbn [fst].
  rewrite Hpattern. reflexivity.
Qed.

Lemma failed_wildcard_Find (aPattern aCandidate : wxString)
    (o : EDA_PATTERN_MATCH_WILDCARD.t) (w : wxLog) :
  fst (fst (EDA_PATTERN_MATCH_WILDCARD.SetPattern aPattern o w)) = false ->
  fst (EDA_PATTERN_MATCH_WILDCARD.Find
         (snd (fst (EDA_PATTERN_MATCH_WILDCARD.SetPattern aPattern o w))) aCandidate)
  = EDA_PATTERN_MATCH_SUBSTR.Find
      {| EDA_PATTERN_MATCH_SUBSTR.m_pattern := EDA_PATTERN_MATCH_WILDCARD.translate aPattern |}
      aCandidate.
Proof.
  rewrite wildcard_SetPattern_eq. cbv zeta. cbn [fst snd]. intros Hfailed.
  unfold EDA_PATTERN_MATCH_WILDCARD.Find. cbn [EDA_PATTERN_MATCH_WILDCARD.base].
  pose proof (failed_regex_Find (EDA_PATTERN_MATCH_WILDCARD.translate aPattern) aCandidate
                (EDA_PATTERN_MATCH_WILDCARD.base o) w Hfailed) as Hbase.
  destruct (EDA_PATTERN_MATCH_REGEX.Find _ aCandidate) as [r b]. exact Hbase.
Qed.

(** The substring matcher for [aPattern] is in the list, and stays there. *)
Lemma run_keeps_substr (aPattern : wxString) (o : EDA_COMBINED_MATCHER.op)
    (self : EDA_COMBINED_MATCHER.t) (w : wxLog) :
  In (EDA_PATTERN_MATCH.Substr {| EDA_PATTERN_MATCH_SUBSTR.m_pattern := aPattern |})
     (EDA_COMBINED_MATCHER.m_matchers self) ->
  In (EDA_PATTERN_MATCH.Substr {| EDA_PATTERN_MATCH_SUBSTR.m_pattern := aPattern |})
     (EDA_COMBINED_MATCHER.m_matchers (fst (EDA_COMBINED_MATCHER.run o self w))).
Proof.
  intros Hin. destruct o as [aTerm| |p m]; unfold EDA_COMBINED_MATCHER.run.
  - unfold ret. cbn [fst].
    pose proof (Find_eq self aTerm) as HF. cbv zeta in HF. rewrite HF. clear HF.
    cbn [snd EDA_COMBINED_MATCHER.m_matchers].
    apply (in_map (fun matcher => snd (EDA_PATTERN_MATCH.Find matcher aTerm))) in Hin.
    exact Hin.
  - exact Hin.
  - rewrite AddMatcher_eq. cbv zeta. cbn [fst].
    destruct (fst (fst (EDA_PATTERN_MATCH.SetPattern p m w))); [|exact Hin].
    cbn [EDA_COMBINED_MATCHER.m_matchers]. apply in_or_app. left. exact Hin.
Qed.

Lemma run_all_keeps_substr (aPattern : wxString) (ops : list EDA_COMBINED_MATCHER.op)
    (self : EDA_COMBINED_MATCHER.t) (w : wxLog) :
  In (EDA_PATTERN_MATCH.Substr {| EDA_PATTERN_MATCH_SUBSTR.m_pattern := aPattern |})
     (EDA_COMBINED_MATCHER.m_matchers self) ->
  In (EDA_PATTERN_MATCH.Substr {| EDA_PATTERN_MATCH_SUBSTR.m_pattern := aPattern |})
     (EDA_COMBINED_MATCHER.m_matchers (fst (EDA_COMBINED_MATCHER.run_all ops self w))).
Proof.
  revert self w. induction ops as [|o ops IH]; intros self w Hin.
  - exact Hin.
  - cbn [EDA_COMBINED_MATCHER.run_all]. unfold bind.
    pose proof (run_keeps_substr aPattern o self w Hin) as Hstep.
    destruct (EDA_COMBINED_MATCHER.run o self w) as [self' w'].
    apply IH. exact Hstep.
Qed.

(** With the substring matcher in the list, [Find] returns [true] as soon
    as the offset of the first occurrence, converted to [int], is not
    [wxNOT_FOUND]. *)
Lemma substr_registered_found (aPattern aCandidate : wxString) (idx : N)
    (self : EDA_COMBINED_MATCHER.t) :
  In (EDA_PATTERN_MATCH.Substr {| EDA_PATTERN_MATCH_SUBSTR.m_pattern := aPattern |})
     (EDA_COMBINED_MATCHER.m_matchers self) ->
  find aCandidate aPattern = Some idx ->
  int_of_size_t idx <> wxNOT_FOUND ->
  EDA_COMBINED_MATCHER.returned (fst (EDA_COMBINED_MATCHER.Find self aCandidate)) = true.
Proof.
  intros Hin Hidx Hconv.
  pose proof (Find_eq self aCandidate) as HF. cbv zeta in HF. rewrite HF. clear HF.
  cbn [fst EDA_COMBINED_MATCHER.returned].
  set (finds := local_finds (EDA_COMBINED_MATCHER.m_matchers self) aCandidate).
  destruct (fold_step_position finds 0) as [_ Hsome].
  apply negb_true_iff, Z.eqb_neq, Hsome.
  assert (Hr : EDA_PATTERN_MATCH_SUBSTR.Find
                 {| EDA_PATTERN_MATCH_SUBSTR.m_pattern := aPattern |} aCandidate
               = int_of_size_t idx).
  { unfold EDA_PATTERN_MATCH_SUBSTR.Find, wxString_Find.
    cbn [EDA_PATTERN_MATCH_SUBSTR.m_pattern]. rewrite Hidx.
    destruct (Z.eqb_spec (int_of_size_t idx) wxNOT_FOUND); [contradiction | reflexivity]. }
  assert (Hx : In (int_of_size_t idx) (filter matched finds)).
  { apply filter_In. split.
    - rewrite <- Hr. unfold finds, local_finds.
      apply (in_map (fun m => fst (EDA_PATTERN_MATCH.Find m aCandidate))) in Hin.
      exact Hin.
    - apply matched_true. exact Hconv. }
  intros Hnil. rewrite Hnil in Hx. exact Hx.
Qed.

(** The one offset whose conversion to [int] is [wxNOT_FOUND]. *)
Lemma int_of_size_t_not_found (idx : N) :
  int_of_size_t idx = wxNOT_FOUND -> Z.of_N idx mod 4294967296 = 4294967295.
Proof.
  unfold int_of_size_t, wxNOT_FOUND. cbv zeta.
  pose proof (Z.mod_pos_bound (Z.of_N idx) 4294967296 ltac:(lia)) as Hb.
  destruct (Z.leb_spec (Z.of_N idx mod 4294967296) INT_MAX); unfold INT_MAX in *; lia.
Qed.

(** A matcher of the list that matches makes [Find] return [true]. *)
Lemma registered_matcher_found (matcher : EDA_PATTERN_MATCH.t) (aCandidate : wxString)
    (self : EDA_COMBINED_MATCHER.t) :
  In matcher (EDA_COMBINED_MATCHER.m_matchers self) ->
  fst (EDA_PATTERN_MATCH.Find matcher aCandidate) <> EDA_PATTERN_NOT_FOUND ->
  EDA_COMBINED_MATCHER.returned (fst (EDA_COMBINED_MATCHER.Find self aCandidate)) = true.
Proof.
  intros Hin Hfound.
  pose proof (Find_eq self aCandidate) as HF. cbv zeta in HF. rewrite HF. clear HF.
  cbn [fst EDA_COMBINED_MATCHER.returned].
  set (finds := local_finds (EDA_COMBINED_MATCHER.m_matchers self) aCandidate).
  destruct (fold_step_position finds 0) as [_ Hsome].
  apply negb_true_iff, Z.eqb_neq, Hsome.
  assert (Hx : In (fst (EDA_PATTERN_MATCH.Find matcher aCandidate)) (filter matched finds)).
  { apply filter_In. split.
    - unfold finds, local_finds.
      exact (in_map (fun m => fst (EDA_PATTERN_MATCH.Find m aCandidate)) _ _ Hin).
    - apply matched_true. exact Hfound. }
  intros Hnil. rewrite Hnil in Hx. exact Hx.
Qed.

(** Whatever matcher is in the list stays in it; a search changes at most
    the span it stored. *)
Lemma run_keeps_matcher (kept : EDA_PATTERN_MATCH.t) (o : EDA_COMBINED_MATCHER.op)
    (self : EDA_COMBINED_MATCHER.t) (w : wxLog) :
  (exists matcher,
     In matcher (EDA_COMBINED_MATCHER.m_matchers self) /\ forget matcher = forget kept) ->
  exists matcher,
    In matcher (EDA_COMBINED_MATCHER.m_matchers (fst (EDA_COMBINED_MATCHER.run o self w))) /\
    forget matcher = forget kept.
Proof.
  intros (m & Hin & Hm). destruct o as [aTerm| |p added]; unfold EDA_COMBINED_MATCHER.run.
  - unfold ret. cbn [fst].
    pose proof (Find_eq self aTerm) as HF. cbv zeta in HF. rewrite HF. clear HF.
    cbn [snd EDA_COMBINED_MATCHER.m_matchers].
    exists (snd (EDA_PATTERN_MATCH.Find m aTerm)). split.
    + exact (in_map (fun matcher => snd (EDA_PATTERN_MATCH.Find matcher aTerm)) _ _ Hin).
    + rewrite (proj2 (Find_forget m aTerm)). exact Hm.
  - exists m. split; assumption.
  - rewrite AddMatcher_eq. cbv zeta. cbn [fst]. exists m. split; [|exact Hm].
    destruct (fst (fst (EDA_PATTERN_MATCH.SetPattern p added w))); [|exact Hin].
    cbn [EDA_COMBINED_MATCHER.m_matchers]. apply in_or_app. left. exact Hin.
Qed.

Lemma run_all_keeps_matcher (kept : EDA_PATTERN_MATCH.t) (ops : list EDA_COMBINED_MATCHER.op)
    (self : EDA_COMBINED_MATCHER.t) (w : wxLog) :
  (exists matcher,
     In matcher (EDA_COMBINED_MATCHER.m_matchers self) /\ forget matcher = forget kept) ->
  exists matcher,
    In matcher (EDA_COMBINED_MATCHER.m_matchers
                  (fst (EDA_COMBINED_MATCHER.run_all ops self w))) /\
    forget matcher = forget kept.
Proof.
  revert self w. induction ops as [|o ops IH]; intros self w Hkept.
  - exact Hkept.
  - cbn [EDA_COMBINED_MATCHER.run_all]. unfold bind.
    pose proof (run_keeps_matcher kept o self w Hkept) as Hstep.
    destruct (EDA_COMBINED_MATCHER.run o self w) as [self' w'].
    apply IH. exact Hstep.
Qed.

(** A wildcard matcher whose expression matches in the candidate reports a
    position: the start of the match, clamped, is never
    [EDA_PATTERN_NOT_FOUND]. *)
Lemma wildcard_Find_matched (regex wildcard aCandidate : wxString)
    (re : regex_t) (span : N * N) :
  regexec re aCandidate = Some span ->
  fst (EDA_PATTERN_MATCH.Find
         (EDA_PATTERN_MATCH.Wildcard
            {| EDA_PATTERN_MATCH_WILDCARD.base :=
                 {| EDA_PATTERN_MATCH_REGEX.m_pattern := regex;
                    EDA_PATTERN_MATCH_REGEX.m_regex :=
                      {| m_impl := Some re; m_Matches := None |} |};
               EDA_PATTERN_MATCH_WILDCARD.m_wildcard_pattern := wildcard |})
         aCandidate) <> EDA_PATTERN_NOT_FOUND.
Proof.
  intros Hexec.
  unfold EDA_PATTERN_MATCH.Find, EDA_PATTERN_MATCH_WILDCARD.Find,
    EDA_PATTERN_MATCH_REGEX.Find, wxRegEx_IsValid, wxRegEx_Matches, wxRegEx_GetMatch.
  cbn [EDA_PATTERN_MATCH_WILDCARD.base EDA_PATTERN_MATCH_REGEX.m_regex m_impl].
  rewrite Hexec. destruct span as [start len]. cbn [fst m_impl m_Matches].
  rewrite clamp_start_min. unfold EDA_PATTERN_NOT_FOUND, wxNOT_FOUND, INT_MAX. lia.
Qed.

(** C9.  After construction the list of matchers is not empty: it holds the
    substring matcher for the pattern.  Every operation keeps it so.
    Consequently [Find] returns [true] for every candidate that literally
    contains the pattern.  The substring matcher sees to it whenever the
    offset of the first occurrence, converted to [int] by [wxString::Find],
    is not [wxNOT_FOUND]: at every offset of at most [INT_MAX], and at any
    other offset but those that are 2^32 - 1 modulo 2^32.  At those the
    wildcard matcher, registered by the constructor as well and kept by
    every operation, sees to it: on an engine that honours wildcards [Find]
    returns [true] for every candidate that contains the pattern, without
    exception. *)
Theorem substring_matcher_stays_registered
    (aPattern : wxString) (w w' : wxLog) (ops : list EDA_COMBINED_MATCHER.op) :
  let fresh := fst (EDA_COMBINED_MATCHER.new aPattern w) in
  let self := fst (EDA_COMBINED_MATCHER.run_all ops fresh w') in
  let substr := EDA_PATTERN_MATCH.Substr {| EDA_PATTERN_MATCH_SUBSTR.m_pattern := aPattern |} in
  EDA_COMBINED_MATCHER.m_matchers fresh <> [] /\
  In substr (EDA_COMBINED_MATCHER.m_matchers fresh) /\
  EDA_COMBINED_MATCHER.m_matchers self <> [] /\
  In substr (EDA_COMBINED_MATCHER.m_matchers self) /\
  (forall pre post,
     Z.of_nat (length pre) <= INT_MAX ->
     EDA_COMBINED_MATCHER.returned
       (fst (EDA_COMBINED_MATCHER.Find self (pre ++ aPattern ++ post))) = true) /\
  (forall aCandidate,
     contains aCandidate aPattern ->
     EDA_COMBINED_MATCHER.returned (fst (EDA_COMBINED_MATCHER.Find self aCandidate)) = true \/
     exists idx, find aCandidate aPattern = Some idx /\
                 Z.of_N idx mod 4294967296 = 4294967295) /\
  (honours_wildcards ->
   forall aCandidate,
     contains aCandidate aPattern ->
     EDA_COMBINED_MATCHER.returned (fst (EDA_COMBINED_MATCHER.Find self aCandidate)) = true).
Proof.
  cbv zeta.
  assert (Hfresh : In (EDA_PATTERN_MATCH.Substr
                         {| EDA_PATTERN_MATCH_SUBSTR.m_pattern := aPattern |})
                      (EDA_COMBINED_MATCHER.m_matchers
                         (fst (EDA_COMBINED_MATCHER.new aPattern w)))).
  { rewrite new_eq, registered_eq. cbn [fst EDA_COMBINED_MATCHER.m_matchers].
    apply in_or_app. right. apply in_or_app. right. left. reflexivity. }
  pose proof (run_all_keeps_substr aPattern ops _ w' Hfresh) as Hself.
  split; [intros Hnil; rewrite Hnil in Hfresh; exact Hfresh|].
  split; [exact Hfresh|].
  split; [intros Hnil; rewrite Hnil in Hself; exact Hself|].
  split; [exact Hself|]. split; [|split].
  - intros pre post Hle.
    destruct (wxString_Find_found pre aPattern post Hle) as (idx & Hidx & _ & Hrange).
    apply (substr_registered_found aPattern _ idx _ Hself Hidx).
    rewrite int_of_size_t_small by lia. unfold wxNOT_FOUND. lia.
  - intros aCandidate (pre & post & Heq). subst aCandidate.
    destruct (find_first pre aPattern post) as (idx & Hidx & _).
    destruct (Z.eq_dec (int_of_size_t idx) wxNOT_FOUND) as [Hcollide|Hconv].
    + right. exists idx. split; [exact Hidx | exact (int_of_size_t_not_found idx Hcollide)].
    + left. exact (substr_registered_found aPattern _ idx _ Hself Hidx Hconv).
  - intros Hengine aCandidate Hcontains.
    destruct (list_eq_dec N.eq_dec aPattern []) as [Hempty|Hletters].
    { subst aPattern.
      destruct (wxString_Find_found [] [] aCandidate) as (idx & Hidx & _ & Hrange);
        [unfold INT_MAX; simpl; lia|].
      apply (substr_registered_found [] aCandidate idx _ Hself Hidx).
      rewrite int_of_size_t_small by (unfold INT_MAX; simpl in Hrange; lia).
      unfold wxNOT_FOUND. lia. }
    destruct (Hengine aPattern aCandidate Hletters Hcontains)
      as (re & span & Hcomp & Hexec).
    set (wildcard :=
           EDA_PATTERN_MATCH.Wildcard
             {| EDA_PATTERN_MATCH_WILDCARD.base :=
                  {| EDA_PATTERN_MATCH_REGEX.m_pattern :=
                       EDA_PATTERN_MATCH_WILDCARD.translate aPattern;
                     EDA_PATTERN_MATCH_REGEX.m_regex :=
                       {| m_impl := Some re; m_Matches := None |} |};
                EDA_PATTERN_MATCH_WILDCARD.m_wildcard_pattern := aPattern |}).
    assert (Hw : In wildcard (EDA_COMBINED_MATCHER.m_matchers
                                (fst (EDA_COMBINED_MATCHER.new aPattern w)))).
    { rewrite new_eq, registered_eq, Hcomp. cbn [fst EDA_COMBINED_MATCHER.m_matchers].
      apply in_or_app. right. apply in_or_app. left. left. reflexivity. }
    destruct (run_all_keeps_matcher wildcard ops _ w'
                (ex_intro _ wildcard (conj Hw eq_refl))) as (m & Hin & Hm).
    apply (registered_matcher_found m aCandidate _ Hin).
    rewrite (proj1 (Find_forget m aCandidate)), Hm,
      <- (proj1 (Find_forget wildcard aCandidate)).
    exact (wildcard_Find_matched _ _ _ re span Hexec).
Qed.

End Fallback.

Section Range.
Context `{wxRegExEngine}.

(** After a successful [Matches], [GetMatch] has a span to give: the one the
    engine reported.  [Find] therefore never reads a [start] that was not
    written. *)
Lemma Matches_stores_span (rx rx' : wxRegEx) (text : wxString) :
  wxRegEx_Matches rx text = (true, rx') ->
  exists re span,
    m_impl rx = Some re /\ regexec re text = Some span /\
    wxRegEx_GetMatch rx' = Some span.
Proof.
  unfold wxRegEx_Matches, wxRegEx_GetMatch. intros HM.
  destruct (m_impl rx) as [re|] eqn:Himpl; [|discriminate].
  destruct (regexec re text) as [span|] eqn:Hexec; [|discriminate].
  injection HM as <-. cbn [m_impl m_Matches].
  exists re, span. repeat split; reflexivity || assumption.
Qed.

(** With a valid regular expression, [Find] is the clamped start of the
    match the engine reports, or [EDA_PATTERN_NOT_FOUND]. *)
Lemma valid_regex_Find (o : EDA_PATTERN_MATCH_REGEX.t) (re : regex_t) (aCandidate : wxString) :
  m_impl (EDA_PATTERN_MATCH_REGEX.m_regex o) = Some re ->
  fst (EDA_PATTERN_MATCH_REGEX.Find o aCandidate) =
  match regexec re aCandidate with
  | Some (start, _) => Z.min (Z.of_N start) INT_MAX
  | None => EDA_PATTERN_NOT_FOUND
  end.
Proof.
  intros Himpl.
  unfold EDA_PATTERN_MATCH_REGEX.Find, wxRegEx_IsValid, wxRegEx_Matches, wxRegEx_GetMatch.
  rewrite Himpl.
  destruct (regexec re aCandidate) as [[start len]|]; cbn [fst m_impl m_Matches].
  - apply clamp_start_min.
  - reflexivity.
Qed.

(** C10, as the code has it.  With a valid regular expression [Find]
    returns [EDA_PATTERN_NOT_FOUND] or the start of the match clamped to
    [INT_MAX], whatever the candidate.  The substring search, and with it
    the search of a matcher whose expression is not valid, returns
    [EDA_PATTERN_NOT_FOUND] or a position in [0, INT_MAX] for every
    candidate of at most [INT_MAX] characters. *)
Theorem Find_returns_position_or_not_found :
  (forall (o : EDA_PATTERN_MATCH_REGEX.t) (aCandidate : wxString),
     wxRegEx_IsValid (EDA_PATTERN_MATCH_REGEX.m_regex o) = true ->
     let r := fst (EDA_PATTERN_MATCH_REGEX.Find o aCandidate) in
     (r = EDA_PATTERN_NOT_FOUND \/ is_position r) /\
     (forall re start len,
        m_impl (EDA_PATTERN_MATCH_REGEX.m_regex o) = Some re ->
        regexec re aCandidate = Some (start, len) ->
        r = Z.min (Z.of_N start) INT_MAX /\
        (INT_MAX < Z.of_N start -> r = INT_MAX))) /\
  (forall (matcher : EDA_PATTERN_MATCH.t) (aCandidate : wxString),
     Z.of_nat (length aCandidate) <= INT_MAX ->
     let r := fst (EDA_PATTERN_MATCH.Find matcher aCandidate) in
     r = EDA_PATTERN_NOT_FOUND \/ is_position r).
Proof.
  assert (Hvalid : forall (o : EDA_PATTERN_MATCH_REGEX.t) (aCandidate : wxString),
             wxRegEx_IsValid (EDA_PATTERN_MATCH_REGEX.m_regex o) = true ->
             fst (EDA_PATTERN_MATCH_REGEX.Find o aCandidate) = EDA_PATTERN_NOT_FOUND \/
             is_position (fst (EDA_PATTERN_MATCH_REGEX.Find o aCandidate))).
  { intros o aCandidate Hv. unfold wxRegEx_IsValid in Hv.
    destruct (m_impl (EDA_PATTERN_MATCH_REGEX.m_regex o)) as [re|] eqn:Himpl; [|discriminate].
    rewrite (valid_regex_Find o re aCandidate Himpl).
    destruct (regexec re aCandidate) as [[start len]|]; [right | left; reflexivity].
    unfold is_position, INT_MAX. lia. }
  assert (Hshort : forall (o : EDA_PATTERN_MATCH_REGEX.t) (aCandidate : wxString),
             Z.of_nat (length aCandidate) <= INT_MAX ->
             fst (EDA_PATTERN_MATCH_REGEX.Find o aCandidate) = EDA_PATTERN_NOT_FOUND \/
             is_position (fst (EDA_PATTERN_MATCH_REGEX.Find o aCandidate))).
  { intros o aCandidate Hle.
    destruct (wxRegEx_IsValid (EDA_PATTERN_MATCH_REGEX.m_regex o)) eqn:Hv.
    - exact (Hvalid o aCandidate Hv).
    - unfold EDA_PATTERN_MATCH_REGEX.Find. rewrite Hv. cbn [fst].
      destruct (wxString_Find_short aCandidate (EDA_PATTERN_MATCH_REGEX.m_pattern o) Hle)
        as [Hnf | Hpos].
      + rewrite Hnf. left. reflexivity.
      + destruct (Z.eqb_spec (wxString_Find aCandidate (EDA_PATTERN_MATCH_REGEX.m_pattern o))
                    wxNOT_FOUND); [left; reflexivity | right; exact Hpos]. }
  split.
  - intros o aCandidate Hv. cbv zeta. split; [exact (Hvalid o aCandidate Hv)|].
    intros re start len Himpl Hexec.
    rewrite (valid_regex_Find o re aCandidate Himpl), Hexec.
    split; [reflexivity | intros Hbig; lia].
  - intros matcher aCandidate Hle. cbv zeta.
    destruct matcher as [o|o|o]; unfold EDA_PATTERN_MATCH.Find.
    + cbn [fst]. unfold EDA_PATTERN_MATCH_SUBSTR.Find.
      destruct (wxString_Find_short aCandidate (EDA_PATTERN_MATCH_SUBSTR.m_pattern o) Hle)
        as [Hnf | Hpos].
      * rewrite Hnf. left. reflexivity.
      * destruct (Z.eqb_spec (wxString_Find aCandidate (EDA_PATTERN_MATCH_SUBSTR.m_pattern o))
                    wxNOT_FOUND); [left; reflexivity | right; exact Hpos].
    + pose proof (Hshort o aCandidate Hle) as Hr.
      destruct (EDA_PATTERN_MATCH_REGEX.Find o aCandidate) as [r o']. exact Hr.
    + unfold EDA_PATTERN_MATCH_WILDCARD.Find.
      pose proof (Hshort (EDA_PATTERN_MATCH_WILDCARD.base o) aCandidate Hle) as Hr.
      destruct (EDA_PATTERN_MATCH_REGEX.Find (EDA_PATTERN_MATCH_WILDCARD.base o) aCandidate)
        as [r o']. exact Hr.
Qed.

End Range.

(** C10, as it is stated, fails.  In a candidate made of 2^31 characters
    [b] and then an [a], the pattern [a] sits at offset 2^31;
    [wxString::Find] hands that offset back as an [int], and the substring
    matcher returns -2^31: neither [EDA_PATTERN_NOT_FOUND] nor a position. *)
Lemma substr_Find_beyond_INT_MAX :
  let aCandidate := repeat 98%N (N.to_nat 2147483648) ++ [97%N] in
  let r := EDA_PATTERN_MATCH_SUBSTR.Find
             {| EDA_PATTERN_MATCH_SUBSTR.m_pattern := [97%N] |} aCandidate in
  r = -2147483648 /\ r <> EDA_PATTERN_NOT_FOUND /\ ~ is_position r.
Proof.
  cbv zeta.
  assert (Hr : EDA_PATTERN_MATCH_SUBSTR.Find
                 {| EDA_PATTERN_MATCH_SUBSTR.m_pattern := [97%N] |}
                 (repeat 98%N (N.to_nat 2147483648) ++ [97%N]) = -2147483648).
  { unfold EDA_PATTERN_MATCH_SUBSTR.Find, wxString_Find.
    cbn [EDA_PATTERN_MATCH_SUBSTR.m_pattern].
    rewrite (find_after_repeat 97%N 98%N (N.to_nat 2147483648)) by discriminate.
    rewrite N2Nat.id. reflexivity. }
  rewrite Hr. unfold EDA_PATTERN_NOT_FOUND, wxNOT_FOUND, is_position, INT_MAX.
  repeat split; lia.
Qed.

(** ** The legacy-id translation *)

Lemma sample_id_distinct (a b : LEGACY_ID) : sample_id a = sample_id b -> a = b.
Proof.
  destruct a; destruct b; intros Heq; try reflexivity; discriminate Heq.
Qed.

Section TranslateLegacyId.

Variable TOOL_EVENT : Type.
Variable MakeEvent : TOOL_ACTION -> TOOL_EVENT.
Variable id : LEGACY_ID -> Z.

(** A [switch] cannot have two equal [case] labels. *)
Hypothesis id_distinct : forall a b, id a = id b -> a = b.

Lemma id_eqb (a b : LEGACY_ID) : (id a =? id b) = (sample_id a =? sample_id b).
Proof.
  destruct (Z.eqb_spec (id a) (id b)) as [Heq|Hne].
  - apply id_distinct in Heq. subst b. symmetry. apply Z.eqb_refl.
  - destruct (Z.eqb_spec (sample_id a) (sample_id b)) as [Heq|_]; [|reflexivity].
    apply sample_id_distinct in Heq. subst b. contradiction Hne. reflexivity.
Qed.

(** On the value of a label the [switch] does not depend on the numbering. *)
Lemma switch_id (l : LEGACY_ID) (cs : list (list LEGACY_ID * TOOL_ACTION)) :
  PCB_ACTIONS.switch id (id l) cs = PCB_ACTIONS.switch sample_id (sample_id l) cs.
Proof.
  induction cs as [|[labels action] cs IH]; simpl; [reflexivity|].
  assert (Hex : existsb (fun l' => id l =? id l') labels
                = existsb (fun l' => sample_id l =? sample_id l') labels).
  { clear IH. induction labels as [|l' labels IHl]; simpl; [reflexivity|].
    rewrite IHl, id_eqb. reflexivity. }
  rewrite Hex, IH. reflexivity.
Qed.

Lemma switch_unlisted (aId : Z) (cs : list (list LEGACY_ID * TOOL_ACTION)) :
  (forall l, aId <> id l) -> PCB_ACTIONS.switch id aId cs = None.
Proof.
  intros Hun. induction cs as [|[labels action] cs IH]; simpl; [reflexivity|].
  rewrite IH.
  assert (Hno : existsb (fun l => aId =? id l) labels = false).
  { induction labels as [|l labels IHl]; simpl; [reflexivity|].
    rewrite IHl. destruct (Z.eqb_spec aId (id l)) as [Heq|_]; [|reflexivity].
    exfalso. exact (Hun l Heq). }
  rewrite Hno. reflexivity.
Qed.

(** C5.  [TranslateLegacyId] is a flat lookup.  Its result is fixed by its
    argument alone: for the value of a label of its [switch] it is the event
    of the action that label stands for (that of [placeModule] for
    [ID_PCB_MODULE_BUTT], of [routerActivateSingle] for [ID_TRACK_BUTT]), and
    for every other integer it is the empty optional. *)
Theorem TranslateLegacyId_lookup :
  (forall l : LEGACY_ID,
     PCB_ACTIONS.TranslateLegacyId TOOL_EVENT MakeEvent id (id l)
     = Some (MakeEvent (legacy_action l))) /\
  (forall aId : Z,
     (forall l, aId <> id l) ->
     PCB_ACTIONS.TranslateLegacyId TOOL_EVENT MakeEvent id aId = None) /\
  PCB_ACTIONS.TranslateLegacyId TOOL_EVENT MakeEvent id (id ID_PCB_MODULE_BUTT)
    = Some (MakeEvent PCB_ACTIONS.placeModule) /\
  PCB_ACTIONS.TranslateLegacyId TOOL_EVENT MakeEvent id (id ID_TRACK_BUTT)
    = Some (MakeEvent PCB_ACTIONS.routerActivateSingle).
Proof.
  assert (Hlisted : forall l : LEGACY_ID,
             PCB_ACTIONS.TranslateLegacyId TOOL_EVENT MakeEvent id (id l)
             = Some (MakeEvent (legacy_action l))).
  { intros l. unfold PCB_ACTIONS.TranslateLegacyId. rewrite switch_id.
    destruct l; reflexivity. }
  split; [exact Hlisted|]. split.
  - intros aId Hun. unfold PCB_ACTIONS.TranslateLegacyId.
    rewrite (switch_unlisted aId PCB_ACTIONS.cases Hun). reflexivity.
  - split; apply Hlisted.
Qed.

End TranslateLegacyId.

(** * The model at work

    The statements above, applied to concrete inputs with the small engine
    [TinyRegex] and the numbering [sample_id]. *)

#[local] Existing Instance TinyRegex.engine.

(** The pattern [R?] does not compile as a regular expression for the small
    engine; as a wildcard it is [R.].  In [xR12] only the wildcard matches,
    at offset 1. *)
Example combined_Find_wildcard_only :
  fst (EDA_COMBINED_MATCHER.Find (fst (EDA_COMBINED_MATCHER.new (wxT "R?") log0)) (wxT "xR12"))
  = {| EDA_COMBINED_MATCHER.returned := true;
       EDA_COMBINED_MATCHER.aMatchersTriggered := 1;
       EDA_COMBINED_MATCHER.aPosition := 1 |}.
Proof. vm_compute. reflexivity. Qed.

(** All three matchers find [R.*2] in [xR12 R.*2]: the regular expression
    and the wildcard at offset 1, the substring at offset 5. *)
Example combined_Find_all_three :
  fst (EDA_COMBINED_MATCHER.Find (fst (EDA_COMBINED_MATCHER.new (wxT "R.*2") log0))
         (wxT "xR12 R.*2"))
  = {| EDA_COMBINED_MATCHER.returned := true;
       EDA_COMBINED_MATCHER.aMatchersTriggered := 3;
       EDA_COMBINED_MATCHER.aPosition := 1 |}.
Proof. vm_compute. reflexivity. Qed.

Example combined_Find_nothing :
  fst (EDA_COMBINED_MATCHER.Find (fst (EDA_COMBINED_MATCHER.new (wxT "C1") log0)) (wxT "xR12"))
  = {| EDA_COMBINED_MATCHER.returned := false;
       EDA_COMBINED_MATCHER.aMatchersTriggered := 0;
       EDA_COMBINED_MATCHER.aPosition := EDA_PATTERN_NOT_FOUND |}.
Proof. vm_compute. reflexivity. Qed.

(** A search does change the matcher: the regular expressions remember the
    span they matched. *)
Example Find_stores_span :
  let self := fst (EDA_COMBINED_MATCHER.new (wxT "R1") log0) in
  snd (EDA_COMBINED_MATCHER.Find self (wxT "xR12")) <> self.
Proof. vm_compute. discriminate. Qed.

Example translate_sample :
  EDA_PATTERN_MATCH_WILDCARD.translate (wxT "a?b*c.d\e/f") = wxT "a.b.*c\.d\\e\/f".
Proof. vm_compute. reflexivity. Qed.

(** C2 at work: [(] does not compile, and [AddMatcher] leaves the matcher and
    the log as they were. *)
Lemma invalid_pattern_excluded_witness :
  fst (fst (EDA_PATTERN_MATCH_REGEX.SetPattern (wxT "(") EDA_PATTERN_MATCH_REGEX.new log0))
    = false /\
  EDA_COMBINED_MATCHER.AddMatcher (wxT "(")
    (EDA_PATTERN_MATCH.Regex EDA_PATTERN_MATCH_REGEX.new)
    {| EDA_COMBINED_MATCHER.m_pattern := wxT "(";
       EDA_COMBINED_MATCHER.m_matchers := [] |} log0
  = ({| EDA_COMBINED_MATCHER.m_pattern := wxT "(";
        EDA_COMBINED_MATCHER.m_matchers := [] |}, log0).
Proof.
  split; [reflexivity|].
  apply (proj1 (@invalid_pattern_excluded TinyRegex.engine (wxT "(") log0)).
  reflexivity.
Defined.

(** C5 at work, with the numbering [sample_id] and the action itself as its
    event. *)
Lemma TranslateLegacyId_lookup_witness :
  (forall a b, sample_id a = sample_id b -> a = b) /\
  PCB_ACTIONS.TranslateLegacyId TOOL_ACTION (fun action => action) sample_id 1001
    = Some PCB_ACTIONS.routerActivateSingle /\
  PCB_ACTIONS.TranslateLegacyId TOOL_ACTION (fun action => action) sample_id 7 = None.
Proof.
  split; [exact sample_id_distinct|]. split.
  - exact (proj2 (proj2 (proj2
      (TranslateLegacyId_lookup TOOL_ACTION (fun action => action) sample_id
         sample_id_distinct)))).
  - apply (proj1 (proj2
      (TranslateLegacyId_lookup TOOL_ACTION (fun action => action) sample_id
         sample_id_distinct))).
    intros l. destruct l; discriminate.
Defined.

(** C8 at work: after [SetPattern] failed on [(], [Find] looks for [(]
    itself and finds it at offset 1 of [f(x)]. *)
Lemma invalid_regex_Find_falls_back_witness :
  wxRegEx_IsValid
    (EDA_PATTERN_MATCH_REGEX.m_regex
       (snd (fst (EDA_PATTERN_MATCH_REGEX.SetPattern (wxT "(")
                    EDA_PATTERN_MATCH_REGEX.new log0)))) = false /\
  fst (EDA_PATTERN_MATCH_REGEX.Find
         (snd (fst (EDA_PATTERN_MATCH_REGEX.SetPattern (wxT "(")
                      EDA_PATTERN_MATCH_REGEX.new log0)))
         (wxT "f(x)")) = 1.
Proof.
  pose proof (proj1 (failed_SetPattern_invalid (wxT "(") EDA_PATTERN_MATCH_REGEX.new log0
                       eq_refl)) as Hinvalid.
  split; [exact Hinvalid|].
  rewrite (proj1 (proj2
    (@invalid_regex_Find_falls_back TinyRegex.engine
       (snd (fst (EDA_PATTERN_MATCH_REGEX.SetPattern (wxT "(")
                    EDA_PATTERN_MATCH_REGEX.new log0)))
       (wxT "f(x)") Hinvalid))).
  reflexivity.
Defined.

(** C10 at work: a valid expression on a short candidate, and the substring
    matcher on the same candidate. *)
Lemma Find_returns_position_or_not_found_witness :
  wxRegEx_IsValid
    (EDA_PATTERN_MATCH_REGEX.m_regex
       (snd (fst (EDA_PATTERN_MATCH_REGEX.SetPattern (wxT "b.")
                    EDA_PATTERN_MATCH_REGEX.new log0)))) = true /\
  Z.of_nat (length (wxT "abc")) <= INT_MAX /\
  (let r := fst (EDA_PATTERN_MATCH_REGEX.Find
                   (snd (fst (EDA_PATTERN_MATCH_REGEX.SetPattern (wxT "b.")
                                EDA_PATTERN_MATCH_REGEX.new log0)))
                   (wxT "abc")) in
   r = EDA_PATTERN_NOT_FOUND \/ is_position r) /\
  (let r := fst (EDA_PATTERN_MATCH.Find
                   (EDA_PATTERN_MATCH.Substr
                      {| EDA_PATTERN_MATCH_SUBSTR.m_pattern := wxT "c" |})
                   (wxT "abc")) in
   r = EDA_PATTERN_NOT_FOUND \/ is_position r).
Proof.
  assert (Hle : Z.of_nat (length (wxT "abc")) <= INT_MAX) by (unfold INT_MAX; simpl; lia).
  split; [reflexivity|]. split; [exact Hle|]. split.
  - exact (proj1 (proj1 (@Find_returns_position_or_not_found TinyRegex.engine)
             (snd (fst (EDA_PATTERN_MATCH_REGEX.SetPattern (wxT "b.")
                          EDA_PATTERN_MATCH_REGEX.new log0)))
             (wxT "abc") eq_refl)).
  - exact (proj2 (@Find_returns_position_or_not_found TinyRegex.engine)
             (EDA_PATTERN_MATCH.Substr {| EDA_PATTERN_MATCH_SUBSTR.m_pattern := wxT "c" |})
             (wxT "abc") Hle).
Defined.

(** * Further properties of the code *)

(** ** The wildcard translation as a function on strings *)

Lemma translate_rules (aPattern : wxString) :
  EDA_PATTERN_MATCH_WILDCARD.translate aPattern = flat_map wildcard_rule aPattern.
Proof.
  unfold EDA_PATTERN_MATCH_WILDCARD.translate. rewrite translate_loop. reflexivity.
Qed.

Lemma translate_cons (c : wxUniChar) (aPattern : wxString) :
  EDA_PATTERN_MATCH_WILDCARD.translate (c :: aPattern)
  = wildcard_rule c ++ EDA_PATTERN_MATCH_WILDCARD.translate aPattern.
Proof.
  rewrite !translate_rules. reflexivity.
Qed.

(** What a character becomes is one or two characters long. *)
Lemma wildcard_rule_length (c : wxUniChar) :
  (1 <= length (wildcard_rule c) <= 2)%nat.
Proof.
  unfold wildcard_rule.
  destruct (c =? 63)%N; [simpl; lia|].
  destruct (c =? 42)%N; [simpl; lia|].
  destruct (existsb (N.eqb c) escaped); simpl; lia.
Qed.

(** The loop reserves [2 * aPattern.Length()] characters for the regular
    expression before it starts.  That is enough: the translation is at
    least as long as the wildcard and at most twice as long. *)
Theorem translate_length_bounds (aPattern : wxString) :
  (length aPattern <= length (EDA_PATTERN_MATCH_WILDCARD.translate aPattern)
   <= 2 * length aPattern)%nat.
Proof.
  induction aPattern as [|c aPattern IH].
  - simpl. lia.
  - rewrite translate_cons, length_app. cbn [length].
    pose proof (wildcard_rule_length c). lia.
Qed.

(** The translation works character by character: that of a concatenation
    is the concatenation of the translations, so a wildcard can be
    translated piece by piece. *)
Theorem translate_app (p q : wxString) :
  EDA_PATTERN_MATCH_WILDCARD.translate (p ++ q)
  = EDA_PATTERN_MATCH_WILDCARD.translate p ++ EDA_PATTERN_MATCH_WILDCARD.translate q.
Proof.
  induction p as [|c p IH].
  - reflexivity.
  - cbn [app]. rewrite !translate_cons, IH, app_assoc. reflexivity.
Qed.

(** A translation never starts with [*]. *)
Lemma translate_head (aPattern rest : wxString) :
  EDA_PATTERN_MATCH_WILDCARD.translate aPattern <> 42%N :: rest.
Proof.
  destruct aPattern as [|c aPattern]; [discriminate|].
  rewrite translate_cons. unfold wildcard_rule.
  destruct (c =? 63)%N; [discriminate|].
  destruct (N.eqb_spec c 42) as [->|Hstar]; [discriminate|].
  destruct (existsb (N.eqb c) escaped); [discriminate|].
  cbn [app]. intros Heq. injection Heq as Hc _. contradiction.
Qed.

Lemma untranslate_translate (aPattern : wxString) :
  untranslate (EDA_PATTERN_MATCH_WILDCARD.translate aPattern) = aPattern.
Proof.
  induction aPattern as [|c aPattern IH]; [reflexivity|].
  rewrite translate_cons. unfold wildcard_rule.
  destruct (N.eqb_spec c 63) as [->|Hq].
  - cbn [app untranslate N.eqb Pos.eqb].
    destruct (EDA_PATTERN_MATCH_WILDCARD.translate aPattern) as [|d rest] eqn:Ht.
    + simpl in IH. subst aPattern. reflexivity.
    + destruct (N.eqb_spec d 42) as [->|_].
      * exfalso. exact (translate_head aPattern rest Ht).
      * rewrite IH. reflexivity.
  - destruct (N.eqb_spec c 42) as [->|Hs].
    + cbn [app untranslate N.eqb Pos.eqb]. rewrite IH. reflexivity.
    + destruct (existsb (N.eqb c) escaped) eqn:Hesc.
      * cbn [app untranslate N.eqb Pos.eqb]. rewrite IH. reflexivity.
      * assert (Hb : (c =? 92)%N = false).
        { destruct (N.eqb_spec c 92) as [->|_]; [discriminate Hesc | reflexivity]. }
        assert (Hd : (c =? 46)%N = false).
        { destruct (N.eqb_spec c 46) as [->|_]; [discriminate Hesc | reflexivity]. }
        cbn [app untranslate]. rewrite Hb, Hd, IH. reflexivity.
Qed.

(** Two wildcards with the same translation are the same wildcard: the
    regular expression determines the wildcard it came from, which
    [untranslate] reads back. *)
Theorem translate_injective (p q : wxString) :
  (EDA_PATTERN_MATCH_WILDCARD.translate p = EDA_PATTERN_MATCH_WILDCARD.translate q -> p = q) /\
  untranslate (EDA_PATTERN_MATCH_WILDCARD.translate p) = p.
Proof.
  split; [|apply untranslate_translate].
  intros Heq. rewrite <- (untranslate_translate p), <- (untranslate_translate q), Heq.
  reflexivity.
Qed.

(** A pattern is its own translation exactly when it has none of the
    special characters. *)
Lemma plain_translate (aPattern : wxString) :
  plain aPattern = true <-> EDA_PATTERN_MATCH_WILDCARD.translate aPattern = aPattern.
Proof.
  induction aPattern as [|c aPattern IH]; [split; reflexivity|].
  rewrite translate_cons. cbn [plain forallb]. fold (plain aPattern).
  unfold wildcard_rule.
  destruct (N.eqb_spec c 63) as [->|Hq].
  { split; intros Hx; [discriminate Hx | cbn [app] in Hx; discriminate Hx]. }
  destruct (N.eqb_spec c 42) as [->|Hs].
  { split; intros Hx; [discriminate Hx | cbn [app] in Hx; discriminate Hx]. }
  destruct (existsb (N.eqb c) escaped) eqn:Hesc; cbn [negb andb app].
  - split; [discriminate|]. intros Hx. exfalso.
    injection Hx as Hc Htail.
    pose proof (translate_length_bounds aPattern) as Hlen.
    rewrite <- Htail in Hlen at 1. cbn [length] in Hlen. lia.
  - rewrite IH. split; intros Hx; [rewrite Hx; reflexivity | injection Hx as Hx; exact Hx].
Qed.

Section PlainPatterns.
Context `{wxRegExEngine}.

(** For a pattern without special characters the wildcard matcher compiles
    the very expression the regular-expression matcher compiles.  Both
    [SetPattern]s give the same answer, so the combined matcher holds
    either all three matchers or the substring matcher alone, and the two
    report the same position for every candidate. *)
Theorem plain_pattern_regex_wildcard_agree
    (aPattern aCandidate : wxString)
    (o : EDA_PATTERN_MATCH_REGEX.t) (o' : EDA_PATTERN_MATCH_WILDCARD.t) (w : wxLog) :
  plain aPattern = true ->
  let regex := fst (EDA_PATTERN_MATCH_REGEX.SetPattern aPattern o w) in
  let wildcard := fst (EDA_PATTERN_MATCH_WILDCARD.SetPattern aPattern o' w) in
  fst wildcard = fst regex /\
  EDA_PATTERN_MATCH_WILDCARD.base (snd wildcard) = snd regex /\
  fst (EDA_PATTERN_MATCH_WILDCARD.Find (snd wildcard) aCandidate)
    = fst (EDA_PATTERN_MATCH_REGEX.Find (snd regex) aCandidate) /\
  (length (registered aPattern w) = 1%nat \/ length (registered aPattern w) = 3%nat).
Proof.
  intros Hplain. apply plain_translate in Hplain. cbv zeta.
  rewrite wildcard_SetPattern_eq, !regex_SetPattern_eq, Hplain. cbv zeta. cbn [fst snd].
  split; [reflexivity|]. split; [reflexivity|]. split.
  - unfold EDA_PATTERN_MATCH_WILDCARD.Find. cbn [EDA_PATTERN_MATCH_WILDCARD.base].
    destruct (EDA_PATTERN_MATCH_REGEX.Find _ aCandidate) as [r b]. reflexivity.
  - rewrite registered_eq, Hplain.
    destruct (regcomp aPattern wxRE_ADVANCED); [right | left]; reflexivity.
Qed.

(** Neither a search nor a [SetPattern] changes the dynamic type. *)
Lemma Find_variant (matcher : EDA_PATTERN_MATCH.t) (aCandidate : wxString) :
  variant_of (snd (EDA_PATTERN_MATCH.Find matcher aCandidate)) = variant_of matcher.
Proof.
  destruct matcher as [o|o|o]; unfold EDA_PATTERN_MATCH.Find.
  - reflexivity.
  - destruct (EDA_PATTERN_MATCH_REGEX.Find o aCandidate) as [r o']. reflexivity.
  - destruct (EDA_PATTERN_MATCH_WILDCARD.Find o aCandidate) as [r o']. reflexivity.
Qed.

Lemma SetPattern_variant (aPattern : wxString) (matcher : EDA_PATTERN_MATCH.t) (w : wxLog) :
  variant_of (snd (fst (EDA_PATTERN_MATCH.SetPattern aPattern matcher w))) = variant_of matcher.
Proof.
  destruct matcher as [o|o|o]; unfold EDA_PATTERN_MATCH.SetPattern, bind, ret.
  - reflexivity.
  - rewrite regex_SetPattern_eq. reflexivity.
  - rewrite wildcard_SetPattern_eq. reflexivity.
Qed.

(** Of the object it is called on, [SetPattern] uses the dynamic type and
    nothing else. *)
Lemma SetPattern_by_variant (aPattern : wxString) (m m' : EDA_PATTERN_MATCH.t) (w w' : wxLog) :
  variant_of m = variant_of m' ->
  fst (EDA_PATTERN_MATCH.SetPattern aPattern m w)
  = fst (EDA_PATTERN_MATCH.SetPattern aPattern m' w').
Proof.
  destruct m as [a|a|a], m' as [b|b|b]; intros Hv; try discriminate Hv;
    unfold EDA_PATTERN_MATCH.SetPattern, bind, ret.
  - reflexivity.
  - rewrite !regex_SetPattern_eq. reflexivity.
  - rewrite !wildcard_SetPattern_eq, !regex_SetPattern_eq. reflexivity.
Qed.

(** [SetPattern] starts afresh: what it returns and the object it leaves
    depend on the new pattern alone, not on an earlier [SetPattern] nor on
    searches made since.  A compiled expression does not survive a
    [SetPattern] that fails. *)
Theorem SetPattern_overwrites
    (first second : wxString) (matcher : EDA_PATTERN_MATCH.t)
    (candidates : list wxString) (w w' w'' : wxLog) :
  let used :=
    fold_left (fun m aCandidate => snd (EDA_PATTERN_MATCH.Find m aCandidate)) candidates
              (snd (fst (EDA_PATTERN_MATCH.SetPattern first matcher w))) in
  fst (EDA_PATTERN_MATCH.SetPattern second used w')
    = fst (EDA_PATTERN_MATCH.SetPattern second matcher w'') /\
  (forall o : EDA_PATTERN_MATCH_REGEX.t,
     regcomp second wxRE_ADVANCED = None ->
     wxRegEx_IsValid
       (EDA_PATTERN_MATCH_REGEX.m_regex
          (snd (fst (EDA_PATTERN_MATCH_REGEX.SetPattern second o w')))) = false).
Proof.
  cbv zeta. split.
  - apply SetPattern_by_variant.
    rewrite <- (SetPattern_variant first matcher w).
    generalize (snd (fst (EDA_PATTERN_MATCH.SetPattern first matcher w))).
    induction candidates as [|c cs IH]; intros m; [reflexivity|].
    cbn [fold_left]. rewrite IH. apply Find_variant.
  - intros o Hfail. rewrite regex_SetPattern_eq, Hfail. reflexivity.
Qed.

End PlainPatterns.

(** ** The substring search *)

(** [find] is a function of the text: the offset it returns is below every
    offset at which the pattern occurs. *)
Lemma find_least (s sub : wxString) (idx : N) (n : nat) :
  find s sub = Some idx -> occurs_at sub s n -> (N.to_nat idx <= n)%nat.
Proof.
  intros Hf (pre & post & Heq & Hlen). subst s n.
  destruct (find_first pre sub post) as (idx' & Hidx' & Hle).
  rewrite Hf in Hidx'. injection Hidx' as <-. exact Hle.
Qed.

(** On a candidate of at most [INT_MAX] characters the substring matcher
    is exact: it returns [EDA_PATTERN_NOT_FOUND] when and only when the
    candidate does not contain the pattern, and otherwise the offset of the
    first occurrence. *)
Theorem substr_Find_first_occurrence (pattern aCandidate : wxString) :
  Z.of_nat (length aCandidate) <= INT_MAX ->
  let r := EDA_PATTERN_MATCH_SUBSTR.Find
             {| EDA_PATTERN_MATCH_SUBSTR.m_pattern := pattern |} aCandidate in
  (r = EDA_PATTERN_NOT_FOUND <-> ~ contains aCandidate pattern) /\
  (r <> EDA_PATTERN_NOT_FOUND ->
   0 <= r /\
   occurs_at pattern aCandidate (Z.to_nat r) /\
   forall n, occurs_at pattern aCandidate n -> (Z.to_nat r <= n)%nat).
Proof.
  intros Hshort. cbv zeta.
  unfold EDA_PATTERN_MATCH_SUBSTR.Find, wxString_Find.
  cbn [EDA_PATTERN_MATCH_SUBSTR.m_pattern].
  destruct (find aCandidate pattern) as [idx|] eqn:Hf.
  - pose proof (find_occurs _ _ _ Hf) as Hocc.
    assert (Hidx : Z.of_N idx <= INT_MAX).
    { destruct Hocc as (pre & post & Heq & Hlen).
      assert (length pre <= length aCandidate)%nat by (rewrite Heq, length_app; lia).
      lia. }
    rewrite int_of_size_t_small by exact Hidx.
    unfold EDA_PATTERN_NOT_FOUND, wxNOT_FOUND.
    destruct (Z.eqb_spec (Z.of_N idx) (-1)) as [Hneg|_]; [lia|].
    split.
    + split; [lia|]. intros Habsent. exfalso. apply Habsent.
      destruct Hocc as (pre & post & Heq & _). exists pre, post. exact Heq.
    + intros _. split; [lia|].
      replace (Z.to_nat (Z.of_N idx)) with (N.to_nat idx) by lia.
      split; [exact Hocc|]. intros n Hn. exact (find_least _ _ _ _ Hf Hn).
  - split.
    + split; [|reflexivity]. intros _ (pre & post & Heq). subst aCandidate.
      destruct (find_first pre pattern post) as (idx & Hidx & _). congruence.
    + intros Hne. contradiction Hne. reflexivity.
Qed.

(** The substring matcher at the edges.  An empty pattern is found at
    offset 0 of every candidate, the empty one included; a pattern is found
    at offset 0 of itself; a pattern longer than the candidate is not found,
    so in an empty candidate only the empty pattern is. *)
Theorem substr_Find_edge_cases (pattern aCandidate : wxString) :
  EDA_PATTERN_MATCH_SUBSTR.Find EDA_PATTERN_MATCH_SUBSTR.new aCandidate = 0 /\
  EDA_PATTERN_MATCH_SUBSTR.Find
    {| EDA_PATTERN_MATCH_SUBSTR.m_pattern := pattern |} (pattern ++ aCandidate) = 0 /\
  ((length aCandidate < length pattern)%nat ->
   EDA_PATTERN_MATCH_SUBSTR.Find
     {| EDA_PATTERN_MATCH_SUBSTR.m_pattern := pattern |} aCandidate = EDA_PATTERN_NOT_FOUND) /\
  (EDA_PATTERN_MATCH_SUBSTR.Find {| EDA_PATTERN_MATCH_SUBSTR.m_pattern := pattern |} []
   = match pattern with [] => 0 | _ :: _ => EDA_PATTERN_NOT_FOUND end).
Proof.
  assert (Hhead : forall p post,
             EDA_PATTERN_MATCH_SUBSTR.Find
               {| EDA_PATTERN_MATCH_SUBSTR.m_pattern := p |} (p ++ post) = 0).
  { intros p post. unfold EDA_PATTERN_MATCH_SUBSTR.Find, wxString_Find.
    cbn [EDA_PATTERN_MATCH_SUBSTR.m_pattern].
    assert (Hf : find (p ++ post) p = Some 0%N).
    { destruct (p ++ post) as [|c rest] eqn:Heq; cbn [find].
      - destruct p; [reflexivity | discriminate Heq].
      - rewrite <- Heq, starts_with_app. reflexivity. }
    rewrite Hf. reflexivity. }
  assert (Hlong : forall p c,
             (length c < length p)%nat ->
             EDA_PATTERN_MATCH_SUBSTR.Find
               {| EDA_PATTERN_MATCH_SUBSTR.m_pattern := p |} c = EDA_PATTERN_NOT_FOUND).
  { intros p c Hlt. apply substr_Find_absent. intros (pre & post & Heq).
    rewrite Heq, !length_app in Hlt. lia. }
  split; [exact (Hhead [] aCandidate)|]. split; [exact (Hhead pattern aCandidate)|].
  split; [exact (Hlong pattern aCandidate)|].
  destruct pattern as [|c pattern].
  - exact (Hhead [] []).
  - apply Hlong. cbn [length]. lia.
Qed.

(** ** The outputs of the combined search *)

(** Filtering two arrangements of the same entries gives two arrangements
    of the same entries. *)
Lemma filter_rearranged {A : Type} (keep : A -> bool) (xs ys : list A)
    (Hxy : Permutation xs ys) :
  Permutation (filter keep xs) (filter keep ys).
Proof.
  induction Hxy as [|a xs ys _ IH|a b xs|xs ys zs _ IHxy _ IHyz].
  - apply perm_nil.
  - cbn [filter]. destruct (keep a); [apply perm_skip|]; exact IH.
  - cbn [filter]. destruct (keep b), (keep a);
      first [apply perm_swap | apply Permutation_refl].
  - exact (perm_trans IHxy IHyz).
Qed.

Section Outputs.
Context `{wxRegExEngine}.

(** The three outputs of [Find] tell the same story, whatever matchers the
    object holds: it returns [true] exactly when [aMatchersTriggered] is
    positive, exactly when [aPosition] is not [EDA_PATTERN_NOT_FOUND]; and
    [aMatchersTriggered] is at most the number of matchers. *)
Theorem combined_Find_outputs_agree (self : EDA_COMBINED_MATCHER.t) (aTerm : wxString) :
  let r := fst (EDA_COMBINED_MATCHER.Find self aTerm) in
  (EDA_COMBINED_MATCHER.returned r = true <-> 0 < EDA_COMBINED_MATCHER.aMatchersTriggered r) /\
  (EDA_COMBINED_MATCHER.returned r = true <->
   EDA_COMBINED_MATCHER.aPosition r <> EDA_PATTERN_NOT_FOUND) /\
  (EDA_COMBINED_MATCHER.returned r = false <-> EDA_COMBINED_MATCHER.aMatchersTriggered r = 0) /\
  0 <= EDA_COMBINED_MATCHER.aMatchersTriggered r
    <= Z.of_nat (length (EDA_COMBINED_MATCHER.m_matchers self)).
Proof.
  cbv zeta.
  pose proof (Find_eq self aTerm) as HF. cbv zeta in HF. rewrite HF. clear HF.
  cbn [fst EDA_COMBINED_MATCHER.returned EDA_COMBINED_MATCHER.aMatchersTriggered
       EDA_COMBINED_MATCHER.aPosition].
  set (finds := local_finds (EDA_COMBINED_MATCHER.m_matchers self) aTerm).
  rewrite fold_step_count.
  destruct (fold_step_position finds 0) as [Hnone Hsome].
  pose proof (filter_length_le matched finds) as Hle.
  assert (Hlen : length finds = length (EDA_COMBINED_MATCHER.m_matchers self)).
  { unfold finds, local_finds. apply length_map. }
  rewrite negb_true_iff, negb_false_iff, Z.eqb_neq, Z.eqb_eq.
  destruct (filter matched finds) as [|x l] eqn:Hf.
  - specialize (Hnone eq_refl). cbn [length].
    repeat split; intros; try lia; try assumption; contradiction.
  - destruct (Hsome ltac:(discriminate)) as (Hpos & _). cbn [length] in *.
    repeat split; intros; try lia; try assumption; contradiction.
Qed.

(** The order in which the matchers stand in the list is immaterial to
    what [Find] reports. *)
Theorem combined_Find_order_irrelevant
    (pattern pattern' : wxString) (matchers matchers' : list EDA_PATTERN_MATCH.t)
    (aTerm : wxString) :
  Permutation matchers matchers' ->
  fst (EDA_COMBINED_MATCHER.Find
         {| EDA_COMBINED_MATCHER.m_pattern := pattern;
            EDA_COMBINED_MATCHER.m_matchers := matchers |} aTerm)
  = fst (EDA_COMBINED_MATCHER.Find
           {| EDA_COMBINED_MATCHER.m_pattern := pattern';
              EDA_COMBINED_MATCHER.m_matchers := matchers' |} aTerm).
Proof.
  intros Hperm.
  pose proof (Find_eq {| EDA_COMBINED_MATCHER.m_pattern := pattern;
                         EDA_COMBINED_MATCHER.m_matchers := matchers |} aTerm) as HF.
  cbv zeta in HF. rewrite HF. clear HF.
  pose proof (Find_eq {| EDA_COMBINED_MATCHER.m_pattern := pattern';
                         EDA_COMBINED_MATCHER.m_matchers := matchers' |} aTerm) as HF.
  cbv zeta in HF. rewrite HF. clear HF.
  cbn [fst EDA_COMBINED_MATCHER.m_matchers].
  set (finds := local_finds matchers aTerm).
  set (finds' := local_finds matchers' aTerm).
  assert (Hp : Permutation (filter matched finds) (filter matched finds')).
  { apply filter_rearranged. unfold finds, finds', local_finds.
    apply Permutation_map. exact Hperm. }
  assert (Hcount : fst (fold_left (fun a r => EDA_COMBINED_MATCHER.Find_step r a) finds
                          (0, EDA_PATTERN_NOT_FOUND))
                   = fst (fold_left (fun a r => EDA_COMBINED_MATCHER.Find_step r a) finds'
                            (0, EDA_PATTERN_NOT_FOUND))).
  { rewrite !fold_step_count, (Permutation_length Hp). reflexivity. }
  assert (Hposition : snd (fold_left (fun a r => EDA_COMBINED_MATCHER.Find_step r a) finds
                             (0, EDA_PATTERN_NOT_FOUND))
                      = snd (fold_left (fun a r => EDA_COMBINED_MATCHER.Find_step r a) finds'
                               (0, EDA_PATTERN_NOT_FOUND))).
  { destruct (fold_step_position finds 0) as [Hnone Hsome].
    destruct (fold_step_position finds' 0) as [Hnone' Hsome'].
    destruct (filter matched finds) as [|x l] eqn:Hf.
    - apply Permutation_nil in Hp. rewrite (Hnone eq_refl), (Hnone' Hp). reflexivity.
    - assert (Hne' : filter matched finds' <> []).
      { intros Hnil. rewrite Hnil in Hp. apply Permutation_sym, Permutation_nil in Hp.
        discriminate Hp. }
      destruct (Hsome ltac:(discriminate)) as (_ & Hin & Hall).
      destruct (Hsome' Hne') as (_ & Hin' & Hall').
      apply Z.le_antisymm.
      + apply Hall. exact (Permutation_in _ (Permutation_sym Hp) Hin').
      + apply Hall'. exact (Permutation_in _ Hp Hin). }
  rewrite Hcount, Hposition. reflexivity.
Qed.

(** The matchers a fresh combined matcher holds besides the substring
    matcher have a valid expression: their [Find] gives
    [EDA_PATTERN_NOT_FOUND] or a position. *)
Lemma registered_regex_range (aPattern aTerm : wxString) (w : wxLog)
    (matcher : EDA_PATTERN_MATCH.t) :
  In matcher (registered aPattern w) ->
  matcher = EDA_PATTERN_MATCH.Substr {| EDA_PATTERN_MATCH_SUBSTR.m_pattern := aPattern |} \/
  fst (EDA_PATTERN_MATCH.Find matcher aTerm) = EDA_PATTERN_NOT_FOUND \/
  is_position (fst (EDA_PATTERN_MATCH.Find matcher aTerm)).
Proof.
  assert (Hrange : forall (o : EDA_PATTERN_MATCH_REGEX.t) (re : regex_t),
             m_impl (EDA_PATTERN_MATCH_REGEX.m_regex o) = Some re ->
             fst (EDA_PATTERN_MATCH_REGEX.Find o aTerm) = EDA_PATTERN_NOT_FOUND \/
             is_position (fst (EDA_PATTERN_MATCH_REGEX.Find o aTerm))).
  { intros o re Himpl. rewrite (valid_regex_Find o re aTerm Himpl).
    destruct (regexec re aTerm) as [[start len]|]; [right | left; reflexivity].
    unfold is_position, INT_MAX. lia. }
  rewrite registered_eq. intros Hin.
  apply in_app_or in Hin. destruct Hin as [Hin | Hin].
  - destruct (regcomp aPattern wxRE_ADVANCED) as [re|]; [|contradiction].
    destruct Hin as [<- | []]. right. unfold EDA_PATTERN_MATCH.Find.
    pose proof (Hrange {| EDA_PATTERN_MATCH_REGEX.m_pattern := aPattern;
                          EDA_PATTERN_MATCH_REGEX.m_regex :=
                            {| m_impl := Some re; m_Matches := None |} |} re eq_refl) as Hr.
    destruct (EDA_PATTERN_MATCH_REGEX.Find _ aTerm) as [r o']. exact Hr.
  - apply in_app_or in Hin. destruct Hin as [Hin | Hin].
    + destruct (regcomp (EDA_PATTERN_MATCH_WILDCARD.translate aPattern) wxRE_ADVANCED)
        as [re|]; [|contradiction].
      destruct Hin as [<- | []]. right.
      unfold EDA_PATTERN_MATCH.Find, EDA_PATTERN_MATCH_WILDCARD.Find.
      cbn [EDA_PATTERN_MATCH_WILDCARD.base].
      pose proof (Hrange {| EDA_PATTERN_MATCH_REGEX.m_pattern :=
                              EDA_PATTERN_MATCH_WILDCARD.translate aPattern;
                            EDA_PATTERN_MATCH_REGEX.m_regex :=
                              {| m_impl := Some re; m_Matches := None |} |} re eq_refl) as Hr.
      destruct (EDA_PATTERN_MATCH_REGEX.Find _ aTerm) as [r o']. exact Hr.
    + destruct Hin as [<- | []]. left. reflexivity.
Qed.

(** A fresh matcher on a candidate that has the pattern at an offset of at
    most [INT_MAX]. *)
Lemma fresh_Find_bounded (aPattern pre post : wxString) (w : wxLog) :
  Z.of_nat (length pre) <= INT_MAX ->
  let r := fst (EDA_COMBINED_MATCHER.Find (fst (EDA_COMBINED_MATCHER.new aPattern w))
                  (pre ++ aPattern ++ post)) in
  EDA_COMBINED_MATCHER.returned r = true /\
  1 <= EDA_COMBINED_MATCHER.aMatchersTriggered r /\
  0 <= EDA_COMBINED_MATCHER.aPosition r <= Z.of_nat (length pre).
Proof.
  intros Hle. cbv zeta. rewrite new_eq. cbn [fst].
  pose proof (Find_eq {| EDA_COMBINED_MATCHER.m_pattern := aPattern;
                         EDA_COMBINED_MATCHER.m_matchers := registered aPattern w |}
                (pre ++ aPattern ++ post)) as HF.
  cbv zeta in HF. rewrite HF. clear HF.
  cbn [fst EDA_COMBINED_MATCHER.m_matchers EDA_COMBINED_MATCHER.returned
       EDA_COMBINED_MATCHER.aPosition EDA_COMBINED_MATCHER.aMatchersTriggered].
  set (aTerm := pre ++ aPattern ++ post).
  set (finds := local_finds (registered aPattern w) aTerm).
  destruct (substr_Find_present aPattern pre post Hle) as [Hrange _].
  fold aTerm in Hrange.
  set (v := EDA_PATTERN_MATCH_SUBSTR.Find
              {| EDA_PATTERN_MATCH_SUBSTR.m_pattern := aPattern |} aTerm) in *.
  assert (Hv : In v (filter matched finds)).
  { apply filter_In. split.
    - unfold finds, local_finds.
      apply (in_map (fun m => fst (EDA_PATTERN_MATCH.Find m aTerm))
               (registered aPattern w)
               (EDA_PATTERN_MATCH.Substr {| EDA_PATTERN_MATCH_SUBSTR.m_pattern := aPattern |})).
      rewrite registered_eq. apply in_or_app. right. apply in_or_app. right.
      left. reflexivity.
    - apply matched_true. unfold EDA_PATTERN_NOT_FOUND, wxNOT_FOUND. lia. }
  pose proof (fold_step_position finds 0) as Hfold. cbv zeta in Hfold.
  rewrite fold_step_count.
  set (pos := snd (fold_left (fun a r => EDA_COMBINED_MATCHER.Find_step r a) finds
                     (0, EDA_PATTERN_NOT_FOUND))) in *.
  destruct Hfold as [_ Hsome].
  destruct (Hsome ltac:(intros Hnil; rewrite Hnil in Hv; exact Hv)) as (Hne & Hin & Hall).
  split; [apply negb_true_iff, Z.eqb_neq; exact Hne|].
  split; [destruct (filter matched finds); [contradiction Hv | cbn [length]; lia]|].
  split; [|specialize (Hall v Hv); lia].
  apply filter_In in Hin. destruct Hin as [Hin Hm].
  unfold finds, local_finds in Hin. apply in_map_iff in Hin.
  destruct Hin as (matcher & Heq & Hmatcher).
  destruct (registered_regex_range aPattern aTerm w matcher Hmatcher) as [-> | [Hnf | Hpos]].
  - rewrite <- Heq. cbn [EDA_PATTERN_MATCH.Find fst]. fold v. lia.
  - apply matched_true in Hm. rewrite <- Heq in Hm. contradiction.
  - rewrite <- Heq. unfold is_position in Hpos. lia.
Qed.

(** The position a fresh combined matcher reports is never behind a
    literal occurrence: when the candidate has the pattern at an offset of
    at most [INT_MAX], [Find] returns [true], at least one matcher
    triggered, and the position lies between 0 and that offset, hence at or
    before every such occurrence. *)
Theorem combined_Find_not_behind_literal (aPattern pre post : wxString) (w : wxLog) :
  Z.of_nat (length pre) <= INT_MAX ->
  let r := fst (EDA_COMBINED_MATCHER.Find (fst (EDA_COMBINED_MATCHER.new aPattern w))
                  (pre ++ aPattern ++ post)) in
  EDA_COMBINED_MATCHER.returned r = true /\
  1 <= EDA_COMBINED_MATCHER.aMatchersTriggered r /\
  0 <= EDA_COMBINED_MATCHER.aPosition r <= Z.of_nat (length pre) /\
  (forall n, occurs_at aPattern (pre ++ aPattern ++ post) n ->
             Z.of_nat n <= INT_MAX -> EDA_COMBINED_MATCHER.aPosition r <= Z.of_nat n).
Proof.
  intros Hle. cbv zeta.
  destruct (fresh_Find_bounded aPattern pre post w Hle) as (Hret & Hcount & Hpos).
  split; [exact Hret|]. split; [exact Hcount|]. split; [exact Hpos|].
  intros n (pre' & post' & Heq & Hlen) Hn. subst n.
  destruct (fresh_Find_bounded aPattern pre' post' w Hn) as (_ & _ & Hpos').
  cbv zeta in Hpos'. rewrite <- Heq in Hpos'. lia.
Qed.

(** The empty pattern matches everything: a combined matcher made for it
    returns [true] with position 0 on every candidate, the empty one
    included. *)
Theorem combined_Find_empty_pattern (aCandidate : wxString) (w : wxLog) :
  let r := fst (EDA_COMBINED_MATCHER.Find (fst (EDA_COMBINED_MATCHER.new [] w)) aCandidate) in
  EDA_COMBINED_MATCHER.returned r = true /\
  EDA_COMBINED_MATCHER.aPosition r = 0.
Proof.
  cbv zeta.
  assert (Hzero : Z.of_nat (@length wxUniChar []) <= INT_MAX) by (unfold INT_MAX; simpl; lia).
  destruct (fresh_Find_bounded [] [] aCandidate w Hzero) as (Hret & _ & Hpos).
  cbn [app length] in Hret, Hpos.
  split; [exact Hret | lia].
Qed.

End Outputs.

(** ** The log and the life of a combined matcher *)

(** The documented purpose of [WX_LOGLEVEL_CONTEXT]: the block runs with
    the level asked for, and whatever the block does, also to the level
    itself, the level in force before the block is back after it.  Records
    the block emits stay. *)
Theorem loglevel_context_restores {A : Type} (level : wxLogLevel) (body : LogM A) (w : wxLog) :
  let inside := body {| ms_logLevel := level; records := records w |} in
  fst (scoped level body w) = fst inside /\
  ms_logLevel (snd (scoped level body w)) = ms_logLevel w /\
  records (snd (scoped level body w)) = records (snd inside).
Proof.
  cbv zeta. unfold scoped, WX_LOGLEVEL_CONTEXT.enter, WX_LOGLEVEL_CONTEXT.leave, bind, ret,
    wxLog_GetLogLevel, wxLog_SetLogLevel.
  cbn [WX_LOGLEVEL_CONTEXT.m_old_level].
  destruct (body {| ms_logLevel := level; records := records w |}) as [a w'].
  repeat split; reflexivity.
Qed.

Section Life.
Context `{wxRegExEngine}.

(** [EDA_PATTERN_MATCH_REGEX::SetPattern] is such a block around
    [wxRegEx::Compile], at level [wxLOG_FatalError]. *)
Lemma regex_SetPattern_scoped (aPattern : wxString) (self : EDA_PATTERN_MATCH_REGEX.t)
    (w : wxLog) :
  EDA_PATTERN_MATCH_REGEX.SetPattern aPattern self w =
  (r <- scoped wxLOG_FatalError
          (wxRegEx_Compile (EDA_PATTERN_MATCH_REGEX.m_regex self) aPattern wxRE_ADVANCED) ;;
   ret (fst r, {| EDA_PATTERN_MATCH_REGEX.m_pattern := aPattern;
                  EDA_PATTERN_MATCH_REGEX.m_regex := snd r |}))%log w.
Proof.
  unfold EDA_PATTERN_MATCH_REGEX.SetPattern, scoped, bind, ret.
  destruct (WX_LOGLEVEL_CONTEXT.enter wxLOG_FatalError w) as [ctx w1].
  destruct (wxRegEx_Compile _ aPattern wxRE_ADVANCED w1) as [r w2].
  destruct (WX_LOGLEVEL_CONTEXT.leave ctx w2) as [u w3]. reflexivity.
Qed.

(** The context is what keeps [SetPattern] silent.  On an expression that
    does not compile, [wxRegEx::Compile] alone leaves an error record
    whenever errors are logged; [SetPattern] leaves none, and the log comes
    back as it was, level included, whatever that level. *)
Theorem SetPattern_silences_Compile
    (aPattern : wxString) (self : EDA_PATTERN_MATCH_REGEX.t) (w : wxLog) :
  regcomp aPattern wxRE_ADVANCED = None ->
  (wxLOG_Error <= ms_logLevel w ->
   records (snd (wxRegEx_Compile (EDA_PATTERN_MATCH_REGEX.m_regex self) aPattern
                   wxRE_ADVANCED w))
   = records w ++ [(wxLOG_Error, aPattern)]) /\
  snd (EDA_PATTERN_MATCH_REGEX.SetPattern aPattern self w) = w /\
  fst (fst (EDA_PATTERN_MATCH_REGEX.SetPattern aPattern self w)) = false.
Proof.
  intros Hfail. split; [|split].
  - intros Hlevel. unfold wxRegEx_Compile, bind, ret, wxLogError. rewrite Hfail.
    destruct (Z.leb_spec wxLOG_Error (ms_logLevel w)) as [_|Hlt]; [reflexivity | lia].
  - rewrite regex_SetPattern_eq. reflexivity.
  - rewrite regex_SetPattern_eq, Hfail. reflexivity.
Qed.

(** Building a combined matcher is silent.  [SetPattern] of each of the
    three matchers, any sequence of [AddMatcher] calls and the constructor
    hand the log back as they found it, records and level, whether the
    patterns compile or not. *)
Theorem AddMatcher_leaves_log
    (adds : list (wxString * EDA_PATTERN_MATCH.t)) (self : EDA_COMBINED_MATCHER.t)
    (w : wxLog) :
  (forall aPattern matcher, snd (EDA_PATTERN_MATCH.SetPattern aPattern matcher w) = w) /\
  snd (EDA_COMBINED_MATCHER.run_all
         (map (fun add => EDA_COMBINED_MATCHER.OpAddMatcher (fst add) (snd add)) adds)
         self w) = w /\
  (forall aPattern, snd (EDA_COMBINED_MATCHER.new aPattern w) = w).
Proof.
  split; [intros aPattern matcher; apply SetPattern_log|].
  split; [|intros aPattern; rewrite new_eq; reflexivity].
  revert self. induction adds as [|[p matcher] adds IH]; intros self; [reflexivity|].
  cbn [map fst snd EDA_COMBINED_MATCHER.run_all EDA_COMBINED_MATCHER.run]. unfold bind.
  rewrite AddMatcher_eq. cbv zeta. apply IH.
Qed.

Lemma run_pattern (o : EDA_COMBINED_MATCHER.op) (self : EDA_COMBINED_MATCHER.t) (w : wxLog) :
  EDA_COMBINED_MATCHER.GetPattern (fst (EDA_COMBINED_MATCHER.run o self w))
  = EDA_COMBINED_MATCHER.GetPattern self.
Proof.
  destruct o as [aTerm| |p m]; unfold EDA_COMBINED_MATCHER.run.
  - unfold ret. cbn [fst].
    pose proof (Find_eq self aTerm) as HF. cbv zeta in HF. rewrite HF. reflexivity.
  - reflexivity.
  - rewrite AddMatcher_eq. cbv zeta. cbn [fst].
    destruct (fst (fst (EDA_PATTERN_MATCH.SetPattern p m w))); reflexivity.
Qed.

(** The pattern of a combined matcher is fixed at construction:
    [GetPattern] returns the constructor's argument after any sequence of
    operations, [AddMatcher] with other patterns included. *)
Theorem combined_GetPattern_constant
    (aPattern : wxString) (ops : list EDA_COMBINED_MATCHER.op) (w w' : wxLog) :
  EDA_COMBINED_MATCHER.GetPattern
    (fst (EDA_COMBINED_MATCHER.run_all ops (fst (EDA_COMBINED_MATCHER.new aPattern w)) w'))
  = aPattern.
Proof.
  assert (Hkeep : forall self w0,
             EDA_COMBINED_MATCHER.GetPattern (fst (EDA_COMBINED_MATCHER.run_all ops self w0))
             = EDA_COMBINED_MATCHER.GetPattern self).
  { induction ops as [|o ops IH]; intros self w0; [reflexivity|].
    cbn [EDA_COMBINED_MATCHER.run_all]. unfold bind.
    pose proof (run_pattern o self w0) as Hstep.
    destruct (EDA_COMBINED_MATCHER.run o self w0) as [self' w1].
    cbn [fst] in Hstep. rewrite IH. exact Hstep. }
  rewrite Hkeep, new_eq. reflexivity.
Qed.

(** [AddMatcher] only ever appends.  The matchers already in the list stay
    as they are and where they are; when [SetPattern] returns [true] one
    matcher of the same dynamic type, holding the pattern, is added at the
    end, and otherwise nothing. *)
Theorem AddMatcher_appends
    (aPattern : wxString) (aMatcher : EDA_PATTERN_MATCH.t)
    (self : EDA_COMBINED_MATCHER.t) (w : wxLog) :
  let ok := fst (fst (EDA_PATTERN_MATCH.SetPattern aPattern aMatcher w)) in
  let self' := fst (EDA_COMBINED_MATCHER.AddMatcher aPattern aMatcher self w) in
  exists added,
    EDA_COMBINED_MATCHER.m_matchers self' = EDA_COMBINED_MATCHER.m_matchers self ++ added /\
    (ok = false -> added = []) /\
    (ok = true ->
     exists matcher, added = [matcher] /\
                     EDA_PATTERN_MATCH.GetPattern matcher = aPattern /\
                     variant_of matcher = variant_of aMatcher).
Proof.
  cbv zeta. rewrite AddMatcher_eq. cbv zeta. cbn [fst].
  destruct (fst (fst (EDA_PATTERN_MATCH.SetPattern aPattern aMatcher w))) eqn:Hok.
  - exists [snd (fst (EDA_PATTERN_MATCH.SetPattern aPattern aMatcher w))].
    split; [reflexivity|]. split; [discriminate|]. intros _.
    eexists. split; [reflexivity|]. split; [|apply SetPattern_variant].
    destruct aMatcher as [o|o|o]; unfold EDA_PATTERN_MATCH.SetPattern, bind, ret.
    + reflexivity.
    + rewrite regex_SetPattern_eq. destruct (regcomp aPattern wxRE_ADVANCED); reflexivity.
    + rewrite wildcard_SetPattern_eq. reflexivity.
  - exists []. split; [rewrite app_nil_r; reflexivity|].
    split; [reflexivity | discriminate].
Qed.

Lemma run_appends (o : EDA_COMBINED_MATCHER.op) (self : EDA_COMBINED_MATCHER.t) (w : wxLog) :
  exists added,
    map forget (EDA_COMBINED_MATCHER.m_matchers (fst (EDA_COMBINED_MATCHER.run o self w)))
    = map forget (EDA_COMBINED_MATCHER.m_matchers self) ++ added.
Proof.
  destruct o as [aTerm| |p m]; unfold EDA_COMBINED_MATCHER.run.
  - exists []. unfold ret. cbn [fst]. rewrite app_nil_r. apply Find_matchers_forget.
  - exists []. rewrite app_nil_r. reflexivity.
  - rewrite AddMatcher_eq. cbv zeta. cbn [fst].
    destruct (fst (fst (EDA_PATTERN_MATCH.SetPattern p m w))).
    + eexists. cbn [EDA_COMBINED_MATCHER.m_matchers]. rewrite map_app. reflexivity.
    + exists []. rewrite app_nil_r. reflexivity.
Qed.

(** No operation removes, reorders or re-targets a registered matcher.
    After any sequence of operations the matchers that were in the list are
    still its first entries, each with its dynamic type, its pattern and its
    compiled expression; all that can differ is the span a search stored. *)
Theorem operations_keep_matchers
    (ops : list EDA_COMBINED_MATCHER.op) (self : EDA_COMBINED_MATCHER.t) (w : wxLog) :
  let self' := fst (EDA_COMBINED_MATCHER.run_all ops self w) in
  exists added,
    map forget (EDA_COMBINED_MATCHER.m_matchers self')
    = map forget (EDA_COMBINED_MATCHER.m_matchers self) ++ added /\
    (length (EDA_COMBINED_MATCHER.m_matchers self)
     <= length (EDA_COMBINED_MATCHER.m_matchers self'))%nat.
Proof.
  cbv zeta. revert self w. induction ops as [|o ops IH]; intros self w.
  - exists []. rewrite app_nil_r. split; [reflexivity | apply Nat.le_refl].
  - cbn [EDA_COMBINED_MATCHER.run_all]. unfold bind.
    destruct (run_appends o self w) as [added1 Hstep].
    destruct (EDA_COMBINED_MATCHER.run o self w) as [self1 w1]. cbn [fst] in Hstep.
    destruct (IH self1 w1) as (added2 & Hrest & Hlen).
    exists (added1 ++ added2). split.
    + rewrite Hrest, Hstep, app_assoc. reflexivity.
    + apply (f_equal (@length _)) in Hstep. rewrite length_app, !length_map in Hstep. lia.
Qed.

End Life.

(** ** The action table *)

Lemma distinct_names_NoDup (names : list string) :
  distinct_names names = true -> NoDup names.
Proof.
  induction names as [|n rest IH]; intros Hd; [constructor|].
  cbn [distinct_names] in Hd. apply andb_true_iff in Hd. destruct Hd as [Hn Hrest].
  constructor; [|exact (IH Hrest)].
  intros Hin. apply negb_true_iff in Hn.
  assert (Hex : existsb (String.eqb n) rest = true).
  { apply existsb_exists. exists n. split; [exact Hin | apply String.eqb_refl]. }
  congruence.
Qed.

Lemma NoDup_map_injective {A B : Type} (f : A -> B) (l : list A) (a b : A) :
  NoDup (map f l) -> In a l -> In b l -> f a = f b -> a = b.
Proof.
  induction l as [|x l IH]; intros Hnd Ha Hb Heq; [contradiction|].
  cbn [map] in Hnd. inversion Hnd as [|y ys Hnotin Hnd']. subst y ys.
  destruct Ha as [<- | Ha], Hb as [<- | Hb].
  - reflexivity.
  - exfalso. apply Hnotin. rewrite Heq. exact (in_map f l b Hb).
  - exfalso. apply Hnotin. rewrite <- Heq. exact (in_map f l a Ha).
  - exact (IH Hnd' Ha Hb Heq).
Qed.

(** The 149 actions the file declares all have different names, and
    different member names.  A name therefore stands for one action, and
    every action [TranslateLegacyId] can answer with is one of them. *)
Theorem declared_names_distinct :
  length declared = 149%nat /\
  NoDup (map (fun d => m_name (snd d)) declared) /\
  NoDup (map fst declared) /\
  (forall a b, In a declared -> In b declared ->
               m_name (snd a) = m_name (snd b) -> a = b) /\
  (forall c, In c PCB_ACTIONS.cases -> In (snd c) (map snd declared)).
Proof.
  assert (Hnames : NoDup (map (fun d => m_name (snd d)) declared)).
  { apply distinct_names_NoDup. vm_compute. reflexivity. }
  split; [reflexivity|]. split; [exact Hnames|]. split; [|split].
  - apply distinct_names_NoDup. vm_compute. reflexivity.
  - intros a b Ha Hb Heq.
    exact (NoDup_map_injective (fun d => m_name (snd d)) declared a b Hnames Ha Hb Heq).
  - assert (Hall : forallb
                     (fun c => if in_dec TOOL_ACTION_eq_dec (snd c) (map snd declared)
                               then true else false) PCB_ACTIONS.cases = true).
    { vm_compute. reflexivity. }
    intros c Hc. rewrite forallb_forall in Hall. specialize (Hall c Hc).
    destruct (in_dec TOOL_ACTION_eq_dec (snd c) (map snd declared)) as [Hin|_];
      [exact Hin | discriminate Hall].
Qed.

Lemma legacy_action_case (labels : list LEGACY_ID) (action : TOOL_ACTION) (l : LEGACY_ID) :
  In (labels, action) PCB_ACTIONS.cases -> In l labels -> action = legacy_action l.
Proof.
  intros Hcase Hl. unfold PCB_ACTIONS.cases in Hcase.
  repeat (destruct Hcase as [Hcase | Hcase];
          [injection Hcase as <- <-;
           repeat (destruct Hl as [<- | Hl]; [reflexivity|]); contradiction|]).
  contradiction.
Qed.

(** Every label stands in one of the groups. *)
Lemma label_in_cases (l : LEGACY_ID) :
  exists labels action, In (labels, action) PCB_ACTIONS.cases /\ In l labels.
Proof.
  assert (Hfound : existsb
                     (fun c => existsb (fun l' => sample_id l =? sample_id l') (fst c))
                     PCB_ACTIONS.cases = true).
  { destruct l; reflexivity. }
  apply existsb_exists in Hfound. destruct Hfound as ([labels action] & Hin & Hl).
  apply existsb_exists in Hl. destruct Hl as (l' & Hl' & Heq).
  apply Z.eqb_eq, sample_id_distinct in Heq. subst l'.
  exists labels, action. split; assumption.
Qed.

Lemma legacy_action_global (l : LEGACY_ID) : m_scope (legacy_action l) = AS_GLOBAL.
Proof. destruct l; reflexivity. Qed.

Section Domain.

Variable TOOL_EVENT : Type.
Variable MakeEvent : TOOL_ACTION -> TOOL_EVENT.
Variable id : LEGACY_ID -> Z.

Lemma switch_hit (aId : Z) (cs : list (list LEGACY_ID * TOOL_ACTION)) (action : TOOL_ACTION) :
  PCB_ACTIONS.switch id aId cs = Some action ->
  exists labels l, In (labels, action) cs /\ In l labels /\ aId = id l.
Proof.
  induction cs as [|[labels a] cs IH]; cbn [PCB_ACTIONS.switch]; [discriminate|].
  destruct (existsb (fun l => aId =? id l) labels) eqn:Hex.
  - intros Heq. injection Heq as <-.
    apply existsb_exists in Hex. destruct Hex as (l & Hl & Hid).
    apply Z.eqb_eq in Hid. exists labels, l. split; [left; reflexivity | split; assumption].
  - intros Hrest. destruct (IH Hrest) as (labels' & l & Hin & Hl & Hid).
    exists labels', l. split; [right; exact Hin | split; assumption].
Qed.

Lemma switch_listed (l : LEGACY_ID) (labels : list LEGACY_ID) (action : TOOL_ACTION)
    (cs : list (list LEGACY_ID * TOOL_ACTION)) :
  In (labels, action) cs -> In l labels ->
  PCB_ACTIONS.switch id (id l) cs <> None.
Proof.
  induction cs as [|[labels' a] cs IH]; intros Hin Hl; [contradiction|].
  cbn [PCB_ACTIONS.switch].
  destruct (existsb (fun l' => id l =? id l') labels') eqn:Hex; [discriminate|].
  destruct Hin as [Heq | Hin].
  - injection Heq as -> ->. exfalso.
    assert (Hyes : existsb (fun l' => id l =? id l') labels = true).
    { apply existsb_exists. exists l. split; [exact Hl | apply Z.eqb_refl]. }
    congruence.
  - exact (IH Hin Hl).
Qed.

(** Whatever numbers the legacy identifiers have, even if two of them
    should share one, [TranslateLegacyId] answers exactly on the values of
    its labels, and its answer is the event of the action that one of the
    labels with that value stands for, an action of global scope. *)
Theorem TranslateLegacyId_domain (aId : Z) :
  (PCB_ACTIONS.TranslateLegacyId TOOL_EVENT MakeEvent id aId <> None
   <-> exists l, aId = id l) /\
  (forall event,
     PCB_ACTIONS.TranslateLegacyId TOOL_EVENT MakeEvent id aId = Some event ->
     exists l, aId = id l /\
               event = MakeEvent (legacy_action l) /\
               m_scope (legacy_action l) = AS_GLOBAL).
Proof.
  assert (Hsome : forall event,
             PCB_ACTIONS.TranslateLegacyId TOOL_EVENT MakeEvent id aId = Some event ->
             exists l, aId = id l /\ event = MakeEvent (legacy_action l) /\
                       m_scope (legacy_action l) = AS_GLOBAL).
  { intros event. unfold PCB_ACTIONS.TranslateLegacyId.
    destruct (PCB_ACTIONS.switch id aId PCB_ACTIONS.cases) as [action|] eqn:Hsw;
      [|discriminate].
    intros Heq. injection Heq as <-.
    destruct (switch_hit aId _ action Hsw) as (labels & l & Hin & Hl & Hid).
    exists l. rewrite (legacy_action_case labels action l Hin Hl).
    split; [exact Hid|]. split; [reflexivity | apply legacy_action_global]. }
  split; [|exact Hsome]. split.
  - intros Hne.
    destruct (PCB_ACTIONS.TranslateLegacyId TOOL_EVENT MakeEvent id aId) as [event|] eqn:Ht;
      [|contradiction Hne; reflexivity].
    destruct (Hsome event eq_refl) as (l & Hid & _). exists l. exact Hid.
  - intros (l & ->). unfold PCB_ACTIONS.TranslateLegacyId.
    destruct (label_in_cases l) as (labels & action & Hin & Hl).
    pose proof (switch_listed l labels action _ Hin Hl) as Hne.
    destruct (PCB_ACTIONS.switch id (id l) PCB_ACTIONS.cases); [discriminate | contradiction].
Qed.

End Domain.

(** ** The further properties at work *)

(** The translation of [a?b*c.] read back. *)
Lemma translate_injective_witness :
  EDA_PATTERN_MATCH_WILDCARD.translate (wxT "a?b*c.") = wxT "a.b.*c\." /\
  untranslate (wxT "a.b.*c\.") = wxT "a?b*c.".
Proof.
  split; [reflexivity|].
  exact (proj2 (translate_injective (wxT "a?b*c.") (wxT "a?b*c."))).
Defined.

(** [R1] has no special character: both matchers find it at offset 1 of
    [xR12]. *)
Lemma plain_pattern_regex_wildcard_agree_witness :
  plain (wxT "R1") = true /\
  fst (EDA_PATTERN_MATCH_WILDCARD.Find
         (snd (fst (EDA_PATTERN_MATCH_WILDCARD.SetPattern (wxT "R1")
                      EDA_PATTERN_MATCH_WILDCARD.new log0))) (wxT "xR12"))
  = fst (EDA_PATTERN_MATCH_REGEX.Find
           (snd (fst (EDA_PATTERN_MATCH_REGEX.SetPattern (wxT "R1")
                        EDA_PATTERN_MATCH_REGEX.new log0))) (wxT "xR12")).
Proof.
  split; [reflexivity|].
  exact (proj1 (proj2 (proj2
    (@plain_pattern_regex_wildcard_agree TinyRegex.engine (wxT "R1") (wxT "xR12")
       EDA_PATTERN_MATCH_REGEX.new EDA_PATTERN_MATCH_WILDCARD.new log0 eq_refl)))).
Defined.

(** A matcher that compiled [R1] has no valid expression left once
    [SetPattern] has failed on [(]. *)
Lemma SetPattern_overwrites_witness :
  regcomp (wxT "(") wxRE_ADVANCED = None /\
  wxRegEx_IsValid
    (EDA_PATTERN_MATCH_REGEX.m_regex
       (snd (fst (EDA_PATTERN_MATCH_REGEX.SetPattern (wxT "(")
                    (snd (fst (EDA_PATTERN_MATCH_REGEX.SetPattern (wxT "R1")
                                 EDA_PATTERN_MATCH_REGEX.new log0))) log0)))) = false.
Proof.
  split; [reflexivity|].
  exact (proj2
    (@SetPattern_overwrites TinyRegex.engine (wxT "R1") (wxT "(")
       (EDA_PATTERN_MATCH.Regex EDA_PATTERN_MATCH_REGEX.new) [] log0 log0 log0)
    (snd (fst (EDA_PATTERN_MATCH_REGEX.SetPattern (wxT "R1")
                 EDA_PATTERN_MATCH_REGEX.new log0))) eq_refl).
Defined.

(** [C] does not occur in [xR12], and the substring matcher says so. *)
Lemma substr_Find_first_occurrence_witness :
  Z.of_nat (length (wxT "xR12")) <= INT_MAX /\
  (EDA_PATTERN_MATCH_SUBSTR.Find
     {| EDA_PATTERN_MATCH_SUBSTR.m_pattern := wxT "C" |} (wxT "xR12") = EDA_PATTERN_NOT_FOUND
   <-> ~ contains (wxT "xR12") (wxT "C")).
Proof.
  assert (Hle : Z.of_nat (length (wxT "xR12")) <= INT_MAX) by (unfold INT_MAX; simpl; lia).
  split; [exact Hle|].
  exact (proj1 (substr_Find_first_occurrence (wxT "C") (wxT "xR12") Hle)).
Defined.

(** [R12] is longer than [R1]. *)
Lemma substr_Find_edge_cases_witness :
  (length (wxT "R1") < length (wxT "R12"))%nat /\
  EDA_PATTERN_MATCH_SUBSTR.Find
    {| EDA_PATTERN_MATCH_SUBSTR.m_pattern := wxT "R12" |} (wxT "R1") = EDA_PATTERN_NOT_FOUND.
Proof.
  assert (Hlt : (length (wxT "R1") < length (wxT "R12"))%nat) by (simpl; lia).
  split; [exact Hlt|].
  exact (proj1 (proj2 (proj2 (substr_Find_edge_cases (wxT "R12") (wxT "R1")))) Hlt).
Defined.

(** The substring matcher before or after the regular-expression matcher:
    the same outputs. *)
Lemma combined_Find_order_irrelevant_witness :
  Permutation
    [EDA_PATTERN_MATCH.Substr {| EDA_PATTERN_MATCH_SUBSTR.m_pattern := wxT "12" |};
     EDA_PATTERN_MATCH.Regex
       (snd (fst (EDA_PATTERN_MATCH_REGEX.SetPattern (wxT "R.") EDA_PATTERN_MATCH_REGEX.new log0)))]
    [EDA_PATTERN_MATCH.Regex
       (snd (fst (EDA_PATTERN_MATCH_REGEX.SetPattern (wxT "R.") EDA_PATTERN_MATCH_REGEX.new log0)));
     EDA_PATTERN_MATCH.Substr {| EDA_PATTERN_MATCH_SUBSTR.m_pattern := wxT "12" |}] /\
  fst (EDA_COMBINED_MATCHER.Find
         {| EDA_COMBINED_MATCHER.m_pattern := wxT "12";
            EDA_COMBINED_MATCHER.m_matchers :=
              [EDA_PATTERN_MATCH.Substr {| EDA_PATTERN_MATCH_SUBSTR.m_pattern := wxT "12" |};
               EDA_PATTERN_MATCH.Regex
                 (snd (fst (EDA_PATTERN_MATCH_REGEX.SetPattern (wxT "R.")
                              EDA_PATTERN_MATCH_REGEX.new log0)))] |} (wxT "xR12"))
  = fst (EDA_COMBINED_MATCHER.Find
           {| EDA_COMBINED_MATCHER.m_pattern := wxT "12";
              EDA_COMBINED_MATCHER.m_matchers :=
                [EDA_PATTERN_MATCH.Regex
                   (snd (fst (EDA_PATTERN_MATCH_REGEX.SetPattern (wxT "R.")
                                EDA_PATTERN_MATCH_REGEX.new log0)));
                 EDA_PATTERN_MATCH.Substr {| EDA_PATTERN_MATCH_SUBSTR.m_pattern := wxT "12" |}] |}
           (wxT "xR12")).
Proof.
  pose proof (perm_swap
    (EDA_PATTERN_MATCH.Regex
       (snd (fst (EDA_PATTERN_MATCH_REGEX.SetPattern (wxT "R.") EDA_PATTERN_MATCH_REGEX.new log0))))
    (EDA_PATTERN_MATCH.Substr {| EDA_PATTERN_MATCH_SUBSTR.m_pattern := wxT "12" |})
    []) as Hswap.
  split; [exact Hswap|].
  exact (@combined_Find_order_irrelevant TinyRegex.engine (wxT "12") (wxT "12") _ _
           (wxT "xR12") Hswap).
Defined.

(** [R(] sits at offset 1 of [xR(1]; the combined matcher reports a position
    between 0 and 1. *)
Lemma combined_Find_not_behind_literal_witness :
  Z.of_nat (length (wxT "x")) <= INT_MAX /\
  0 <= EDA_COMBINED_MATCHER.aPosition
         (fst (EDA_COMBINED_MATCHER.Find (fst (EDA_COMBINED_MATCHER.new (wxT "R(") log0))
                 (wxT "x" ++ wxT "R(" ++ wxT "1")))
    <= Z.of_nat (length (wxT "x")).
Proof.
  assert (Hle : Z.of_nat (length (wxT "x")) <= INT_MAX) by (unfold INT_MAX; simpl; lia).
  split; [exact Hle|].
  exact (proj1 (proj2 (proj2
    (@combined_Find_not_behind_literal TinyRegex.engine (wxT "R(") (wxT "x") (wxT "1")
       log0 Hle)))).
Defined.

(** [(] does not compile.  At the default level [wxRegEx::Compile] alone
    records the error; [SetPattern] gives the log back untouched. *)
Lemma SetPattern_silences_Compile_witness :
  regcomp (wxT "(") wxRE_ADVANCED = None /\
  wxLOG_Error <= ms_logLevel log0 /\
  records (snd (wxRegEx_Compile wxRegEx_new (wxT "(") wxRE_ADVANCED log0))
    = [(wxLOG_Error, wxT "(")] /\
  snd (EDA_PATTERN_MATCH_REGEX.SetPattern (wxT "(") EDA_PATTERN_MATCH_REGEX.new log0) = log0.
Proof.
  assert (Hlevel : wxLOG_Error <= ms_logLevel log0) by (vm_compute; discriminate).
  split; [reflexivity|]. split; [exact Hlevel|]. split.
  - exact (proj1 (@SetPattern_silences_Compile TinyRegex.engine (wxT "(")
                    EDA_PATTERN_MATCH_REGEX.new log0 eq_refl) Hlevel).
  - exact (proj1 (proj2 (@SetPattern_silences_Compile TinyRegex.engine (wxT "(")
                           EDA_PATTERN_MATCH_REGEX.new log0 eq_refl))).
Defined.

(** ** The small engine honours wildcards *)

(** A character of [escaped] is no letter and no digit: the backslash
    before it makes it stand for itself. *)
Lemma escaped_not_alnum (c : wxUniChar) :
  existsb (N.eqb c) escaped = true -> TinyRegex.is_alnum c = false.
Proof.
  intros Hin. apply existsb_exists in Hin. destruct Hin as (d & Hd & Heq).
  apply N.eqb_eq in Heq. subst d. unfold escaped in Hd. cbn [In] in Hd.
  repeat (destruct Hd as [<-|Hd]; [reflexivity|]). contradiction.
Qed.

(** A character outside [escaped] stands for itself as it is. *)
Lemma unescaped_literal (c : wxUniChar) (p : wxString) :
  existsb (N.eqb c) escaped = false ->
  TinyRegex.tokens (c :: p) = TinyRegex.Atom (TinyRegex.Lit c) :: TinyRegex.tokens p.
Proof.
  intros Hout. cbn [TinyRegex.tokens].
  destruct (N.eqb_spec c 92) as [->|_]; [vm_compute in Hout; discriminate|].
  destruct (N.eqb_spec c 46) as [->|_]; [vm_compute in Hout; discriminate|].
  destruct (N.eqb_spec c 42) as [->|_]; [vm_compute in Hout; discriminate|].
  destruct (existsb (N.eqb c) TinyRegex.special) eqn:Hs; [exfalso|reflexivity].
  apply existsb_exists in Hs. destruct Hs as (d & Hd & Heq).
  apply N.eqb_eq in Heq. subst d.
  assert (Hin : existsb (N.eqb c) escaped = true).
  { apply existsb_exists. exists c. split; [|apply N.eqb_refl].
    vm_compute in Hd |- *. tauto. }
  congruence.
Qed.

(** What the small engine reads in a translated wildcard, character by
    character of the wildcard. *)
Lemma tokens_translate_cons (c : wxUniChar) (p : wxString) :
  TinyRegex.tokens (EDA_PATTERN_MATCH_WILDCARD.translate (c :: p))
  = (if (c =? 63)%N then [TinyRegex.Atom TinyRegex.Any]
     else if (c =? 42)%N then [TinyRegex.Atom TinyRegex.Any; TinyRegex.Star]
     else [TinyRegex.Atom (TinyRegex.Lit c)])
    ++ TinyRegex.tokens (EDA_PATTERN_MATCH_WILDCARD.translate p).
Proof.
  rewrite translate_cons. unfold wildcard_rule.
  destruct (c =? 63)%N; [reflexivity|].
  destruct (c =? 42)%N; [reflexivity|].
  destruct (existsb (N.eqb c) escaped) eqn:Hesc.
  - cbn [app TinyRegex.tokens N.eqb Pos.eqb].
    rewrite (escaped_not_alnum c Hesc). reflexivity.
  - cbn [app]. apply unescaped_literal. exact Hesc.
Qed.

Lemma tokens_translate_head (p : wxString) (ts : list TinyRegex.token) :
  TinyRegex.tokens (EDA_PATTERN_MATCH_WILDCARD.translate p) <> TinyRegex.Star :: ts.
Proof.
  destruct p as [|c p]; [discriminate|].
  rewrite tokens_translate_cons.
  destruct (c =? 63)%N; [discriminate|].
  destruct (c =? 42)%N; discriminate.
Qed.

(** An atom that no star follows is taken once. *)
Lemma items_atom (a : TinyRegex.atom) (ts : list TinyRegex.token) :
  (forall ts', ts <> TinyRegex.Star :: ts') ->
  TinyRegex.items (TinyRegex.Atom a :: ts)
  = option_map (cons (a, false)) (TinyRegex.items ts).
Proof.
  intros Hhead. destruct ts as [|[b| |] ts']; try reflexivity.
  exfalso. exact (Hhead ts' eq_refl).
Qed.

(** A starred [.] followed by [its] matches wherever [its] matches after
    some characters skipped. *)
Lemma match_here_star (its : list (TinyRegex.atom * bool)) (s : wxString) (k : nat) :
  TinyRegex.match_here its (skipn k s) <> None ->
  TinyRegex.match_here ((TinyRegex.Any, true) :: its) s <> None.
Proof.
  revert k. induction s as [|c s IH]; intros k Hrest.
  - rewrite skipn_nil in Hrest. exact Hrest.
  - change (TinyRegex.match_here ((TinyRegex.Any, true) :: its) (c :: s))
      with (match TinyRegex.match_here ((TinyRegex.Any, true) :: its) s with
            | Some n => Some (N.succ n)
            | None => TinyRegex.match_here its (c :: s)
            end).
    destruct (TinyRegex.match_here ((TinyRegex.Any, true) :: its) s);
      [discriminate|].
    destruct k as [|k]; [exact Hrest|].
    exfalso. exact (IH k Hrest eq_refl).
Qed.

(** The small engine compiles every translated wildcard, and what it compiled
    matches at the head of any text that starts with the wildcard. *)
Lemma tiny_wildcard_matches_itself (p : wxString) :
  exists its,
    TinyRegex.items (TinyRegex.tokens (EDA_PATTERN_MATCH_WILDCARD.translate p)) = Some its /\
    forall post, TinyRegex.match_here its (p ++ post) <> None.
Proof.
  induction p as [|c p (its & Hits & Hmatch)].
  - exists []. split; [reflexivity | discriminate].
  - rewrite tokens_translate_cons.
    destruct (N.eqb_spec c 63) as [->|_]; [|destruct (N.eqb_spec c 42) as [->|_]].
    + cbn [app]. rewrite items_atom by apply tokens_translate_head. rewrite Hits.
      exists ((TinyRegex.Any, false) :: its). split; [reflexivity|].
      intros post. cbn [app TinyRegex.match_here TinyRegex.accepts].
      specialize (Hmatch post).
      destruct (TinyRegex.match_here its (p ++ post)); [discriminate | contradiction].
    + cbn [app TinyRegex.items]. rewrite Hits.
      exists ((TinyRegex.Any, true) :: its). split; [reflexivity|].
      intros post. apply (match_here_star its _ 1). exact (Hmatch post).
    + cbn [app]. rewrite items_atom by apply tokens_translate_head. rewrite Hits.
      exists ((TinyRegex.Lit c, false) :: its). split; [reflexivity|].
      intros post. cbn [app TinyRegex.match_here TinyRegex.accepts].
      rewrite N.eqb_refl. specialize (Hmatch post).
      destruct (TinyRegex.match_here its (p ++ post)); [discriminate | contradiction].
Qed.

(** The search finds a match that starts anywhere in the text. *)
Lemma search_behind (its : list (TinyRegex.atom * bool)) (pre rest : wxString) :
  TinyRegex.match_here its rest <> None ->
  TinyRegex.search its (pre ++ rest) <> None.
Proof.
  intros Hrest. induction pre as [|d pre IH].
  - cbn [app]. destruct rest as [|d rest]; cbn [TinyRegex.search];
      destruct (TinyRegex.match_here its _); [discriminate | contradiction
                                              | discriminate | contradiction].
  - cbn [app TinyRegex.search].
    destruct (TinyRegex.match_here its (d :: pre ++ rest)); [discriminate|].
    destruct (TinyRegex.search its (pre ++ rest)); [discriminate | contradiction].
Qed.

(** The small engine is an engine that honours wildcards. *)
Lemma tiny_honours_wildcards : @honours_wildcards TinyRegex.engine.
Proof.
  intros wildcard text _ (pre & post & ->).
  destruct (tiny_wildcard_matches_itself wildcard) as (its & Hits & Hmatch).
  pose proof (search_behind its pre (wildcard ++ post) (Hmatch post)) as Hsearch.
  destruct (TinyRegex.search its (pre ++ wildcard ++ post)) as [span|] eqn:Hspan;
    [|contradiction].
  exists its, span. split; [exact Hits | exact Hspan].
Qed.

(** C9 at work, on the small engine: it honours wildcards, and the matcher for
    [R(], after a search for something else and one more matcher added,
    finds [R(] in [xR(1].  In a candidate made of 2^32 - 1 characters [b]
    and then an [a], the substring matcher misses the pattern [a]: the
    offset converted to [int] is [wxNOT_FOUND].  The combined matcher
    returns [true] all the same. *)
Lemma substring_matcher_stays_registered_witness :
  let ops := [EDA_COMBINED_MATCHER.OpFind (wxT "zz");
              EDA_COMBINED_MATCHER.OpAddMatcher (wxT "q")
                (EDA_PATTERN_MATCH.Substr EDA_PATTERN_MATCH_SUBSTR.new)] in
  let far := repeat 98%N (N.to_nat 4294967295) ++ [97%N] in
  @honours_wildcards TinyRegex.engine /\
  contains (wxT "xR(1") (wxT "R(") /\
  Z.of_nat (length (wxT "x")) <= INT_MAX /\
  EDA_COMBINED_MATCHER.returned
    (fst (EDA_COMBINED_MATCHER.Find
            (fst (EDA_COMBINED_MATCHER.run_all ops
                    (fst (EDA_COMBINED_MATCHER.new (wxT "R(") log0)) log0))
            (wxT "xR(1"))) = true /\
  EDA_COMBINED_MATCHER.returned
    (fst (EDA_COMBINED_MATCHER.Find
            (fst (EDA_COMBINED_MATCHER.run_all ops
                    (fst (EDA_COMBINED_MATCHER.new (wxT "R(") log0)) log0))
            (wxT "x" ++ wxT "R(" ++ wxT "1"))) = true /\
  contains far [97%N] /\
  EDA_PATTERN_MATCH_SUBSTR.Find {| EDA_PATTERN_MATCH_SUBSTR.m_pattern := [97%N] |} far
    = EDA_PATTERN_NOT_FOUND /\
  EDA_COMBINED_MATCHER.returned
    (fst (EDA_COMBINED_MATCHER.Find
            (fst (EDA_COMBINED_MATCHER.run_all ops
                    (fst (EDA_COMBINED_MATCHER.new [97%N] log0)) log0))
            far)) = true.
Proof.
  cbv zeta.
  assert (Hcontains : contains (wxT "xR(1") (wxT "R(")).
  { exists (wxT "x"), (wxT "1"). reflexivity. }
  assert (Hle : Z.of_nat (length (wxT "x")) <= INT_MAX) by (unfold INT_MAX; simpl; lia).
  assert (Hfar : contains (repeat 98%N (N.to_nat 4294967295) ++ [97%N]) [97%N]).
  { exists (repeat 98%N (N.to_nat 4294967295)), []. reflexivity. }
  split; [exact tiny_honours_wildcards|]. split; [exact Hcontains|].
  split; [exact Hle|]. split; [|split; [|split; [exact Hfar|split]]].
  - exact (proj2 (proj2 (proj2 (proj2 (proj2 (proj2
      (@substring_matcher_stays_registered TinyRegex.engine (wxT "R(") log0 log0
         [EDA_COMBINED_MATCHER.OpFind (wxT "zz");
          EDA_COMBINED_MATCHER.OpAddMatcher (wxT "q")
            (EDA_PATTERN_MATCH.Substr EDA_PATTERN_MATCH_SUBSTR.new)]))))))
      tiny_honours_wildcards (wxT "xR(1") Hcontains).
  - exact (proj1 (proj2 (proj2 (proj2 (proj2
      (@substring_matcher_stays_registered TinyRegex.engine (wxT "R(") log0 log0
         [EDA_COMBINED_MATCHER.OpFind (wxT "zz");
          EDA_COMBINED_MATCHER.OpAddMatcher (wxT "q")
            (EDA_PATTERN_MATCH.Substr EDA_PATTERN_MATCH_SUBSTR.new)])))))
      (wxT "x") (wxT "1") Hle).
  - unfold EDA_PATTERN_MATCH_SUBSTR.Find, wxString_Find.
    cbn [EDA_PATTERN_MATCH_SUBSTR.m_pattern].
    rewrite (find_after_repeat 97%N 98%N (N.to_nat 4294967295)) by discriminate.
    rewrite N2Nat.id. reflexivity.
  - exact (proj2 (proj2 (proj2 (proj2 (proj2 (proj2
      (@substring_matcher_stays_registered TinyRegex.engine [97%N] log0 log0
         [EDA_COMBINED_MATCHER.OpFind (wxT "zz");
          EDA_COMBINED_MATCHER.OpAddMatcher (wxT "q")
            (EDA_PATTERN_MATCH.Substr EDA_PATTERN_MATCH_SUBSTR.new)]))))))
      tiny_honours_wildcards (repeat 98%N (N.to_nat 4294967295) ++ [97%N]) Hfar).
Defined.
